(** * TSFC driver: form aggregation, kernel configuration, quadrature
      resolution and dummy-index reconciliation

    A shallow embedding of [tsfc/driver.py] and of
    [tsfc/kernel_interface/common.py].  Python exceptions are values of
    [exn]; a call that may raise returns a [result].  Dictionaries with
    string keys are [gmap string _]; dictionaries whose iteration order
    is observable are association lists in insertion order. *)

From Stdlib Require Import ZArith String Ascii List Sorted Permutation Lia.
From Stdlib Require Import DecimalString.
From Stdlib Require DecimalPos DecimalZ.
From stdpp Require Import base decidable option list gmap strings sorting.

Local Open Scope Z_scope.
Local Open Scope string_scope.
Local Open Scope list_scope.
Local Open Scope stdpp_scope.

(** ** Exceptions and results *)

Inductive exn : Type :=
| ValueError (msg : string)
| NotImplementedError (msg : string)
| KeyError
| IndexError
| TypeError
| AssertionError
| BackendError (name : string).

Inductive result (A : Type) : Type :=
| Ok (a : A)
| Raise (e : exn).
Arguments Ok {A} a.
Arguments Raise {A} e.

Definition bind {A B} (k : A -> result B) (m : result A) : result B :=
  match m with
  | Ok a => k a
  | Raise e => Raise e
  end.

Global Instance result_ret : MRet result := @Ok.
Global Instance result_bind : MBind result := @bind.
Global Instance result_fmap : FMap result :=
  λ A B f m, match m with Ok a => Ok (f a) | Raise e => Raise e end.

Definition from_option {A} (e : exn) (o : option A) : result A :=
  match o with
  | Some a => Ok a
  | None => Raise e
  end.

(** [[f(x) for x in xs]] where [f] may raise: the first exception wins. *)
Fixpoint mapM {A B} (f : A -> result B) (xs : list A) : result (list B) :=
  match xs with
  | [] => Ok []
  | x :: xs' => y ← f x; ys ← mapM f xs'; Ok (y :: ys)
  end.

Definition is_ok {A} (r : result A) : bool :=
  match r with Ok _ => true | Raise _ => false end.

(** [[a, b = t]]: the [ValueError] of unpacking a sequence of the wrong
    length. *)
Definition str_of_nat (n : nat) : string :=
  NilZero.string_of_uint (Nat.to_uint n).

Definition unpack_error (expected got : nat) : exn :=
  if (got <? expected)%nat then
    ValueError ("not enough values to unpack (expected " +:+ str_of_nat expected
                +:+ ", got " +:+ str_of_nat got +:+ ")")
  else
    ValueError ("too many values to unpack (expected " +:+ str_of_nat expected +:+ ")").

(** ** FIAT reference cells *)

(** [get_dimension()] is an [int] for an ordinary cell and a tuple of
    the factors' dimensions for a [TensorProductCell]; the keys of
    [get_topology()] have the same form. *)
Inductive Dim : Type :=
| DimInt (d : Z)
| DimTuple (ds : list Z).

Global Instance Dim_eq_dec : EqDecision Dim.
Proof. solve_decision. Defined.

(** An entity of the topology is the tuple of its vertex numbers. *)
Definition Topology : Type := list (Dim * list (list nat)).

Inductive FiatCell : Type :=
| Cell (dim : Z) (topology : Topology)
| TensorProductCell (dims : list Z) (topology : Topology).

Definition get_dimension (c : FiatCell) : Dim :=
  match c with
  | Cell d _ => DimInt d
  | TensorProductCell ds _ => DimTuple ds
  end.

Definition get_topology (c : FiatCell) : Topology :=
  match c with
  | Cell _ t => t
  | TensorProductCell _ t => t
  end.

Definition is_TensorProductCell (c : FiatCell) : bool :=
  match c with
  | Cell _ _ => false
  | TensorProductCell _ _ => true
  end.

(** [d[k]] for a dictionary kept as an association list *)
Fixpoint assoc {K V} `{EqDecision K} (k : K) (d : list (K * V)) : option V :=
  match d with
  | [] => None
  | (k', v) :: d' => if decide (k = k') then Some v else assoc k d'
  end.

(** [x in xs] for strings *)
Definition str_in (s : string) (xs : list string) : bool :=
  existsb (String.eqb s) xs.

Definition vert_facet_types : list string :=
  ["exterior_facet_vert"; "interior_facet_vert"].
Definition horiz_facet_types : list string :=
  ["exterior_facet_bottom"; "exterior_facet_top"; "interior_facet_horiz"].

(** [lower_integral_type], driver.py lines 524-564 *)
Definition lower_integral_type (fiat_cell : FiatCell) (integral_type : string)
  : result (Dim * list nat) :=
  let dim := get_dimension fiat_cell in
  integration_dim ←
    (if String.eqb integral_type "cell" then Ok dim
     else if str_in integral_type ["exterior_facet"; "interior_facet"] then
       if is_TensorProductCell fiat_cell then
         Raise (ValueError (integral_type +:+
           " integral cannot be used with a TensorProductCell; need to distinguish between vertical and horizontal contributions."))
       else
         match dim with
         | DimInt d => Ok (DimInt (d - 1))
         | DimTuple _ => Raise TypeError
         end
     else if String.eqb integral_type "vertex" then Ok (DimInt 0)
     else if str_in integral_type (vert_facet_types ++ horiz_facet_types)%list then
       if negb (is_TensorProductCell fiat_cell) then
         Raise (ValueError (integral_type +:+ " integral requires a TensorProductCell."))
       else
         match dim with
         | DimTuple [basedim; extrdim] =>
             if negb (Z.eqb extrdim 1) then Raise AssertionError
             else if str_in integral_type vert_facet_types then
               Ok (DimTuple [basedim - 1; 1])
             else
               Ok (DimTuple [basedim; 0])
         | DimTuple ds => Raise (unpack_error 2 (length ds))
         | DimInt _ => Raise TypeError
         end
     else Raise (NotImplementedError
                   ("integral type " +:+ integral_type +:+ " not supported")));
  if String.eqb integral_type "exterior_facet_bottom" then
    Ok (integration_dim, [0%nat])
  else if String.eqb integral_type "exterior_facet_top" then
    Ok (integration_dim, [1%nat])
  else
    entities ← from_option KeyError (assoc integration_dim (get_topology fiat_cell));
    Ok (integration_dim, seq 0 (length entities)).

(** ** GEM: the tensor-algebra intermediate representation *)

Module Gem.

(** A [gem.Index] is an object with an identity and an extent. *)
Record Index : Type := { idx_id : nat; extent : nat }.

Global Instance Index_eq_dec : EqDecision Index.
Proof. solve_decision. Defined.

(** An entry of a multiindex: a free index or a fixed position. *)
Inductive mindex : Type :=
| MIndex (i : Index)
| MFixed (n : nat).

Global Instance mindex_eq_dec : EqDecision mindex.
Proof. solve_decision. Defined.

Inductive expr : Type :=
| Literal (z : Z)
| Variable_ (name : string)
| Indexed (e : expr) (multiindex : list mindex)
| Sum (a b : expr)
| Product (a b : expr)
| IndexSum (summand : expr) (i : Index)
| Delta (i j : Index).

Global Instance expr_eq_dec : EqDecision expr.
Proof. solve_decision. Defined.

Definition mindex_indices (m : mindex) : list Index :=
  match m with
  | MIndex i => [i]
  | MFixed _ => []
  end.

Fixpoint free_indices (e : expr) : list Index :=
  match e with
  | Literal _ => []
  | Variable_ _ => []
  | Indexed c mi => free_indices c ++ concat (map mindex_indices mi)
  | Sum a b => free_indices a ++ free_indices b
  | Product a b => free_indices a ++ free_indices b
  | IndexSum c i => filter (λ j, j ≠ i) (free_indices c)
  | Delta i j => [i; j]
  end.

Fixpoint bound_indices (e : expr) : list Index :=
  match e with
  | Literal _ => []
  | Variable_ _ => []
  | Indexed c _ => bound_indices c
  | Sum a b => bound_indices a ++ bound_indices b
  | Product a b => bound_indices a ++ bound_indices b
  | IndexSum c i => i :: bound_indices c
  | Delta _ _ => []
  end.

(** A substitution is a sequence of (key, value) pairs. *)
Definition Subst : Type := list (Index * Index).

Definition substitute (s : Subst) (i : Index) : Index :=
  default i (assoc i s).

Definition substitute_mindex (s : Subst) (m : mindex) : mindex :=
  match m with
  | MIndex i => MIndex (substitute s i)
  | MFixed n => MFixed n
  end.

(** Modelled from the spec: [gem.optimise.filtered_replace_indices]
    under [gem.node.MemoizerArg] is not part of the inspected sources.
    Following section 4.5, the pass drops at every node the rules whose
    key is not a free index of that node, leaves a subtree untouched
    when no rule remains, and otherwise replaces each free occurrence
    of a key by its value.  Memoisation by node identity only preserves
    sharing and is not visible on trees. *)
Fixpoint filtered_replace_indices (node : expr) (subst : Subst) : expr :=
  let filtered_subst :=
    filter (λ kv, fst kv ∈ free_indices node) subst in
  match filtered_subst with
  | [] => node
  | _ =>
      match node with
      | Literal z => Literal z
      | Variable_ x => Variable_ x
      | Indexed c mi =>
          Indexed (filtered_replace_indices c filtered_subst)
                  (map (substitute_mindex filtered_subst) mi)
      | Sum a b =>
          Sum (filtered_replace_indices a filtered_subst)
              (filtered_replace_indices b filtered_subst)
      | Product a b =>
          Product (filtered_replace_indices a filtered_subst)
                  (filtered_replace_indices b filtered_subst)
      | IndexSum c i =>
          IndexSum (filtered_replace_indices c filtered_subst) i
      | Delta i j =>
          Delta (substitute filtered_subst i) (substitute filtered_subst j)
      end
  end.

(** *** Evaluation *)

(** An assignment of index values, and the data of the variables: a
    tensor is read at a position. *)
Definition Assignment : Type := Index -> nat.
Definition Data : Type := string -> list nat -> Z.

Definition update (rho : Assignment) (i : Index) (k : nat) : Assignment :=
  λ j, if decide (j = i) then k else rho j.

Definition position (rho : Assignment) (m : mindex) : nat :=
  match m with
  | MIndex i => rho i
  | MFixed n => n
  end.

Fixpoint sum_upto (n : nat) (f : nat -> Z) : Z :=
  match n with
  | O => 0
  | S n' => sum_upto n' f + f n'
  end.

Fixpoint eval (data : Data) (e : expr) (rho : Assignment) (p : list nat) : Z :=
  match e with
  | Literal z => z
  | Variable_ x => data x p
  | Indexed c mi => eval data c rho (map (position rho) mi ++ p)
  | Sum a b => eval data a rho p + eval data b rho p
  | Product a b => eval data a rho p * eval data b rho p
  | IndexSum c i => sum_upto (extent i) (λ k, eval data c (update rho i k) p)
  | Delta i j => if decide (rho i = rho j) then 1 else 0
  end.

(** Every index that has values takes one below its extent. *)
Definition within_extents (rho : Assignment) : Prop :=
  ∀ i, (0 < extent i)%nat -> (rho i < extent i)%nat.

(** No value of the substitution is bound in [e]. *)
Definition capture_free (s : Subst) (e : expr) : Prop :=
  ∀ kv, kv ∈ s -> snd kv ∉ bound_indices e.

(** The assignment that reads every index through the substitution. *)
Definition through (s : Subst) (rho : Assignment) : Assignment :=
  λ i, rho (substitute s i).

End Gem.

(** ** UFL and FInAT data read by the driver *)

(** A polynomial degree is an [int], or a tuple of them on a tensor
    product element. *)
Inductive Degree : Type :=
| DegInt (d : Z)
| DegTuple (ds : list Z).

Global Instance Degree_eq_dec : EqDecision Degree.
Proof. solve_decision. Defined.

Record FiniteElement : Type := { family : string; degree : Degree }.

Global Instance FiniteElement_eq_dec : EqDecision FiniteElement.
Proof. solve_decision. Defined.

Record UflCell : Type := { cellname : string }.

Global Instance UflCell_eq_dec : EqDecision UflCell.
Proof. solve_decision. Defined.

(** A domain is compared by identity. *)
Record Mesh : Type := { mesh_id : nat; ufl_cell : UflCell }.

Global Instance Mesh_eq_dec : EqDecision Mesh.
Proof. solve_decision. Defined.

Record FunctionSpace : Type := { ufl_domain : Mesh; ufl_element : FiniteElement }.

Global Instance FunctionSpace_eq_dec : EqDecision FunctionSpace.
Proof. solve_decision. Defined.

(** [ufl.Coefficient(function_space, count=...)]: two coefficients are
    equal when their counts and function spaces are. *)
Record Coefficient : Type :=
  { count : nat; coefficient_function_space : FunctionSpace }.

Global Instance Coefficient_eq_dec : EqDecision Coefficient.
Proof. solve_decision. Defined.

Record Argument : Type :=
  { number : nat; argument_function_space : FunctionSpace }.

Global Instance Argument_eq_dec : EqDecision Argument.
Proof. solve_decision. Defined.

Record Subspace : Type :=
  { subspace_count : nat; subspace_function_space : FunctionSpace }.

Global Instance Subspace_eq_dec : EqDecision Subspace.
Proof. solve_decision. Defined.

(** The objects [f] on which the driver calls [f.ufl_function_space()]. *)
Inductive FormArgument : Type :=
| FArgument (a : Argument)
| FCoefficient (c : Coefficient).

Class HasFunctionSpace (A : Type) : Type :=
  ufl_function_space : A -> FunctionSpace.

Global Instance Coefficient_space : HasFunctionSpace Coefficient :=
  coefficient_function_space.
Global Instance Argument_space : HasFunctionSpace Argument :=
  argument_function_space.
Global Instance FormArgument_space : HasFunctionSpace FormArgument :=
  λ f, match f with
       | FArgument a => argument_function_space a
       | FCoefficient c => coefficient_function_space c
       end.

(** Integrands: the terminals the driver substitutes, and the
    operators above them. *)
Inductive UflExpr : Type :=
| UCoefficient (c : Coefficient)
| USubspace (s : Subspace)
| UArgument (a : Argument)
| UConstant (z : Z)
| USum (a b : UflExpr)
| UProduct (a b : UflExpr).

Global Instance UflExpr_eq_dec : EqDecision UflExpr.
Proof. solve_decision. Defined.

(** [ufl.replace(e, mapping)]: every terminal that is a key of
    [mapping] is replaced by its value. *)
Fixpoint ufl_replace (e : UflExpr) (mapping : list (UflExpr * UflExpr)) : UflExpr :=
  match e with
  | USum a b => USum (ufl_replace a mapping) (ufl_replace b mapping)
  | UProduct a b => UProduct (ufl_replace a mapping) (ufl_replace b mapping)
  | _ => default e (assoc e mapping)
  end.

(** A quadrature rule object of FInAT; its points and weights are never
    inspected by the driver. *)
Record QuadratureRule : Type := { rule_id : nat }.

Global Instance QuadratureRule_eq_dec : EqDecision QuadratureRule.
Proof. solve_decision. Defined.

(** Values held by a parameters dictionary. *)
Inductive PyVal : Type :=
| PyNone
| PyInt (z : Z)
| PyStr (s : string)
| PyTuple (zs : list Z)
| PyRule (r : QuadratureRule).

Global Instance PyVal_eq_dec : EqDecision PyVal.
Proof. solve_decision. Defined.

Abbreviation Params := (gmap string PyVal).

(** [isinstance(v, AbstractQuadratureRule)] *)
Definition is_quadrature_rule (v : PyVal) : bool :=
  match v with
  | PyRule _ => true
  | _ => false
  end.

(** [type(v)] as [%s] prints it *)
Definition type_repr (v : PyVal) : string :=
  match v with
  | PyNone => "<class 'NoneType'>"
  | PyInt _ => "<class 'int'>"
  | PyStr _ => "<class 'str'>"
  | PyTuple _ => "<class 'tuple'>"
  | PyRule _ => "<class 'finat.quadrature.QuadratureRule'>"
  end.

Inductive SubdomainId : Type :=
| SubInt (z : Z)
| SubStr (s : string).

Global Instance SubdomainId_eq_dec : EqDecision SubdomainId.
Proof. solve_decision. Defined.

Record Integral : Type := { integrand : UflExpr; metadata : Params }.

Definition reconstruct (i : Integral) (e : UflExpr) : Integral :=
  {| integrand := e; metadata := metadata i |}.

(** [ufl.IntegralData] *)
Record IntegralData : Type :=
  { domain : Mesh;
    integral_type : string;
    subdomain_id : SubdomainId;
    integrals : list Integral;
    integral_coefficients : list Coefficient;
    enabled_subspaces : list bool }.

(** The original form: [coefficients()] and [domain_numbering()]. *)
Record Form : Type :=
  { coefficients : list Coefficient;
    domain_numbering : list (Mesh * nat) }.

(** [ufl.FormData]; [arguments] stands for
    [preprocessed_form.arguments()]. *)
Record FormData : Type :=
  { arguments : list Argument;
    original_form : Form;
    reduced_coefficients : list Coefficient;
    original_coefficient_positions : list nat;
    function_replace_map : list (Coefficient * Coefficient);
    reduced_subspaces : list Subspace;
    original_subspace_positions : list nat;
    subspace_replace_map : list (Subspace * Subspace);
    integral_data : list IntegralData }.

(** *** numpy on degrees *)

(** [asarray(v)] of a value that is compared with a number *)
Definition asarray (v : PyVal) : result Degree :=
  match v with
  | PyInt z => Ok (DegInt z)
  | PyTuple zs => Ok (DegTuple zs)
  | _ => Raise TypeError
  end.

(** Broadcasting of two one-dimensional arrays. *)
Definition broadcast (xs ys : list Z) : result (list (Z * Z)) :=
  if (length xs =? length ys)%nat then Ok (zip xs ys)
  else match xs, ys with
       | [x], _ => Ok (map (pair x) ys)
       | _, [y] => Ok (map (λ x, (x, y)) xs)
       | _, _ => Raise (ValueError "operands could not be broadcast together")
       end.

Definition broadcast_degrees (x y : Degree) : result (list (Z * Z) + Z * Z) :=
  match x, y with
  | DegInt a, DegInt b => Ok (inr (a, b))
  | DegInt a, DegTuple bs => Ok (inl (map (pair a) bs))
  | DegTuple xs, DegInt b => Ok (inl (map (λ a, (a, b)) xs))
  | DegTuple xs, DegTuple bs => ps ← broadcast xs bs; Ok (inl ps)
  end.

(** numpy's default integer type is int64: a Python integer becomes an
    int64 when it fits, and a product of int64 values wraps around. *)
Definition int64_fits (z : Z) : bool :=
  Z.leb (- 2 ^ 63) z && Z.ltb z (2 ^ 63).

Definition wrap_int64 (z : Z) : Z :=
  (z + 2 ^ 63) mod 2 ^ 64 - 2 ^ 63.

(** An integer, or a tuple of integers, that [asarray] makes an int64
    array of. *)
Definition fits_int64 (x : Degree) : bool :=
  match x with
  | DegInt z => int64_fits z
  | DegTuple zs => forallb int64_fits zs
  end.

(** [numpy.maximum(x, y)] *)
Definition np_maximum (x y : Degree) : result Degree :=
  ps ← broadcast_degrees x y;
  match ps with
  | inl l => Ok (DegTuple (map (λ ab, Z.max (fst ab) (snd ab)) l))
  | inr ab => Ok (DegInt (Z.max (fst ab) (snd ab)))
  end.

Fixpoint reduce {A} (f : A -> A -> result A) (acc : A) (xs : list A) : result A :=
  match xs with
  | [] => Ok acc
  | x :: xs' => acc' ← f acc x; reduce f acc' xs'
  end.

(** [ufl.utils.sequences.max_degree] *)
Definition max_degree (degrees : list Degree) : result Degree :=
  match degrees with
  | [] => Raise TypeError
  | d :: ds => reduce np_maximum d ds
  end.

(** [all(f(x) for x in xs)]: stops at the first false value. *)
Fixpoint py_all {A} (f : A -> result bool) (xs : list A) : result bool :=
  match xs with
  | [] => Ok true
  | x :: xs' => b ← f x; if b : bool then py_all f xs' else Ok false
  end.

(** ** Python built-ins *)

(** [tuple(set(xs))]: a set enumerates its distinct elements once each,
    in an order fixed by the hash table and not by the program. *)
Record SetIteration (A : Type) `{EqDecision A} : Type :=
  { iterate : list A -> list A;
    iterate_distinct : ∀ xs, iterate xs ≡ₚ remove_dups xs }.
Arguments iterate {A _} _ _.
Arguments iterate_distinct {A _} _ _.

(** [sorted(xs, key=key)]: stable. *)
Fixpoint insert_sorted {A} (key : A -> nat) (x : A) (l : list A) : list A :=
  match l with
  | [] => [x]
  | y :: l' =>
      if (key x <=? key y)%nat then x :: y :: l'
      else y :: insert_sorted key x l'
  end.

Fixpoint sorted {A} (key : A -> nat) (l : list A) : list A :=
  match l with
  | [] => []
  | x :: l' => insert_sorted key x (sorted key l')
  end.

(** [xs.index(x)] *)
Fixpoint index {A} `{EqDecision A} (x : A) (xs : list A) : option nat :=
  match xs with
  | [] => None
  | y :: xs' => if decide (x = y) then Some O else S <$> index x xs'
  end.

(** [x in d] and [d[k]] raise nothing and [KeyError] respectively. *)
Definition has_key {K V} `{EqDecision K} (k : K) (d : list (K * V)) : bool :=
  bool_decide (is_Some (assoc k d)).

(** [d.setdefault(k, []).append(v)] on a dictionary in insertion order *)
Fixpoint setdefault_append {K V} `{EqDecision K}
    (k : K) (v : V) (d : list (K * list V)) : list (K * list V) :=
  match d with
  | [] => [(k, [v])]
  | (k', vs) :: d' =>
      if decide (k = k') then (k', vs ++ [v]) :: d'
      else (k', vs) :: setdefault_append k v d'
  end.

(** [enumerate(xs)] *)
Definition enumerate {A} (xs : list A) : list (nat * A) :=
  zip (seq 0 (length xs)) xs.

(** ** Collaborators outside the inspected sources

    [tsfc.finatinterface], [tsfc.parameters], [tsfc.ufl_utils], FIAT and
    FInAT are taken as given, as is the iteration order of a set of
    coefficients. *)
Class Collaborators : Type :=
  { as_fiat_cell : UflCell -> FiatCell;
    construct_subelement : FiatCell -> Dim -> FiatCell;
    make_quadrature : FiatCell -> PyVal -> result QuadratureRule;
    (** [create_element(e).index_shape] *)
    index_shape : FiniteElement -> list nat;
    default_parameters : Params;
    is_complex : option PyVal -> bool;
    compute_form_data : Form -> bool -> FormData;
    coefficient_set : SetIteration Coefficient;
    (** [(x > 10 * y).all()] of numpy when an integer of [x] or [y] does
        not fit int64, so that the array has another dtype *)
    wide_exceeds_tenfold : Degree -> Degree -> result bool }.

(** ** The aggregated form data, driver.py lines 40-169 *)

Record TSFCIntegralData : Type :=
  { tid_domain : Mesh;
    tid_integral_type : string;
    tid_subdomain_id : SubdomainId;
    tid_domain_number : nat;
    tid_integrals : list Integral;
    tid_integral_coefficients : list Coefficient;
    tid_coefficients : list Coefficient;
    tid_coefficient_numbers : list nat;
    tid_original_subspaces : list Subspace;
    tid_subspaces : list Subspace;
    tid_subspace_numbers : list nat }.

Record TSFCFormData : Type :=
  { tfd_original_form : Form;
    tfd_arguments : list Argument;
    tfd_reduced_coefficients : list Coefficient;
    tfd_original_coefficient_positions : list nat;
    tfd_function_replace_map : list (Coefficient * Coefficient);
    tfd_reduced_subspaces : list Subspace;
    tfd_original_subspace_positions : list nat;
    tfd_subspace_replace_map : list (Subspace * Subspace);
    tfd_integral_data : list TSFCIntegralData }.

Definition terminal_map {A} (inj : A -> UflExpr) (m : list (A * A))
  : list (UflExpr * UflExpr) :=
  map (λ kv, (inj (fst kv), inj (snd kv))) m.

(** [tuple(x for x, enabled in zip(xs, flags) if enabled)] *)
Definition enabled {A} (xs : list A) (flags : list bool) : list A :=
  map fst (filter (λ xe, snd xe = true) (zip xs flags)).

(** [TSFCIntegralData.__init__], driver.py lines 140-169; the message
    of the [ValueError] of [list.index] stands for the one Python prints
    with the [repr] of the missing coefficient. *)
Definition TSFCIntegralData__init__
    (integral_data_tuple : list IntegralData) (form_data : FormData)
    (tsfc_form_data : TSFCFormData) : result TSFCIntegralData :=
  integral_data ← from_option IndexError (head integral_data_tuple);
  domain_number ←
    from_option KeyError
      (assoc (domain integral_data)
             (domain_numbering (tfd_original_form tsfc_form_data)));
  let integrals' :=
    map (λ integral,
           let e := integrand integral in
           let e := ufl_replace e
                      (terminal_map UCoefficient
                         (tfd_function_replace_map tsfc_form_data)) in
           let e := ufl_replace e
                      (terminal_map USubspace (subspace_replace_map form_data)) in
           reconstruct integral e)
        (integrals integral_data) in
  let functions := integral_coefficients integral_data in
  coefficients' ←
    mapM (λ f, from_option KeyError
                 (assoc f (tfd_function_replace_map tsfc_form_data)))
         functions;
  coefficient_numbers ←
    mapM (λ f,
            i ← from_option (ValueError "x not in list")
                  (index f (tfd_reduced_coefficients tsfc_form_data));
            from_option IndexError
              (tfd_original_coefficient_positions tsfc_form_data !! i))
         functions;
  let subspaces :=
    enabled (reduced_subspaces form_data) (enabled_subspaces integral_data) in
  subspaces' ←
    mapM (λ c, from_option KeyError (assoc c (subspace_replace_map form_data)))
         subspaces;
  Ok {| tid_domain := domain integral_data;
        tid_integral_type := integral_type integral_data;
        tid_subdomain_id := subdomain_id integral_data;
        tid_domain_number := domain_number;
        tid_integrals := integrals';
        tid_integral_coefficients := functions;
        tid_coefficients := coefficients';
        tid_coefficient_numbers := coefficient_numbers;
        tid_original_subspaces := subspaces;
        tid_subspaces := subspaces';
        tid_subspace_numbers :=
          enabled (original_subspace_positions form_data)
                  (enabled_subspaces integral_data) |}.

Definition IntegralKey : Type := (Mesh * string * SubdomainId)%type.

Definition integral_key (intg_data : IntegralData) : IntegralKey :=
  (domain intg_data, integral_type intg_data, subdomain_id intg_data).

(** The error of driver.py line 83. *)
Definition InconsistentArgumentsError : exn :=
  ValueError "All `FormData`s must share the same set of arguments.".

Section Aggregation.
Context `{Collaborators}.

(** driver.py lines 84-85 *)
Definition reduce_coefficients (form_data_tuple : list FormData) : list Coefficient :=
  let reduced_coefficients_set :=
    iterate coefficient_set (concat (map reduced_coefficients form_data_tuple)) in
  sorted count reduced_coefficients_set.

(** driver.py lines 91-98: the first form data that renumbers [func]
    decides its function space. *)
Fixpoint first_replacement (func : Coefficient) (form_data_tuple : list FormData)
  : option Coefficient :=
  match form_data_tuple with
  | [] => None
  | fd :: fds =>
      match assoc func (function_replace_map fd) with
      | Some coeff => Some coeff
      | None => first_replacement func fds
      end
  end.

Definition build_function_replace_map
    (reduced : list Coefficient) (form_data_tuple : list FormData)
  : list (Coefficient * Coefficient) :=
  omap (λ ifunc,
          coeff ← first_replacement (snd ifunc) form_data_tuple;
          Some (snd ifunc,
                {| count := fst ifunc;
                   coefficient_function_space := ufl_function_space coeff |}))
       (enumerate reduced).

(** driver.py lines 109-118; both dictionaries receive the same keys in
    the same order. *)
Definition group_integral_data (form_data_tuple : list FormData)
  : list (IntegralKey * list IntegralData) * list (IntegralKey * list FormData) :=
  fold_left
    (λ dicts fi,
       let key := integral_key (snd fi) in
       (setdefault_append key (snd fi) (fst dicts),
        setdefault_append key (fst fi) (snd dicts)))
    (concat (map (λ fd, map (pair fd) (integral_data fd)) form_data_tuple))
    ([], []).

(** [TSFCFormData.__init__], driver.py lines 77-125 *)
Definition TSFCFormData__init__
    (form_data_tuple : list FormData) (original_form : Form) (diagonal : bool)
  : result TSFCFormData :=
  arguments' ←
    match remove_dups (map arguments form_data_tuple) with
    | [a] => Ok a
    | _ => Raise InconsistentArgumentsError
    end;
  let reduced := reduce_coefficients form_data_tuple in
  let function_replace_map' := build_function_replace_map reduced form_data_tuple in
  let positions :=
    map fst (filter (λ i_f, snd i_f ∈ reduced)
                    (enumerate (coefficients original_form))) in
  fd0 ← from_option IndexError (head form_data_tuple);
  let self :=
    {| tfd_original_form := original_form;
       tfd_arguments := arguments';
       tfd_reduced_coefficients := reduced;
       tfd_original_coefficient_positions := positions;
       tfd_function_replace_map := function_replace_map';
       tfd_reduced_subspaces := reduced_subspaces fd0;
       tfd_original_subspace_positions := original_subspace_positions fd0;
       tfd_subspace_replace_map := subspace_replace_map fd0;
       tfd_integral_data := [] |} in
  let '(intg_data_dict, form_data_dict) := group_integral_data form_data_tuple in
  integral_data_list ←
    mapM (λ entry,
            let key := fst entry in
            let intg_data_list := snd entry in
            form_data_list ← from_option KeyError (assoc key form_data_dict);
            form_data ← from_option IndexError (head form_data_list);
            TSFCIntegralData__init__ intg_data_list form_data self)
         intg_data_dict;
  Ok {| tfd_original_form := original_form;
        tfd_arguments := arguments';
        tfd_reduced_coefficients := reduced;
        tfd_original_coefficient_positions := positions;
        tfd_function_replace_map := function_replace_map';
        tfd_reduced_subspaces := reduced_subspaces fd0;
        tfd_original_subspace_positions := original_subspace_positions fd0;
        tfd_subspace_replace_map := subspace_replace_map fd0;
        tfd_integral_data := integral_data_list |}.

End Aggregation.

(** ** The runtime: index allocation and the log

    Every [gem.Index(...)] is a new object; the logger keeps what was
    written also when an exception follows. *)

Record Warning : Type :=
  { warning_degree : PyVal; warning_max_degree : Degree }.

Record Runtime : Type :=
  { next_index : nat; warnings : list Warning }.

Definition M (A : Type) : Type := Runtime -> result A * Runtime.

Global Instance M_ret : MRet M := λ A a rt, (Ok a, rt).
Global Instance M_bind : MBind M :=
  λ A B k m rt,
    match m rt with
    | (Ok a, rt') => k a rt'
    | (Raise e, rt') => (Raise e, rt')
    end.

Definition raise {A} (e : exn) : M A := λ rt, (Raise e, rt).

Definition lift {A} (r : result A) : M A := λ rt, (r, rt).

(** [logger.warning(...)] of driver.py lines 337-340 *)
Definition logger_warning (w : Warning) : M unit :=
  λ rt, (Ok tt, {| next_index := next_index rt; warnings := warnings rt ++ [w] |}).

(** [gem.Index(extent=e)] *)
Definition new_Index (e : nat) : M Gem.Index :=
  λ rt, (Ok {| Gem.idx_id := next_index rt; Gem.extent := e |},
         {| next_index := S (next_index rt); warnings := warnings rt |}).

Fixpoint forM {A B} (f : A -> M B) (xs : list A) : M (list B) :=
  match xs with
  | [] => mret []
  | x :: xs' => y ← f x; ys ← forM f xs'; mret (y :: ys)
  end.

(** [str(x)] of a subdomain id and of an [int] *)
Definition str_of_Z (z : Z) : string := NilZero.string_of_int (Z.to_int z).

Definition str_of_subdomain_id (s : SubdomainId) : string :=
  match s with
  | SubInt z => str_of_Z z
  | SubStr s => s
  end.

(** [s.replace(old, new)] for one-character [old] and [new] *)
Fixpoint replace (old new : ascii) (s : string) : string :=
  match s with
  | EmptyString => EmptyString
  | String c s' => String (if Ascii.eqb c old then new else c) (replace old new s')
  end.

(** driver.py lines 238-239 *)
Definition kernel_name (prefix integral_type : string) (subdomain_id : SubdomainId)
  : string :=
  let kernel_name :=
    prefix +:+ "_" +:+ integral_type +:+ "_integral_"
           +:+ str_of_subdomain_id subdomain_id in
  replace "-" "_" kernel_name.

(** ** Quadrature resolution *)

(** The error of driver.py lines 353-354. *)
Definition InvalidQuadratureRuleError (quad_rule : PyVal) : exn :=
  ValueError ("Expected to find a QuadratureRule object, not a "
              +:+ type_repr quad_rule).

(** The error of driver.py line 555. *)
Definition UnsupportedIntegralTypeError (integral_type : string) : exn :=
  NotImplementedError ("integral type " +:+ integral_type +:+ " not supported").

Section Driver.
Context `{Collaborators}.

(** [(x > 10 * y).all()], driver.py line 335, on the arrays of [x] and
    [y]: on int64 arrays the product wraps around and the comparison is
    made element by element after broadcasting. *)
Definition exceeds_tenfold (x y : Degree) : result bool :=
  if fits_int64 x && fits_int64 y then
    ps ← broadcast_degrees x y;
    match ps with
    | inl l => Ok (forallb (λ ab, Z.ltb (wrap_int64 (10 * snd ab)) (fst ab)) l)
    | inr ab => Ok (Z.ltb (wrap_int64 (10 * snd ab)) (fst ab))
    end
  else wide_exceeds_tenfold x y.

(** driver.py lines 335-336 *)
Definition tenfold_greater (quadrature_degree : PyVal) (function_degrees : list Degree)
  : result bool :=
  py_all (λ d, q ← asarray quadrature_degree; exceeds_tenfold q d) function_degrees.

Definition degrees_of (functions : list FormArgument) : list Degree :=
  map (λ f, degree (ufl_element (ufl_function_space f))) functions.

(** driver.py lines 330-340 *)
Definition resolve_quadrature_degree (params : Params) (functions : list FormArgument)
  : M PyVal :=
  match params !! "quadrature_degree" with
  | Some quadrature_degree => mret quadrature_degree
  | None =>
      quadrature_degree ←
        lift (from_option KeyError (params !! "estimated_polynomial_degree"));
      let function_degrees := degrees_of functions in
      tenfold ← lift (tenfold_greater quadrature_degree function_degrees);
      if tenfold : bool then
        m ← lift (max_degree function_degrees);
        _ ← logger_warning {| warning_degree := quadrature_degree;
                              warning_max_degree := m |};
        mret quadrature_degree
      else mret quadrature_degree
  end.

(** driver.py lines 341-354; the dictionary [params] is updated in
    place and is returned here. *)
Definition resolve_quadrature_rule (params : Params) (cell : UflCell)
    (integral_type : string) (quadrature_degree : PyVal) : result Params :=
  let params :=
    if decide (params !! "quadrature_rule" = Some (PyStr "default"))
    then delete "quadrature_rule" params else params in
  '(quad_rule, params) ←
    match params !! "quadrature_rule" with
    | Some quad_rule => Ok (quad_rule, params)
    | None =>
        let fiat_cell := as_fiat_cell cell in
        '(integration_dim, _) ← lower_integral_type fiat_cell integral_type;
        let integration_cell := construct_subelement fiat_cell integration_dim in
        quad_rule ← make_quadrature integration_cell quadrature_degree;
        Ok (PyRule quad_rule, <["quadrature_rule" := PyRule quad_rule]> params)
    end;
  if is_quadrature_rule quad_rule then Ok params
  else Raise (InvalidQuadratureRuleError quad_rule).

(** [set_quad_rule], driver.py lines 327-354 *)
Definition set_quad_rule (params : Params) (cell : UflCell) (integral_type : string)
    (functions : list FormArgument) : M Params :=
  quadrature_degree ← resolve_quadrature_degree params functions;
  lift (resolve_quadrature_rule params cell integral_type quadrature_degree).

(** ** Kernel configuration *)

Inductive CacheKey : Type :=
| ElementKey (e : FiniteElement)
| IndexKey (i : Gem.Index).

Record FemConfig : Type :=
  { fc_ufl_cell : UflCell;
    fc_integral_type : string;
    integration_dim : Dim;
    entity_ids : list nat;
    argument_multiindices : list (list Gem.Index);
    argument_multiindices_dummy : list (list Gem.Index);
    index_cache : list (CacheKey * list (list Gem.Index));
    fc_scalar_type : PyVal }.

Record KernelConfig : Type :=
  { name : string;
    kc_integral_type : string;
    kc_subdomain_id : SubdomainId;
    kc_domain_number : nat;
    kc_coefficient_numbers : list nat;
    kc_subspace_numbers : list nat;
    subspace_parts : list (option Gem.expr);
    fem_config : FemConfig;
    quadrature_indices : list Gem.Index;
    kc_arguments : list Argument;
    mode_irs : list (string * list Gem.expr) }.

(** [create_element(e).get_indices()]: one new index per axis. *)
Definition get_indices (e : FiniteElement) : M (list Gem.Index) :=
  forM new_Index (index_shape e).

(** [create_fem_config], driver.py lines 303-324; the [interface] entry
    is the builder, which is passed along explicitly here. *)
Definition create_fem_config (mesh : Mesh) (integral_type : string)
    (argument_multiindices argument_multiindices_dummy : list (list Gem.Index))
    (scalar_type : PyVal) : M FemConfig :=
  let cell := ufl_cell mesh in
  let fiat_cell := as_fiat_cell cell in
  '(integration_dim, entity_ids) ← lift (lower_integral_type fiat_cell integral_type);
  mret {| fc_ufl_cell := cell;
          fc_integral_type := integral_type;
          integration_dim := integration_dim;
          entity_ids := entity_ids;
          argument_multiindices := argument_multiindices;
          argument_multiindices_dummy := argument_multiindices_dummy;
          index_cache := [];
          fc_scalar_type := scalar_type |}.

(** [create_kernel_config], driver.py lines 272-300 *)
Definition create_kernel_config (kernel_name : string) (form_data : TSFCFormData)
    (integral_data : TSFCIntegralData) (parameters : Params) (diagonal : bool)
  : M KernelConfig :=
  let arguments := tfd_arguments form_data in
  argument_multiindices ←
    forM (λ arg, get_indices (ufl_element (ufl_function_space arg))) arguments;
  argument_multiindices_dummy ←
    forM (λ arg, forM (λ a, new_Index (Gem.extent a)) arg) argument_multiindices;
  argument_multiindices ←
    (if diagonal then
       match argument_multiindices with
       | [a; _] => mret [a; a]
       | _ => raise (unpack_error 2 (length argument_multiindices))
       end
     else mret argument_multiindices);
  scalar_type ← lift (from_option KeyError (parameters !! "scalar_type"));
  fem_config ← create_fem_config (tid_domain integral_data)
                  (tid_integral_type integral_data)
                  argument_multiindices argument_multiindices_dummy scalar_type;
  mret {| name := kernel_name;
          kc_integral_type := tid_integral_type integral_data;
          kc_subdomain_id := tid_subdomain_id integral_data;
          kc_domain_number := tid_domain_number integral_data;
          kc_coefficient_numbers := tid_coefficient_numbers integral_data;
          kc_subspace_numbers := tid_subspace_numbers integral_data;
          subspace_parts := map (λ _, None) (tid_subspace_numbers integral_data);
          fem_config := fem_config;
          quadrature_indices := [];
          kc_arguments := arguments;
          mode_irs := [] |}.

(** [replace_argument_multiindices_dummy], driver.py lines 567-585 *)
Definition replace_argument_multiindices_dummy
    (expressions : list Gem.expr) (kernel_config : KernelConfig) : list Gem.expr :=
  let argument_multiindices :=
    argument_multiindices (fem_config kernel_config) in
  let argument_multiindices_dummy :=
    argument_multiindices_dummy (fem_config kernel_config) in
  if decide (argument_multiindices_dummy = argument_multiindices) then expressions
  else
    let substitution :=
      zip (concat argument_multiindices_dummy) (concat argument_multiindices) in
    map (λ expr, Gem.filtered_replace_indices expr substitution) expressions.

End Driver.

(** ** The kernel-builder protocol and the compilation entry points *)

Section Compile.
Context `{Collaborators}.
Context {Builder Kernel Representation : Type}.

(** A backend: the constructor of its builder and the methods the driver
    calls.  A method may update the builder and the kernel
    configuration it is handed; both are returned. *)
Record KernelInterface : Type :=
  { interface_init :
      option (list (Coefficient * Coefficient)) ->
      string -> PyVal -> bool -> TSFCIntegralData -> M Builder;
    set_arguments : Builder -> KernelConfig -> M (Builder * KernelConfig);
    coordinate : Builder -> Mesh -> M Coefficient;
    compile_ufl :
      Builder -> UflExpr -> Params -> KernelConfig ->
      M (list Gem.expr * Builder * KernelConfig);
    construct_integrals :
      Builder -> list Gem.expr -> Params -> KernelConfig ->
      M (Representation * Builder * KernelConfig);
    stash_integrals :
      Builder -> Representation -> Params -> KernelConfig ->
      M (Builder * KernelConfig);
    construct_kernel : Builder -> KernelConfig -> M (option Kernel) }.

(** [partial(interface, function_replace_map=m)] *)
Definition partial_function_replace_map (interface : KernelInterface)
    (m : list (Coefficient * Coefficient)) : KernelInterface :=
  {| interface_init := λ _, interface_init interface (Some m);
     set_arguments := set_arguments interface;
     coordinate := coordinate interface;
     compile_ufl := compile_ufl interface;
     construct_integrals := construct_integrals interface;
     stash_integrals := stash_integrals interface;
     construct_kernel := construct_kernel interface |}.

(** [tsfc.kernel_interface.firedrake] and
    [tsfc.kernel_interface.firedrake_loopy] *)
Variable firedrake_interface_coffee firedrake_interface_loopy : KernelInterface.

(** One turn of the loop of driver.py lines 246-253. *)
Definition compile_one_integral (interface : KernelInterface)
    (integral_data : TSFCIntegralData) (parameters : Params)
    (functions : list FormArgument)
    (state : Builder * KernelConfig) (integral : Integral)
  : M (Builder * KernelConfig) :=
  let '(builder, kernel_config) := state in
  let params := metadata integral ∪ parameters in
  params ← set_quad_rule params (ufl_cell (tid_domain integral_data))
             (tid_integral_type integral_data) functions;
  '(expressions, builder, kernel_config) ←
    compile_ufl interface builder (integrand integral) params kernel_config;
  let expressions := replace_argument_multiindices_dummy expressions kernel_config in
  '(reps, builder, kernel_config) ←
    construct_integrals interface builder expressions params kernel_config;
  stash_integrals interface builder reps params kernel_config.

Fixpoint foldM {A S} (f : S -> A -> M S) (s : S) (xs : list A) : M S :=
  match xs with
  | [] => mret s
  | x :: xs' => s' ← f s x; foldM f s' xs'
  end.

(** [compile_integral], driver.py lines 210-254 *)
Definition compile_integral (integral_data : TSFCIntegralData)
    (form_data : TSFCFormData) (prefix : string) (parameters : Params)
    (interface : option KernelInterface) (coffee diagonal : bool)
  : M (option Kernel) :=
  let interface :=
    match interface with
    | Some i => i
    | None => if coffee then firedrake_interface_coffee
              else firedrake_interface_loopy
    end in
  scalar_type ←
    lift (from_option KeyError
            (parameters !! (if coffee then "scalar_type_c" else "scalar_type")));
  builder ← interface_init interface None (tid_integral_type integral_data)
              scalar_type diagonal integral_data;
  let kernel_name :=
    kernel_name prefix (tid_integral_type integral_data)
                (tid_subdomain_id integral_data) in
  kernel_config ←
    create_kernel_config kernel_name form_data integral_data parameters diagonal;
  '(builder, kernel_config) ← set_arguments interface builder kernel_config;
  x ← coordinate interface builder (tid_domain integral_data);
  let functions :=
    map FArgument (kc_arguments kernel_config) ++ [FCoefficient x]
        ++ map FCoefficient (tid_integral_coefficients integral_data) in
  '(builder, kernel_config) ←
    foldM (compile_one_integral interface integral_data parameters functions)
          (builder, kernel_config) (tid_integrals integral_data);
  construct_kernel interface builder kernel_config.

(** [x in ["auto", "default", None, -1, "-1"]] *)
Definition derive_degree_sentinel (v : option PyVal) : bool :=
  match v with
  | None => true
  | Some PyNone => true
  | Some (PyStr s) => str_in s ["auto"; "default"; "-1"]
  | Some (PyInt z) => Z.eqb z (-1)
  | Some _ => false
  end.

(** [x in ["auto", "default", None]] *)
Definition derive_rule_sentinel (v : option PyVal) : bool :=
  match v with
  | None => true
  | Some PyNone => true
  | Some (PyStr s) => str_in s ["auto"; "default"]
  | Some _ => false
  end.

(** [del d[k]] *)
Definition del (k : string) (d : Params) : result Params :=
  match d !! k with
  | Some _ => Ok (delete k d)
  | None => Raise KeyError
  end.

(** [preprocess_parameters], driver.py lines 257-269 *)
Definition preprocess_parameters (parameters : option Params) : result Params :=
  let parameters :=
    match parameters with
    | None => default_parameters
    | Some p => p ∪ default_parameters
    end in
  parameters ←
    (if derive_degree_sentinel (parameters !! "quadrature_degree")
     then del "quadrature_degree" parameters else Ok parameters);
  if derive_rule_sentinel (parameters !! "quadrature_rule")
  then del "quadrature_rule" parameters else Ok parameters.

(** The loop of driver.py lines 198-204: a kernel that is [None] is
    skipped. *)
Fixpoint compile_all (tsfc_form_data : TSFCFormData) (prefix : string)
    (parameters : Params) (interface : option KernelInterface)
    (coffee diagonal : bool) (integral_data_list : list TSFCIntegralData)
  : M (list Kernel) :=
  match integral_data_list with
  | [] => mret []
  | integral_data :: rest =>
      kernel ← compile_integral integral_data tsfc_form_data prefix parameters
                 interface coffee diagonal;
      kernels ← compile_all tsfc_form_data prefix parameters interface
                  coffee diagonal rest;
      mret (match kernel with
            | Some k => k :: kernels
            | None => kernels
            end)
  end.

(** [compile_form], driver.py lines 172-207; the timing messages are
    left out. *)
Definition compile_form (form : Form) (prefix : string)
    (parameters : option Params) (interface : option KernelInterface)
    (coffee diagonal : bool) : M (list Kernel) :=
  parameters ← lift (preprocess_parameters parameters);
  let complex_mode :=
    if decide (parameters = ∅) then false
    else is_complex (parameters !! "scalar_type") in
  let form_data := compute_form_data form complex_mode in
  let interface :=
    (λ i, partial_function_replace_map i (function_replace_map form_data))
      <$> interface in
  tsfc_form_data ←
    lift (TSFCFormData__init__ [form_data] (original_form form_data) diagonal);
  compile_all tsfc_form_data prefix parameters interface coffee diagonal
              (tfd_integral_data tsfc_form_data).

End Compile.

(** A backend keeps the name of a kernel configuration when none of the
    methods the driver calls between [create_kernel_config] and
    [construct_kernel] changes the "name" entry. *)
Definition keeps_name {Builder Kernel Representation : Type}
    (interface : @KernelInterface Builder Kernel Representation) : Prop :=
  (∀ b cfg rt b' cfg' rt',
     set_arguments interface b cfg rt = (Ok (b', cfg'), rt') ->
     name cfg' = name cfg)
  ∧ (∀ b e p cfg rt es b' cfg' rt',
       compile_ufl interface b e p cfg rt = (Ok (es, b', cfg'), rt') ->
       name cfg' = name cfg)
  ∧ (∀ b es p cfg rt reps b' cfg' rt',
       construct_integrals interface b es p cfg rt = (Ok (reps, b', cfg'), rt') ->
       name cfg' = name cfg)
  ∧ (∀ b reps p cfg rt b' cfg' rt',
       stash_integrals interface b reps p cfg rt = (Ok (b', cfg'), rt') ->
       name cfg' = name cfg).

(** ** [KernelBuilderBase], kernel_interface/common.py *)

(** What a backend registers for a coefficient: a GEM expression, or a
    tuple of them. *)
Inductive KernelArg : Type :=
| ArgExpr (e : Gem.expr)
| ArgTuple (es : list Gem.expr).

Record KernelBuilderBase : Type :=
  { scalar_type : PyVal;
    interior_facet : bool;
    domain_coordinate : list (Mesh * Coefficient);
    coefficient_map : list (Coefficient * KernelArg) }.

(** [x[i]]: an element of a tuple, or [gem.Node.__getitem__]. *)
Definition getitem (x : KernelArg) (i : nat) : result KernelArg :=
  match x with
  | ArgTuple es => ArgExpr <$> from_option IndexError (es !! i)
  | ArgExpr e => Ok (ArgExpr (Gem.Indexed e [Gem.MFixed i]))
  end.

(** [{'+': 0, '-': 1}[restriction]] *)
Definition restriction_component (restriction : option string) : result nat :=
  match restriction with
  | Some "+" => Ok 0%nat
  | Some "-" => Ok 1%nat
  | _ => Raise KeyError
  end.

(** [KernelBuilderBase.coordinate], common.py lines 39-40 *)
Definition base_coordinate (self : KernelBuilderBase) (domain : Mesh)
  : result Coefficient :=
  from_option KeyError (assoc domain (domain_coordinate self)).

(** [KernelBuilderBase.coefficient], common.py lines 42-51 *)
Definition coefficient (self : KernelBuilderBase) (ufl_coefficient : Coefficient)
    (restriction : option string) : result KernelArg :=
  kernel_arg ← from_option KeyError (assoc ufl_coefficient (coefficient_map self));
  if String.eqb (family (ufl_element (ufl_function_space ufl_coefficient))) "Real"
  then Ok kernel_arg
  else if negb (interior_facet self) then Ok kernel_arg
  else
    i ← restriction_component restriction;
    getitem kernel_arg i.

(** ** Reference data for the examples *)

Definition triangle : FiatCell :=
  Cell 2 [(DimInt 0, [[0]; [1]; [2]]%nat);
          (DimInt 1, [[1; 2]; [0; 2]; [0; 1]]%nat);
          (DimInt 2, [[0; 1; 2]]%nat)].

(** interval x interval *)
Definition extruded_interval : FiatCell :=
  TensorProductCell [1; 1]
    [(DimTuple [0; 0], [[0]; [1]; [2]; [3]]%nat);
     (DimTuple [0; 1], [[0; 1]; [2; 3]]%nat);
     (DimTuple [1; 0], [[0; 2]; [1; 3]]%nat);
     (DimTuple [1; 1], [[0; 1; 2; 3]]%nat)].

(** The integral types of section 4.3. *)
Definition documented_integral_types : list string :=
  ["cell"; "exterior_facet"; "interior_facet"; "vertex"]
    ++ vert_facet_types ++ horiz_facet_types.

(** Declaration order of coefficients. *)
Definition count_le (a b : Coefficient) : Prop := (count a <= count b)%nat.

(** A set that enumerates its elements in the order of first
    insertion. *)
Definition first_seen : SetIteration Coefficient :=
  {| iterate := remove_dups;
     iterate_distinct := λ xs, reflexivity (remove_dups xs) |}.

Definition reference_index_shape (e : FiniteElement) : list nat :=
  if String.eqb (family e) "Real" then []
  else match degree e with
       | DegInt 1 => [3%nat]
       | DegInt 2 => [6%nat]
       | _ => [1%nat]
       end.

Definition reference_make_quadrature (c : FiatCell) (v : PyVal)
  : result QuadratureRule :=
  match v with
  | PyInt z => if Z.ltb z 0 then Raise (ValueError "negative degree")
               else Ok {| rule_id := Z.to_nat z |}
  | _ => Raise TypeError
  end.

(** One integral of the constant 1 over the cells of every domain. *)
Definition reference_compute_form_data (form : Form) (complex_mode : bool)
  : FormData :=
  {| arguments := [];
     original_form := form;
     reduced_coefficients := [];
     original_coefficient_positions := [];
     function_replace_map := [];
     reduced_subspaces := [];
     original_subspace_positions := [];
     subspace_replace_map := [];
     integral_data :=
       map (λ mn,
              {| domain := fst mn;
                 integral_type := "cell";
                 subdomain_id := SubInt (-1);
                 integrals :=
                   [{| integrand := UConstant 1;
                       metadata := {[ "estimated_polynomial_degree" := PyInt 2 ]} |}];
                 integral_coefficients := [];
                 enabled_subspaces := [] |})
           (domain_numbering form) |}.

(** Arrays of Python integers, compared without wrapping. *)
Definition reference_wide_exceeds_tenfold (x y : Degree) : result bool :=
  ps ← broadcast_degrees x y;
  match ps with
  | inl l => Ok (forallb (λ ab, Z.ltb (10 * snd ab) (fst ab)) l)
  | inr ab => Ok (Z.ltb (10 * snd ab) (fst ab))
  end.

Definition reference_collaborators : Collaborators :=
  {| as_fiat_cell :=
       λ c, if String.eqb (cellname c) "triangle" then triangle
            else extruded_interval;
     construct_subelement := λ c _, c;
     make_quadrature := reference_make_quadrature;
     index_shape := reference_index_shape;
     default_parameters :=
       {[ "quadrature_degree" := PyStr "auto";
          "quadrature_rule" := PyStr "auto";
          "scalar_type" := PyStr "double";
          "scalar_type_c" := PyStr "double" ]};
     is_complex := λ _, false;
     compute_form_data := reference_compute_form_data;
     coefficient_set := first_seen;
     wide_exceeds_tenfold := reference_wide_exceeds_tenfold |}.

Definition mesh0 : Mesh := {| mesh_id := 0; ufl_cell := {| cellname := "triangle" |} |}.

Definition P (k : Z) : FunctionSpace :=
  {| ufl_domain := mesh0;
     ufl_element := {| family := "Lagrange"; degree := DegInt k |} |}.

Definition coefficient_f : Coefficient :=
  {| count := 0; coefficient_function_space := P 1 |}.
Definition coefficient_g : Coefficient :=
  {| count := 1; coefficient_function_space := P 2 |}.
Definition test_function : Argument :=
  {| number := 0; argument_function_space := P 1 |}.
(** Arguments over spaces of degree 7 and of degree 2^62, for the
    tenfold comparison. *)
Definition argument_P7 : Argument :=
  {| number := 1; argument_function_space := P 7 |}.
Definition argument_wide : Argument :=
  {| number := 1; argument_function_space := P (2 ^ 62) |}.

Definition trial_function : Argument :=
  {| number := 1; argument_function_space := P 1 |}.
Definition trial_function_P2 : Argument :=
  {| number := 1; argument_function_space := P 2 |}.

Definition form_fg : Form :=
  {| coefficients := [coefficient_f; coefficient_g];
     domain_numbering := [(mesh0, 0%nat)] |}.

(** Two splits of the form [f*v*dx + g*v*ds]. *)
Definition split_dx : FormData :=
  {| arguments := [test_function];
     original_form := form_fg;
     reduced_coefficients := [coefficient_f];
     original_coefficient_positions := [0%nat];
     function_replace_map := [(coefficient_f, coefficient_f)];
     reduced_subspaces := [];
     original_subspace_positions := [];
     subspace_replace_map := [];
     integral_data :=
       [{| domain := mesh0;
           integral_type := "cell";
           subdomain_id := SubStr "otherwise";
           integrals :=
             [{| integrand := UProduct (UCoefficient coefficient_f)
                                       (UArgument test_function);
                 metadata := ∅ |}];
           integral_coefficients := [coefficient_f];
           enabled_subspaces := [] |}] |}.

Definition split_ds : FormData :=
  {| arguments := [test_function];
     original_form := form_fg;
     reduced_coefficients := [coefficient_g];
     original_coefficient_positions := [1%nat];
     function_replace_map := [(coefficient_g, coefficient_g)];
     reduced_subspaces := [];
     original_subspace_positions := [];
     subspace_replace_map := [];
     integral_data :=
       [{| domain := mesh0;
           integral_type := "exterior_facet";
           subdomain_id := SubStr "otherwise";
           integrals :=
             [{| integrand := UProduct (UCoefficient coefficient_g)
                                       (UArgument test_function);
                 metadata := ∅ |}];
           integral_coefficients := [coefficient_g];
           enabled_subspaces := [] |}] |}.

(** A split over another argument tuple. *)
Definition split_bilinear : FormData :=
  {| arguments := [test_function; trial_function];
     original_form := form_fg;
     reduced_coefficients := [];
     original_coefficient_positions := [];
     function_replace_map := [];
     reduced_subspaces := [];
     original_subspace_positions := [];
     subspace_replace_map := [];
     integral_data := [] |}.

(** An interior-facet builder that registered [f] as a pair and a
    'Real' coefficient as one expression. *)
Definition coefficient_r : Coefficient :=
  {| count := 2;
     coefficient_function_space :=
       {| ufl_domain := mesh0;
          ufl_element := {| family := "Real"; degree := DegInt 0 |} |} |}.

Definition interior_facet_builder : KernelBuilderBase :=
  {| scalar_type := PyStr "double";
     interior_facet := true;
     domain_coordinate := [];
     coefficient_map :=
       [(coefficient_f,
         ArgTuple [Gem.Variable_ "w_0_plus"; Gem.Variable_ "w_0_minus"]);
        (coefficient_r, ArgExpr (Gem.Variable_ "w_2"))] |}.

(** Parameter sets for quadrature resolution. *)
Definition params_override : Params :=
  {[ "quadrature_degree" := PyInt 3;
     "estimated_polynomial_degree" := PyInt 50 ]}.

Definition params_estimated : Params :=
  {[ "estimated_polynomial_degree" := PyInt 50 ]}.

Definition params_rule : Params :=
  {[ "quadrature_degree" := PyInt 3;
     "quadrature_rule" := PyRule {| rule_id := 7 |} ]}.

Definition params_bad_rule : Params :=
  {[ "quadrature_degree" := PyInt 3;
     "quadrature_rule" := PyStr "gauss" ]}.

Definition triangle_cell : UflCell := {| cellname := "triangle" |}.

Definition runtime0 : Runtime := {| next_index := 0; warnings := [] |}.

(** ** The indices a kernel configuration allocates *)

(** The indices made for the extents [es], the first with identity [n]. *)
Fixpoint indices_from (n : nat) (es : list nat) : list Gem.Index :=
  match es with
  | [] => []
  | e :: es' => {| Gem.idx_id := n; Gem.extent := e |} :: indices_from (S n) es'
  end.

Fixpoint multiindices_from (n : nat) (shapes : list (list nat))
  : list (list Gem.Index) :=
  match shapes with
  | [] => []
  | es :: shapes' =>
      indices_from n es :: multiindices_from (n + length es) shapes'
  end.

(** The shape of a set of multiindices: the extents, in order. *)
Definition shape_of (multiindices : list (list Gem.Index)) : list (list nat) :=
  map (map Gem.extent) multiindices.

Definition argument_shapes `{Collaborators} (arguments : list Argument)
  : list (list nat) :=
  map (λ arg, index_shape (ufl_element (ufl_function_space arg))) arguments.

(** ** The registration step of a backend *)

Definition UnsupportedArgumentShapeError : exn :=
  BackendError "UnsupportedArgumentShapeError".

(** Modelled from the spec: [set_arguments] of the backends
    ([tsfc/kernel_interface/firedrake.py] and [firedrake_loopy.py]) is
    not part of the inspected sources.  Sections 6 and 8: the step
    registers the argument tensors and fails with
    [UnsupportedArgumentShapeError] on an illegal diagonal request, that
    is when the diagonal of a rank-2 tensor is asked for and the test and
    trial spaces have unequal tensor extents. *)
Definition spec_set_arguments `{Collaborators} {Builder : Type}
    (diagonal : bool) (builder : Builder) (kernel_config : KernelConfig)
  : M (Builder * KernelConfig) :=
  if diagonal then
    match kc_arguments kernel_config with
    | [test; trial] =>
        if decide (index_shape (ufl_element (ufl_function_space test))
                   = index_shape (ufl_element (ufl_function_space trial)))
        then mret (builder, kernel_config)
        else raise UnsupportedArgumentShapeError
    | _ => raise UnsupportedArgumentShapeError
    end
  else mret (builder, kernel_config).

(** A small backend for the examples: the builder remembers the
    diagonal flag, an integrand becomes one indexed variable over the
    dummy argument indices, and the kernel is its name; no kernel is made
    when nothing was stashed. *)
Definition reference_interface
  : @KernelInterface bool string (list Gem.expr) :=
  {| interface_init := λ _ _ _ diagonal _, mret diagonal;
     set_arguments :=
       λ b cfg, spec_set_arguments (H := reference_collaborators) b b cfg;
     coordinate :=
       λ _ m, mret {| count := 0;
                      coefficient_function_space :=
                        {| ufl_domain := m;
                           ufl_element := {| family := "Lagrange";
                                             degree := DegInt 1 |} |} |};
     compile_ufl :=
       λ b e _ cfg,
         mret ([Gem.Indexed (Gem.Variable_ "integrand")
                  (Gem.MIndex
                     <$> concat (argument_multiindices_dummy (fem_config cfg)))],
               b, cfg);
     construct_integrals := λ b es _ cfg, mret (es, b, cfg);
     stash_integrals :=
       λ b reps _ cfg,
         mret (b, {| name := name cfg;
                     kc_integral_type := kc_integral_type cfg;
                     kc_subdomain_id := kc_subdomain_id cfg;
                     kc_domain_number := kc_domain_number cfg;
                     kc_coefficient_numbers := kc_coefficient_numbers cfg;
                     kc_subspace_numbers := kc_subspace_numbers cfg;
                     subspace_parts := subspace_parts cfg;
                     fem_config := fem_config cfg;
                     quadrature_indices := quadrature_indices cfg;
                     kc_arguments := kc_arguments cfg;
                     mode_irs := mode_irs cfg ++ [("spectral", reps)] |});
     construct_kernel :=
       λ _ cfg, mret (match mode_irs cfg with
                      | [] => None
                      | _ => Some (name cfg)
                      end) |}.

(** Aggregated data of a bilinear form over P1 x P2 with one cell
    integral and no coefficient. *)
Definition cell_integral_P1P2 : TSFCIntegralData :=
  {| tid_domain := mesh0;
     tid_integral_type := "cell";
     tid_subdomain_id := SubInt (-1);
     tid_domain_number := 0;
     tid_integrals :=
       [{| integrand := UProduct (UArgument test_function)
                                 (UArgument trial_function_P2);
           metadata := {[ "estimated_polynomial_degree" := PyInt 3 ]} |}];
     tid_integral_coefficients := [];
     tid_coefficients := [];
     tid_coefficient_numbers := [];
     tid_original_subspaces := [];
     tid_subspaces := [];
     tid_subspace_numbers := [] |}.

Definition form_data_P1P2 : TSFCFormData :=
  {| tfd_original_form := {| coefficients := []; domain_numbering := [(mesh0, 0%nat)] |};
     tfd_arguments := [test_function; trial_function_P2];
     tfd_reduced_coefficients := [];
     tfd_original_coefficient_positions := [];
     tfd_function_replace_map := [];
     tfd_reduced_subspaces := [];
     tfd_original_subspace_positions := [];
     tfd_subspace_replace_map := [];
     tfd_integral_data := [cell_integral_P1P2] |}.

Definition form_data_P1P1 : TSFCFormData :=
  {| tfd_original_form := {| coefficients := []; domain_numbering := [(mesh0, 0%nat)] |};
     tfd_arguments := [test_function; trial_function];
     tfd_reduced_coefficients := [];
     tfd_original_coefficient_positions := [];
     tfd_function_replace_map := [];
     tfd_reduced_subspaces := [];
     tfd_original_subspace_positions := [];
     tfd_subspace_replace_map := [];
     tfd_integral_data := [cell_integral_P1P2] |}.

Definition reference_parameters : Params :=
  {[ "scalar_type" := PyStr "double"; "scalar_type_c" := PyStr "double" ]}.

(** ** Identifiers *)

Definition is_digit (c : ascii) : bool :=
  let n := nat_of_ascii c in (48 <=? n)%nat && (n <=? 57)%nat.

Definition identifier_start (c : ascii) : bool :=
  let n := nat_of_ascii c in
  ((65 <=? n)%nat && (n <=? 90)%nat) || ((97 <=? n)%nat && (n <=? 122)%nat)
  || Ascii.eqb c "_".

Definition identifier_char (c : ascii) : bool :=
  identifier_start c || is_digit c.

Fixpoint all_chars (p : ascii -> bool) (s : string) : bool :=
  match s with
  | EmptyString => true
  | String c s' => p c && all_chars p s'
  end.

Definition is_identifier (s : string) : bool :=
  match s with
  | EmptyString => false
  | String c s' => identifier_start c && all_chars identifier_char s'
  end.

Definition tid_key (d : TSFCIntegralData) : IntegralKey :=
  (tid_domain d, tid_integral_type d, tid_subdomain_id d).

(** The runtime after [n] more indices were made. *)
Definition advance (rt : Runtime) (n : nat) : Runtime :=
  {| next_index := next_index rt + n; warnings := warnings rt |}.

(** The true multiindices before the diagonal rewrite, and the dummy
    ones, as [create_kernel_config] allocates them from [rt]. *)
Definition allocated_true `{Collaborators} (form_data : TSFCFormData) (rt : Runtime)
  : list (list Gem.Index) :=
  multiindices_from (next_index rt) (argument_shapes (tfd_arguments form_data)).

Definition allocated_dummy `{Collaborators} (form_data : TSFCFormData) (rt : Runtime)
  : list (list Gem.Index) :=
  multiindices_from
    (next_index rt
     + length (concat (argument_shapes (tfd_arguments form_data))))
    (argument_shapes (tfd_arguments form_data)).


(** The outcomes that are not [None]. *)
Definition non_null {K : Type} (outcomes : list (option K)) : list K :=
  omap id outcomes.

(** Every integral data of the records, with its record, in the order
    of the loops of driver.py lines 111-112; and the entries of the
    grouping dictionary, each under the key of its first element. *)
Definition all_integral_data (fds : list FormData) : list (FormData * IntegralData) :=
  concat (map (λ fd, map (pair fd) (integral_data fd)) fds).

Definition keyed (k : IntegralKey) (vs : list IntegralData) : Prop :=
  ∃ v, head vs = Some v ∧ integral_key v = k.

(** A configuration for the diagonal of a P1 x P1 form, the tensor its
    integrand compiles to, and data to evaluate it on. *)
Definition index_i : Gem.Index := {| Gem.idx_id := 0; Gem.extent := 3 |}.
Definition index_d0 : Gem.Index := {| Gem.idx_id := 2; Gem.extent := 3 |}.
Definition index_d1 : Gem.Index := {| Gem.idx_id := 3; Gem.extent := 3 |}.

Definition diagonal_config : KernelConfig :=
  {| name := "form_cell_integral__1";
     kc_integral_type := "cell";
     kc_subdomain_id := SubInt (-1);
     kc_domain_number := 0;
     kc_coefficient_numbers := [];
     kc_subspace_numbers := [];
     subspace_parts := [];
     fem_config :=
       {| fc_ufl_cell := triangle_cell;
          fc_integral_type := "cell";
          integration_dim := DimInt 2;
          entity_ids := [0%nat];
          argument_multiindices := [[index_i]; [index_i]];
          argument_multiindices_dummy := [[index_d0]; [index_d1]];
          index_cache := [];
          fc_scalar_type := PyStr "double" |};
     quadrature_indices := [];
     kc_arguments := [test_function; trial_function];
     mode_irs := [] |}.

Definition argument_tensor (multiindices : list (list Gem.Index)) : list Gem.expr :=
  [Gem.Indexed (Gem.Variable_ "A") (Gem.MIndex <$> concat multiindices)].

Definition reference_data : Gem.Data :=
  λ _ position, Z.of_nat (foldr (λ a acc, a + 10 * acc)%nat 0%nat position).

Definition tensor_value (positions : list (list nat)) (rho : Gem.Assignment) : list Z :=
  [reference_data "A" (concat positions)].

Definition last_position : Gem.Assignment := λ i, (Gem.extent i - 1)%nat.

Definition form_one_domain : Form :=
  {| coefficients := []; domain_numbering := [(mesh0, 0%nat)] |}.

(** * Further definitions *)


(** The dictionary of driver.py lines 258-263: the caller's entries over
    the defaults. *)
Definition merged_parameters `{Collaborators} (parameters : option Params) : Params :=
  match parameters with
  | None => default_parameters
  | Some p => p ∪ default_parameters
  end.

(** Parameters as a caller gives them, and what preprocessing makes of
    them over the reference defaults. *)
Definition params_user : Params :=
  {[ "quadrature_degree" := PyInt 4; "mode" := PyStr "spectral" ]}.

Definition params_user_resolved : Params :=
  {[ "quadrature_degree" := PyInt 4; "mode" := PyStr "spectral";
     "scalar_type" := PyStr "double"; "scalar_type_c" := PyStr "double" ]}.


(** Parameters that ask for the default rule; the override parameters
    once their rule is resolved; and parameters with a rule and no
    degree. *)
Definition params_default_rule : Params :=
  {[ "quadrature_degree" := PyInt 3; "quadrature_rule" := PyStr "default" ]}.

Definition params_override_resolved : Params :=
  <["quadrature_rule" := PyRule {| rule_id := 3 |}]> params_override.

Definition params_no_degree : Params :=
  {[ "quadrature_rule" := PyRule {| rule_id := 7 |} ]}.


(** Parameters without a scalar type. *)
Definition params_no_scalar_type : Params :=
  {[ "scalar_type_c" := PyStr "double" ]}.

(** Aggregated data of a linear form over P1. *)
Definition form_data_P1 : TSFCFormData :=
  {| tfd_original_form := {| coefficients := []; domain_numbering := [(mesh0, 0%nat)] |};
     tfd_arguments := [test_function];
     tfd_reduced_coefficients := [];
     tfd_original_coefficient_positions := [];
     tfd_function_replace_map := [];
     tfd_reduced_subspaces := [];
     tfd_original_subspace_positions := [];
     tfd_subspace_replace_map := [];
     tfd_integral_data := [cell_integral_P1P2] |}.


(** The integral data of the records that fall under the key [k], each
    with its record, in the order of the loops of driver.py lines
    111-112. *)
Definition with_key (k : IntegralKey) (fds : list FormData)
  : list (FormData * IntegralData) :=
  filter (λ fi, integral_key (snd fi) = k) (all_integral_data fds).

(** The keys of the integral data of the records, in the order of the
    loops of driver.py lines 111-112. *)
Definition keys_met (fds : list FormData) : list IntegralKey :=
  map (λ fi, integral_key (snd fi)) (all_integral_data fds).

(** A third split of [f*v*dx + g*v*ds]: a cell integral again, over
    [g]. *)
Definition split_dx_g : FormData :=
  {| arguments := [test_function];
     original_form := form_fg;
     reduced_coefficients := [coefficient_g];
     original_coefficient_positions := [1%nat];
     function_replace_map := [(coefficient_g, coefficient_g)];
     reduced_subspaces := [];
     original_subspace_positions := [];
     subspace_replace_map := [];
     integral_data :=
       [{| domain := mesh0;
           integral_type := "cell";
           subdomain_id := SubStr "otherwise";
           integrals :=
             [{| integrand := UProduct (UCoefficient coefficient_g)
                                       (UArgument test_function);
                 metadata := ∅ |}];
           integral_coefficients := [coefficient_g];
           enabled_subspaces := [] |}] |}.


(** [Coefficient(coeff.ufl_function_space(), count=i)], driver.py line
    96. *)
Definition renumbered (i : nat) (coeff : Coefficient) : Coefficient :=
  {| count := i; coefficient_function_space := ufl_function_space coeff |}.

(** The integrals of an integral data as [TSFCIntegralData.__init__]
    rewrites them, driver.py lines 147-153. *)
Definition rewritten_integrals (function_map : list (Coefficient * Coefficient))
    (subspace_map : list (Subspace * Subspace)) (integral_data : IntegralData)
  : list Integral :=
  map (λ integral,
         reconstruct integral
           (ufl_replace
              (ufl_replace (integrand integral)
                 (terminal_map UCoefficient function_map))
              (terminal_map USubspace subspace_map)))
      (integrals integral_data).

(** Two records that renumber [f] over different spaces. *)
Definition split_f_P1 : FormData :=
  {| arguments := [test_function];
     original_form := form_fg;
     reduced_coefficients := [coefficient_f];
     original_coefficient_positions := [0%nat];
     function_replace_map :=
       [(coefficient_f, {| count := 7; coefficient_function_space := P 1 |})];
     reduced_subspaces := [];
     original_subspace_positions := [];
     subspace_replace_map := [];
     integral_data := [] |}.

Definition split_f_P2 : FormData :=
  {| arguments := [test_function];
     original_form := form_fg;
     reduced_coefficients := [coefficient_f; coefficient_g];
     original_coefficient_positions := [0%nat; 1%nat];
     function_replace_map :=
       [(coefficient_f, {| count := 8; coefficient_function_space := P 2 |});
        (coefficient_g, {| count := 9; coefficient_function_space := P 2 |})];
     reduced_subspaces := [];
     original_subspace_positions := [];
     subspace_replace_map := [];
     integral_data := [] |}.


(** Two records over distinct coefficients of one count. *)
Definition coefficient_f_P2 : Coefficient :=
  {| count := 0; coefficient_function_space := P 2 |}.

Definition split_tie_P1 : FormData :=
  {| arguments := [test_function];
     original_form := form_fg;
     reduced_coefficients := [coefficient_f];
     original_coefficient_positions := [0%nat];
     function_replace_map := [(coefficient_f, coefficient_f)];
     reduced_subspaces := [];
     original_subspace_positions := [];
     subspace_replace_map := [];
     integral_data := [] |}.

Definition split_tie_P2 : FormData :=
  {| arguments := [test_function];
     original_form := form_fg;
     reduced_coefficients := [coefficient_f_P2];
     original_coefficient_positions := [0%nat];
     function_replace_map := [(coefficient_f_P2, coefficient_f_P2)];
     reduced_subspaces := [];
     original_subspace_positions := [];
     subspace_replace_map := [];
     integral_data := [] |}.

(** An integral data over a coefficient that no record reduces. *)
Definition intg_data_r : IntegralData :=
  {| domain := mesh0;
     integral_type := "cell";
     subdomain_id := SubStr "otherwise";
     integrals := [];
     integral_coefficients := [coefficient_r];
     enabled_subspaces := [] |}.

(** The aggregated data of [split_dx] and [split_ds], less the integral
    data. *)
Definition form_data_fg : TSFCFormData :=
  {| tfd_original_form := form_fg;
     tfd_arguments := [test_function];
     tfd_reduced_coefficients := [coefficient_f; coefficient_g];
     tfd_original_coefficient_positions := [0%nat; 1%nat];
     tfd_function_replace_map :=
       [(coefficient_f, renumbered 0 coefficient_f);
        (coefficient_g, renumbered 1 coefficient_g)];
     tfd_reduced_subspaces := [];
     tfd_original_subspace_positions := [];
     tfd_subspace_replace_map := [];
     tfd_integral_data := [] |}.

(** The same with an entry for [r] in the replace map only. *)
Definition form_data_fgr : TSFCFormData :=
  {| tfd_original_form := form_fg;
     tfd_arguments := [test_function];
     tfd_reduced_coefficients := [coefficient_f; coefficient_g];
     tfd_original_coefficient_positions := [0%nat; 1%nat];
     tfd_function_replace_map :=
       [(coefficient_f, renumbered 0 coefficient_f);
        (coefficient_g, renumbered 1 coefficient_g);
        (coefficient_r, renumbered 2 coefficient_r)];
     tfd_reduced_subspaces := [];
     tfd_original_subspace_positions := [];
     tfd_subspace_replace_map := [];
     tfd_integral_data := [] |}.

(** An integral data over another domain. *)
Definition mesh1 : Mesh := {| mesh_id := 1; ufl_cell := {| cellname := "triangle" |} |}.

Definition intg_data_mesh1 : IntegralData :=
  {| domain := mesh1;
     integral_type := "cell";
     subdomain_id := SubStr "otherwise";
     integrals := [];
     integral_coefficients := [];
     enabled_subspaces := [] |}.

(** A record with two subspaces, of which its integral data enables the
    second. *)
Definition subspace_0 : Subspace :=
  {| subspace_count := 0; subspace_function_space := P 1 |}.
Definition subspace_1 : Subspace :=
  {| subspace_count := 1; subspace_function_space := P 2 |}.

Definition intg_data_subspace : IntegralData :=
  {| domain := mesh0;
     integral_type := "cell";
     subdomain_id := SubStr "otherwise";
     integrals := [];
     integral_coefficients := [];
     enabled_subspaces := [false; true] |}.

Definition split_subspace : FormData :=
  {| arguments := [test_function];
     original_form := form_fg;
     reduced_coefficients := [];
     original_coefficient_positions := [];
     function_replace_map := [];
     reduced_subspaces := [subspace_0; subspace_1];
     original_subspace_positions := [3%nat; 5%nat];
     subspace_replace_map := [(subspace_0, subspace_0); (subspace_1, subspace_1)];
     integral_data := [intg_data_subspace] |}.


(** ** More of [KernelBuilderBase], kernel_interface/common.py *)

(** The exceptions of the accessors below: those of [exn], and the two
    that only the builder raises. *)
Inductive BuilderError : Type :=
| Builtin (e : exn)
| AttributeError (attribute : string)
| RuntimeError (message : string).

Inductive attempt (A : Type) : Type :=
| Done (a : A)
| Failed (e : BuilderError).
Arguments Done {A} a.
Arguments Failed {A} e.

Definition of_result {A} (r : result A) : attempt A :=
  match r with
  | Ok a => Done a
  | Raise e => Failed (Builtin e)
  end.

(** [getattr(self, name)] of an attribute that a backend sets later. *)
Definition getattr {A} (name : string) (attribute : option A) : attempt A :=
  match attribute with
  | Some a => Done a
  | None => Failed (AttributeError name)
  end.

(** COFFEE nodes: a block of statements, a function declaration, and
    any other node. *)
#[warnings="-register-all"]
Inductive CoffeeNode : Type :=
| Statement (code : string)
| Block (children : list CoffeeNode)
| FunDecl (ret name : string) (args : list CoffeeNode) (body : CoffeeNode)
          (pred : list string).

(** A builder with the glue code lists of lines 26-27 and the attributes
    that backends set after construction. *)
Record KernelBuilder : Type :=
  { base : KernelBuilderBase;
    prepare : list CoffeeNode;
    finalise : list CoffeeNode;
    _cell_orientations : option (list Gem.expr);
    _cell_sizes : option KernelArg;
    _entity_number : option (list (option string * Gem.expr)) }.

(** [KernelBuilderBase.__init__], common.py lines 17-33 *)
Definition KernelBuilderBase__init__ (scalar_type : PyVal) (interior_facet : bool)
  : KernelBuilder :=
  {| base := {| scalar_type := scalar_type;
                interior_facet := interior_facet;
                domain_coordinate := [];
                coefficient_map := [] |};
     prepare := [];
     finalise := [];
     _cell_orientations := None;
     _cell_sizes := None;
     _entity_number := None |}.

(** The nodes that [cell_orientation] builds around an orientation. *)
Inductive OrientationValue : Type :=
| OLiteral (z : Z)
| OZero
| ONaN
| OExpr (e : Gem.expr).

Inductive OrientationExpr : Type :=
| OValue (v : OrientationValue)
| OComparison (op : string) (a b : OrientationValue)
| OConditional (condition : OrientationExpr) (then_ else_ : OrientationExpr).

(** [{None: 0, '+': 0, '-': 1}[restriction]] *)
Definition orientation_component (restriction : option string) : result nat :=
  match restriction with
  | None => Ok 0%nat
  | Some "+" => Ok 0%nat
  | Some "-" => Ok 1%nat
  | Some _ => Raise KeyError
  end.

(** The expression of common.py lines 58-62: -1 for orientation 1, 1
    for orientation 0, not a number otherwise. *)
Definition orientation_conditional (co_int : Gem.expr) : OrientationExpr :=
  OConditional
    (OComparison "==" (OExpr co_int) (OLiteral 1))
    (OValue (OLiteral (-1)))
    (OConditional
       (OComparison "==" (OExpr co_int) OZero)
       (OValue (OLiteral 1))
       (OValue ONaN)).

(** [KernelBuilderBase.cell_orientation], common.py lines 53-62 *)
Definition cell_orientation (self : KernelBuilder) (restriction : option string)
  : attempt OrientationExpr :=
  match of_result (orientation_component restriction) with
  | Failed e => Failed e
  | Done f =>
      match getattr "_cell_orientations" (_cell_orientations self) with
      | Failed e => Failed e
      | Done orientations =>
          match of_result (from_option IndexError (orientations !! f)) with
          | Failed e => Failed e
          | Done co_int => Done (orientation_conditional co_int)
          end
      end
  end.

(** [KernelBuilderBase.cell_size], common.py lines 64-70 *)
Definition cell_size (self : KernelBuilder) (restriction : option string)
  : attempt KernelArg :=
  match _cell_sizes self with
  | None => Failed (RuntimeError "Haven't called set_cell_sizes")
  | Some cell_sizes =>
      if interior_facet (base self) then
        of_result (i ← restriction_component restriction; getitem cell_sizes i)
      else Done cell_sizes
  end.

(** [KernelBuilderBase.entity_number], common.py lines 72-75 *)
Definition entity_number (self : KernelBuilder) (restriction : option string)
  : attempt Gem.expr :=
  match getattr "_entity_number" (_entity_number self) with
  | Failed e => Failed e
  | Done numbers => of_result (from_option KeyError (assoc restriction numbers))
  end.

(** [KernelBuilderBase.apply_glue], common.py lines 77-89; the builder
    is updated in place and is returned here. *)
Definition apply_glue (self : KernelBuilder)
    (prepare' finalise' : option (list CoffeeNode)) : KernelBuilder :=
  {| base := base self;
     prepare := match prepare' with
                | Some p => prepare self ++ p
                | None => prepare self
                end;
     finalise := match finalise' with
                 | Some f => finalise self ++ f
                 | None => finalise self
                 end;
     _cell_orientations := _cell_orientations self;
     _cell_sizes := _cell_sizes self;
     _entity_number := _entity_number self |}.

(** [KernelBuilderBase.construct_kernel], common.py lines 91-102 *)
Definition base_construct_kernel (self : KernelBuilder) (name : string)
    (args : list CoffeeNode) (body : CoffeeNode) : attempt CoffeeNode :=
  match body with
  | Block children =>
      let body_ := Block (prepare self ++ children ++ finalise self) in
      Done (FunDecl "void" name args body_ ["static"; "inline"])
  | _ => Failed (Builtin AssertionError)
  end.

(** A builder on interior facets that knows the cell sizes as one
    expression and the orientations of both cells. *)
Definition facet_builder : KernelBuilder :=
  {| base := interior_facet_builder;
     prepare := [Statement "double t0;"];
     finalise := [];
     _cell_orientations :=
       Some [Gem.Variable_ "orientation_plus"; Gem.Variable_ "orientation_minus"];
     _cell_sizes := Some (ArgExpr (Gem.Variable_ "cell_sizes"));
     _entity_number := Some [(Some "+", Gem.Variable_ "facet_plus")] |}.


(** A backend whose builder cannot be constructed. *)
Definition failing_interface : @KernelInterface bool string (list Gem.expr) :=
  {| interface_init := λ _ _ _ _ _, raise (BackendError "no builder");
     set_arguments := set_arguments reference_interface;
     coordinate := coordinate reference_interface;
     compile_ufl := compile_ufl reference_interface;
     construct_integrals := construct_integrals reference_interface;
     stash_integrals := stash_integrals reference_interface;
     construct_kernel := construct_kernel reference_interface |}.

(** Parameters of a COFFEE run that lack the scalar type of the loopy
    backend. *)
Definition params_coffee_only : Params :=
  {[ "scalar_type_c" := PyStr "double" ]}.

(** Aggregated data of a functional: no argument. *)
Definition form_data_rank0 : TSFCFormData :=
  {| tfd_original_form := {| coefficients := []; domain_numbering := [(mesh0, 0%nat)] |};
     tfd_arguments := [];
     tfd_reduced_coefficients := [];
     tfd_original_coefficient_positions := [];
     tfd_function_replace_map := [];
     tfd_reduced_subspaces := [];
     tfd_original_subspace_positions := [];
     tfd_subspace_replace_map := [];
     tfd_integral_data := [cell_integral_P1P2] |}.

(** * Properties *)

(** ** Strings *)

Lemma str_in_true (s : string) (xs : list string) :
  s ∈ xs -> str_in s xs = true.
Proof.
  unfold str_in. intros Hin. apply existsb_exists.
  exists s. split; [by apply list_elem_of_In | apply String.eqb_refl].
Qed.

Lemma str_in_false (s : string) (xs : list string) :
  s ∉ xs -> str_in s xs = false.
Proof.
  unfold str_in. intros Hnin.
  destruct (existsb (String.eqb s) xs) eqn:E; [|done].
  apply existsb_exists in E as (x & Hx & Heq).
  apply String.eqb_eq in Heq. subst x.
  exfalso. apply Hnin. by apply list_elem_of_In.
Qed.

Lemma eqb_false_of_not_in (s x : string) (xs : list string) :
  s ∉ xs -> x ∈ xs -> String.eqb s x = false.
Proof.
  intros Hnin Hx. apply String.eqb_neq. intros ->. exact (Hnin Hx).
Qed.

(** ** Entity lowering *)

Ltac lower_literal :=
  unfold lower_integral_type; cbn;
  repeat match goal with
         | H : assoc _ _ = Some _ |- _ => rewrite H
         end; cbn; try reflexivity.

(** C3. Entity lowering sends "cell" to the cell dimension, "vertex"
    to dimension 0, the two plain facet types to the dimension minus one
    on an ordinary cell, the vertical extruded facet types to
    (base dimension - 1, 1) and the horizontal ones to (base dimension, 0)
    on a product of a base cell with an interval; "exterior_facet_top"
    selects the entities [1], "exterior_facet_bottom" the entities [0],
    and every other documented type enumerates all entities that the
    topology lists for the computed dimension.  Every other integral type
    raises the NotImplementedError of line 555, on every cell. *)
Theorem lower_integral_type_documented (fiat_cell : FiatCell) :
  (∀ ents, assoc (get_dimension fiat_cell) (get_topology fiat_cell) = Some ents ->
     lower_integral_type fiat_cell "cell"
     = Ok (get_dimension fiat_cell, seq 0 (length ents)))
  ∧ (∀ ents, assoc (DimInt 0) (get_topology fiat_cell) = Some ents ->
       lower_integral_type fiat_cell "vertex" = Ok (DimInt 0, seq 0 (length ents)))
  ∧ (∀ t d topology ents,
       t ∈ ["exterior_facet"; "interior_facet"] ->
       fiat_cell = Cell d topology ->
       assoc (DimInt (d - 1)) topology = Some ents ->
       lower_integral_type fiat_cell t = Ok (DimInt (d - 1), seq 0 (length ents)))
  ∧ (∀ t basedim topology ents,
       t ∈ vert_facet_types ->
       fiat_cell = TensorProductCell [basedim; 1] topology ->
       assoc (DimTuple [basedim - 1; 1]) topology = Some ents ->
       lower_integral_type fiat_cell t
       = Ok (DimTuple [basedim - 1; 1], seq 0 (length ents)))
  ∧ (∀ basedim topology ents,
       fiat_cell = TensorProductCell [basedim; 1] topology ->
       assoc (DimTuple [basedim; 0]) topology = Some ents ->
       lower_integral_type fiat_cell "interior_facet_horiz"
       = Ok (DimTuple [basedim; 0], seq 0 (length ents)))
  ∧ (∀ basedim topology,
       fiat_cell = TensorProductCell [basedim; 1] topology ->
       lower_integral_type fiat_cell "exterior_facet_top"
       = Ok (DimTuple [basedim; 0], [1%nat])
       ∧ lower_integral_type fiat_cell "exterior_facet_bottom"
         = Ok (DimTuple [basedim; 0], [0%nat]))
  ∧ (∀ t, t ∉ documented_integral_types ->
       lower_integral_type fiat_cell t = Raise (UnsupportedIntegralTypeError t)).
Proof.
  repeat split.
  - intros ents Hents. lower_literal.
  - intros ents Hents. lower_literal.
  - intros t d topology ents Ht -> Hents.
    repeat (apply elem_of_cons in Ht as [-> | Ht]); [| | by apply elem_of_nil in Ht];
      lower_literal.
  - intros t basedim topology ents Ht -> Hents. unfold vert_facet_types in Ht.
    repeat (apply elem_of_cons in Ht as [-> | Ht]); [| | by apply elem_of_nil in Ht];
      lower_literal.
  - intros basedim topology ents -> Hents. lower_literal.
  - subst fiat_cell. lower_literal.
  - subst fiat_cell. lower_literal.
  - intros t Ht. unfold lower_integral_type, UnsupportedIntegralTypeError.
    assert (Hne : ∀ x, x ∈ documented_integral_types -> String.eqb t x = false)
      by (intros x; by apply eqb_false_of_not_in).
    rewrite !Hne
      by (cbn; rewrite !elem_of_cons; repeat first [left; reflexivity | right]).
    rewrite !str_in_false; [done | |];
      intros Hin; apply Ht; cbn in *;
      rewrite !elem_of_cons, ?elem_of_nil in *; tauto.
Qed.

(** ** Sorting by a key *)

Section Sorting.
Context {A : Type} (key : A -> nat).

Let key_le (a b : A) : Prop := (key a <= key b)%nat.

Lemma insert_sorted_perm (x : A) (l : list A) :
  insert_sorted key x l ≡ₚ x :: l.
Proof.
  induction l as [|y l IH]; cbn; [done|].
  destruct (key x <=? key y)%nat; [done|].
  rewrite IH. apply Permutation_swap.
Qed.

Lemma sorted_perm (l : list A) : sorted key l ≡ₚ l.
Proof.
  induction l as [|x l IH]; cbn; [done|].
  by rewrite insert_sorted_perm, IH.
Qed.

Lemma insert_sorted_HdRel (a x : A) (l : list A) :
  key_le a x -> HdRel key_le a l -> HdRel key_le a (insert_sorted key x l).
Proof.
  intros Hax Hal. destruct l as [|y l]; cbn; [by constructor|].
  destruct (key x <=? key y)%nat; constructor; [done|].
  by inversion Hal.
Qed.

Lemma insert_sorted_Sorted (x : A) (l : list A) :
  Sorted key_le l -> Sorted key_le (insert_sorted key x l).
Proof.
  induction 1 as [|y l Hl IH Hhd]; cbn; [by repeat constructor|].
  destruct (key x <=? key y)%nat eqn:E.
  - apply Nat.leb_le in E. repeat constructor; done.
  - apply Nat.leb_gt in E. constructor; [done|].
    apply insert_sorted_HdRel; [|done]. unfold key_le. lia.
Qed.

Lemma sorted_Sorted (l : list A) : Sorted key_le (sorted key l).
Proof.
  induction l as [|x l IH]; cbn; [constructor|].
  by apply insert_sorted_Sorted.
Qed.

Lemma key_le_transitive : Transitive key_le.
Proof. intros a b c. unfold key_le. lia. Qed.

(** Two lists sorted by a key that is injective on their elements are
    equal as soon as they hold the same elements. *)
Lemma Sorted_by_key_unique (l1 l2 : list A) :
  (∀ a b, a ∈ l1 -> b ∈ l1 -> key a = key b -> a = b) ->
  Sorted key_le l1 -> Sorted key_le l2 -> l1 ≡ₚ l2 -> l1 = l2.
Proof.
  intros Hinj H1 H2 Hperm.
  apply (@Sorted_unique_strong _ key_le key_le_transitive); try done.
  intros a b Ha Hb Hab Hba. apply Hinj; [done| |unfold key_le in *; lia].
  by rewrite Hperm.
Qed.

End Sorting.

(** ** Form-data aggregation *)

Lemma remove_dups_singleton {A} `{EqDecision A} (l : list A) (a : A) :
  remove_dups l = [a] -> ∀ x, x ∈ l -> x = a.
Proof.
  intros Hl x Hx. apply elem_of_remove_dups in Hx. rewrite Hl in Hx.
  by apply list_elem_of_singleton in Hx.
Qed.

Lemma remove_dups_perm {A} `{EqDecision A} (l1 l2 : list A) :
  l1 ≡ₚ l2 -> remove_dups l1 ≡ₚ remove_dups l2.
Proof.
  intros Hperm. apply NoDup_Permutation; try apply NoDup_remove_dups.
  intros x. by rewrite !elem_of_remove_dups, Hperm.
Qed.

Lemma concat_map_perm {A B} (f : A -> list B) (l1 l2 : list A) :
  l1 ≡ₚ l2 -> concat (map f l1) ≡ₚ concat (map f l2).
Proof.
  induction 1 as [|x l1 l2 _ IH|x y l|l1 l2 l3 _ IH1 _ IH2]; cbn.
  - done.
  - by rewrite IH.
  - rewrite !(assoc_L (++)). f_equiv. apply Permutation_app_comm.
  - by rewrite IH1.
Qed.

Section AggregationProperties.
Context `{Collaborators}.

Lemma reduce_coefficients_perm (fds : list FormData) :
  reduce_coefficients fds
  ≡ₚ remove_dups (concat (map reduced_coefficients fds)).
Proof.
  unfold reduce_coefficients. by rewrite sorted_perm, iterate_distinct.
Qed.

Lemma reduce_coefficients_elem (fds : list FormData) (c : Coefficient) :
  c ∈ reduce_coefficients fds
  <-> ∃ fd, fd ∈ fds ∧ c ∈ reduced_coefficients fd.
Proof.
  rewrite reduce_coefficients_perm, elem_of_remove_dups.
  rewrite list_elem_of_In, in_concat. split.
  - intros (l & Hl & Hc). apply in_map_iff in Hl as (fd & <- & Hfd).
    exists fd. by rewrite !list_elem_of_In.
  - intros (fd & Hfd & Hc). exists (reduced_coefficients fd).
    rewrite <- !list_elem_of_In. split; [|done].
    rewrite list_elem_of_In. apply in_map. by apply list_elem_of_In.
Qed.

Lemma TSFCFormData_reduced_coefficients fds original diagonal t :
  TSFCFormData__init__ fds original diagonal = Ok t ->
  tfd_reduced_coefficients t = reduce_coefficients fds
  ∧ tfd_original_coefficient_positions t
    = map fst (filter (λ i_f, snd i_f ∈ reduce_coefficients fds)
                      (enumerate (coefficients original))).
Proof.
  unfold TSFCFormData__init__.
  destruct (remove_dups (map arguments fds)) as [|a [|b l]]; cbn; try done.
  destruct (head fds); cbn; [|done].
  destruct (group_integral_data fds) as [d1 d2].
  match goal with |- context [mapM ?f ?l] => destruct (mapM f l) end; cbn; [|done].
  by intros [= <-].
Qed.

(** C8. Records whose argument tuples are not all the same make the
    aggregator raise the one ValueError of line 83; no form data is
    returned. *)
Theorem inconsistent_arguments_rejected
    (fds : list FormData) (original : Form) (diagonal : bool) :
  (∃ fd1 fd2, fd1 ∈ fds ∧ fd2 ∈ fds ∧ arguments fd1 ≠ arguments fd2) ->
  TSFCFormData__init__ fds original diagonal = Raise InconsistentArgumentsError.
Proof.
  intros (fd1 & fd2 & H1 & H2 & Hne). unfold TSFCFormData__init__.
  destruct (remove_dups (map arguments fds)) as [|a [|b l]] eqn:E; try done.
  exfalso. apply Hne.
  rewrite (remove_dups_singleton _ _ E (arguments fd1)),
          (remove_dups_singleton _ _ E (arguments fd2)); [done| |];
    rewrite list_elem_of_In; apply in_map; by apply list_elem_of_In.
Qed.

End AggregationProperties.

(** ** The coefficient accessor of the kernel builder *)

(** C10. A coefficient of the family 'Real' is returned as registered
    for every restriction, interior facet or not; any other coefficient
    of an interior-facet builder yields component 0 of what was
    registered for '+' and component 1 for '-'. *)
Theorem coefficient_restriction
    (self : KernelBuilderBase) (c : Coefficient) (kernel_arg : KernelArg) :
  assoc c (coefficient_map self) = Some kernel_arg ->
  (family (ufl_element (ufl_function_space c)) = "Real" ->
   ∀ restriction, coefficient self c restriction = Ok kernel_arg)
  ∧ (family (ufl_element (ufl_function_space c)) ≠ "Real" ->
     interior_facet self = true ->
     coefficient self c (Some "+") = getitem kernel_arg 0
     ∧ coefficient self c (Some "-") = getitem kernel_arg 1
     ∧ ∀ plus minus, kernel_arg = ArgTuple [plus; minus] ->
         coefficient self c (Some "+") = Ok (ArgExpr plus)
         ∧ coefficient self c (Some "-") = Ok (ArgExpr minus)).
Proof.
  intros Hreg. unfold coefficient. rewrite Hreg. cbn. split.
  - intros -> restriction. done.
  - intros Hfam Hint. apply String.eqb_neq in Hfam. rewrite Hfam, Hint. cbn.
    repeat split; intros; subst; done.
Qed.

(** ** Quadrature resolution *)

Lemma py_all_true {A} (f : A -> result bool) (xs : list A) :
  py_all f xs = Ok true <-> Forall (λ x, f x = Ok true) xs.
Proof.
  induction xs as [|x xs IH]; cbn.
  - split; [constructor | done].
  - rewrite Forall_cons. destruct (f x) as [[|]|e]; cbn.
    + rewrite IH. tauto.
    + split; [done | intros [? _]; done].
    + split; [done | intros [? _]; done].
Qed.

(** numpy's int64 arithmetic leaves an integer that fits 64 bits as it
    is. *)
Lemma wrap_int64_fits (z : Z) : int64_fits z = true -> wrap_int64 z = z.
Proof.
  unfold int64_fits, wrap_int64.
  intros [Hlo Hhi]%andb_prop. apply Z.leb_le in Hlo. apply Z.ltb_lt in Hhi.
  rewrite Z.mod_small; lia.
Qed.

Lemma int64_fits_range (z : Z) :
  int64_fits z = true <-> - 2 ^ 63 <= z < 2 ^ 63.
Proof.
  unfold int64_fits. rewrite andb_true_iff, Z.leb_le, Z.ltb_lt. tauto.
Qed.

Lemma forallb_map {A B} (f : B -> bool) (g : A -> B) (l : list A) :
  forallb f (map g l) = forallb (λ a, f (g a)) l.
Proof. induction l as [|a l IH]; cbn; [done|]. by rewrite IH. Qed.

Lemma reduce_np_maximum_int (a : Z) (ds : list Z) :
  reduce np_maximum (DegInt a) (map DegInt ds) = Ok (DegInt (fold_left Z.max ds a)).
Proof.
  revert a. induction ds as [|d ds IH]; intros a; cbn; [done|]. apply IH.
Qed.

Section QuadratureProperties.
Context `{Collaborators}.

(** Entries other than the rule pass through rule resolution. *)
Lemma resolve_quadrature_rule_insert params cell it q (k : string) (v : PyVal) :
  k ≠ "quadrature_rule" ->
  resolve_quadrature_rule (<[k := v]> params) cell it q
  = (λ p : Params, <[k := v]> p) <$> resolve_quadrature_rule params cell it q.
Proof.
  intros Hk. unfold resolve_quadrature_rule.
  rewrite lookup_insert_ne by done.
  destruct (decide (params !! "quadrature_rule" = Some (PyStr "default"))).
  - rewrite delete_insert_ne by done.
    rewrite lookup_insert_ne, lookup_delete_eq by done. cbn.
    destruct (lower_integral_type _ _) as [[d ids]|]; cbn; [|done].
    destruct (make_quadrature _ _); cbn; [|done].
    by rewrite insert_insert_ne.
  - rewrite lookup_insert_ne by done.
    destruct (params !! "quadrature_rule") as [r|]; cbn.
    + by destruct (is_quadrature_rule r).
    + destruct (lower_integral_type _ _) as [[d ids]|]; cbn; [|done].
      destruct (make_quadrature _ _); cbn; [|done].
      by rewrite insert_insert_ne.
Qed.

Lemma exceeds_tenfold_int64 (x y : Degree) :
  fits_int64 x = true -> fits_int64 y = true ->
  exceeds_tenfold x y
  = match x, y with
    | DegInt a, DegInt b => Ok (Z.ltb (wrap_int64 (10 * b)) a)
    | DegInt a, DegTuple bs =>
        Ok (forallb (λ b, Z.ltb (wrap_int64 (10 * b)) a) bs)
    | DegTuple xs, DegInt b =>
        Ok (forallb (λ a, Z.ltb (wrap_int64 (10 * b)) a) xs)
    | DegTuple xs, DegTuple bs =>
        ps ← broadcast xs bs;
        Ok (forallb (λ ab, Z.ltb (wrap_int64 (10 * snd ab)) (fst ab)) ps)
    end.
Proof.
  intros Hx Hy. unfold exceeds_tenfold. rewrite Hx, Hy. cbn [andb].
  destruct x as [a|xs], y as [b|bs]; cbn.
  - done.
  - by rewrite forallb_map.
  - by rewrite forallb_map.
  - by destruct (broadcast xs bs).
Qed.

Lemma tenfold_greater_int (q : Z) (ds : list Z) :
  int64_fits q = true -> Forall (λ d, int64_fits d = true) ds ->
  tenfold_greater (PyInt q) (map DegInt ds)
  = Ok (forallb (λ d, Z.ltb (wrap_int64 (10 * d)) q) ds).
Proof.
  intros Hq Hds. unfold tenfold_greater.
  induction Hds as [|d ds Hd Hds IH]; cbn; [done|].
  rewrite (exceeds_tenfold_int64 (DegInt q) (DegInt d) Hq Hd). cbn.
  destruct (Z.ltb (wrap_int64 (10 * d)) q); [exact IH | done].
Qed.

Lemma forallb_Forall_lt (q : Z) (g : Z -> Z) (ds : list Z) :
  forallb (λ d, Z.ltb (g d) q) ds = true <-> Forall (λ d, g d < q) ds.
Proof.
  induction ds as [|d ds IH]; cbn.
  - split; [constructor | done].
  - rewrite andb_true_iff, Forall_cons, IH, Z.ltb_lt. tauto.
Qed.

(** C4. With a [quadrature_degree] entry, that value is the degree
    handed to rule resolution and nothing is logged; the outcome is the
    same whatever the estimated degree is, present or not, and without a
    supplied rule the rule is the one FInAT makes for that degree.
    Without the entry the estimated degree is handed on; a warning is
    logged exactly when the degree is more than tenfold every function
    degree, and the resolved parameters are the same with and without
    the warning.  The comparison is numpy's on int64 arrays: element by
    element after broadcasting, against ten times the function degree
    wrapped to 64 bits, that is [(10 * d + 2^63) mod 2^64 - 2^63].  For
    an integer degree [q] and integer function degrees [d], all within
    64 bits, the warning is logged, with the greatest function degree,
    exactly when the wrapped product is below [q] for every function; so
    it is logged when [10 * d < q] for every function degree [d >= 0],
    and it is not logged when no product overflows and [10 * d < q]
    fails for some function. *)
Theorem quadrature_degree_resolution
    (params : Params) (cell : UflCell) (it : string)
    (functions : list FormArgument) (rt : Runtime) :
  (∀ q, params !! "quadrature_degree" = Some q ->
     set_quad_rule params cell it functions rt
     = (resolve_quadrature_rule params cell it q, rt)
     ∧ (∀ e, set_quad_rule (<["estimated_polynomial_degree" := e]> params)
               cell it functions rt
             = ((λ p : Params, <["estimated_polynomial_degree" := e]> p)
                  <$> resolve_quadrature_rule params cell it q, rt))
     ∧ set_quad_rule (delete "estimated_polynomial_degree" params)
         cell it functions rt
       = (resolve_quadrature_rule
            (delete "estimated_polynomial_degree" params) cell it q, rt)
     ∧ (∀ d ids, params !! "quadrature_rule" = None ->
          lower_integral_type (as_fiat_cell cell) it = Ok (d, ids) ->
          resolve_quadrature_rule params cell it q
          = (λ r, <["quadrature_rule" := PyRule r]> params)
              <$> make_quadrature
                    (construct_subelement (as_fiat_cell cell) d) q))
  ∧ (∀ e, params !! "quadrature_degree" = None ->
       params !! "estimated_polynomial_degree" = Some e ->
       (tenfold_greater e (degrees_of functions) = Ok true
        <-> Forall (λ f, (q ← asarray e;
                          exceeds_tenfold q
                            (degree (ufl_element (ufl_function_space f))))
                         = Ok true) functions)
       ∧ (tenfold_greater e (degrees_of functions) = Ok false ->
          set_quad_rule params cell it functions rt
          = (resolve_quadrature_rule params cell it e, rt))
       ∧ (∀ m, tenfold_greater e (degrees_of functions) = Ok true ->
          max_degree (degrees_of functions) = Ok m ->
          set_quad_rule params cell it functions rt
          = (resolve_quadrature_rule params cell it e,
             {| next_index := next_index rt;
                warnings := warnings rt
                            ++ [{| warning_degree := e;
                                   warning_max_degree := m |}] |})))
  ∧ (∀ x y, fits_int64 x = true -> fits_int64 y = true ->
       exceeds_tenfold x y
       = match x, y with
         | DegInt a, DegInt b => Ok (Z.ltb (wrap_int64 (10 * b)) a)
         | DegInt a, DegTuple bs =>
             Ok (forallb (λ b, Z.ltb (wrap_int64 (10 * b)) a) bs)
         | DegTuple xs, DegInt b =>
             Ok (forallb (λ a, Z.ltb (wrap_int64 (10 * b)) a) xs)
         | DegTuple xs, DegTuple bs =>
             ps ← broadcast xs bs;
             Ok (forallb (λ ab, Z.ltb (wrap_int64 (10 * snd ab)) (fst ab)) ps)
         end)
  ∧ (∀ z zs,
       wrap_int64 z = (z + 2 ^ 63) mod 2 ^ 64 - 2 ^ 63
       ∧ (- 2 ^ 63 <= z < 2 ^ 63 -> wrap_int64 z = z)
       ∧ (int64_fits z = true <-> - 2 ^ 63 <= z < 2 ^ 63)
       ∧ fits_int64 (DegInt z) = int64_fits z
       ∧ fits_int64 (DegTuple zs) = forallb int64_fits zs)
  ∧ (∀ q d0 ds,
       params !! "quadrature_degree" = None ->
       params !! "estimated_polynomial_degree" = Some (PyInt q) ->
       map (λ f, degree (ufl_element (ufl_function_space f))) functions
       = map DegInt (d0 :: ds) ->
       - 2 ^ 63 <= q < 2 ^ 63 ->
       Forall (λ d, - 2 ^ 63 <= d < 2 ^ 63) (d0 :: ds) ->
       let logged :=
         {| next_index := next_index rt;
            warnings := warnings rt
                        ++ [{| warning_degree := PyInt q;
                               warning_max_degree :=
                                 DegInt (fold_left Z.max ds d0) |}] |} in
       (Forall (λ d, (10 * d + 2 ^ 63) mod 2 ^ 64 - 2 ^ 63 < q) (d0 :: ds) ->
        set_quad_rule params cell it functions rt
        = (resolve_quadrature_rule params cell it (PyInt q), logged))
       ∧ (¬ Forall (λ d, (10 * d + 2 ^ 63) mod 2 ^ 64 - 2 ^ 63 < q) (d0 :: ds) ->
          set_quad_rule params cell it functions rt
          = (resolve_quadrature_rule params cell it (PyInt q), rt))
       ∧ (Forall (λ d, 0 <= d ∧ 10 * d < q) (d0 :: ds) ->
          set_quad_rule params cell it functions rt
          = (resolve_quadrature_rule params cell it (PyInt q), logged))
       ∧ (Forall (λ d, - 2 ^ 63 <= 10 * d < 2 ^ 63) (d0 :: ds) ->
          ¬ Forall (λ d, 10 * d < q) (d0 :: ds) ->
          set_quad_rule params cell it functions rt
          = (resolve_quadrature_rule params cell it (PyInt q), rt))).
Proof.
  split.
  { intros q Hq.
    assert (Hset : ∀ p, p !! "quadrature_degree" = Some q ->
              set_quad_rule p cell it functions rt
              = (resolve_quadrature_rule p cell it q, rt)).
    { intros p Hp. unfold set_quad_rule, resolve_quadrature_degree.
      rewrite Hp. reflexivity. }
    split; [by apply Hset|].
    split.
    { intros e. rewrite Hset by (by rewrite lookup_insert_ne).
      by rewrite resolve_quadrature_rule_insert. }
    split; [apply Hset; by rewrite lookup_delete_ne|].
    intros d ids Hrule Hlower. unfold resolve_quadrature_rule.
    rewrite decide_False by (by rewrite Hrule).
    rewrite Hrule, Hlower. cbn.
    by destruct (make_quadrature _ _). }
  assert (Hquiet : ∀ e, params !! "quadrature_degree" = None ->
            params !! "estimated_polynomial_degree" = Some e ->
            tenfold_greater e (degrees_of functions) = Ok false ->
            set_quad_rule params cell it functions rt
            = (resolve_quadrature_rule params cell it e, rt)).
  { intros e Hq He Hb. unfold set_quad_rule, resolve_quadrature_degree.
    rewrite Hq, He. cbn. unfold mbind, M_bind, lift. cbn.
    rewrite Hb. reflexivity. }
  assert (Hloud : ∀ e m, params !! "quadrature_degree" = None ->
            params !! "estimated_polynomial_degree" = Some e ->
            tenfold_greater e (degrees_of functions) = Ok true ->
            max_degree (degrees_of functions) = Ok m ->
            set_quad_rule params cell it functions rt
            = (resolve_quadrature_rule params cell it e,
               {| next_index := next_index rt;
                  warnings := warnings rt
                              ++ [{| warning_degree := e;
                                     warning_max_degree := m |}] |})).
  { intros e m Hq He Hb Hm. unfold set_quad_rule, resolve_quadrature_degree.
    rewrite Hq, He. cbn. unfold mbind, M_bind, lift. cbn.
    rewrite Hb, Hm. reflexivity. }
  split.
  { intros e Hq He. split.
    { unfold tenfold_greater, degrees_of. rewrite py_all_true, Forall_map.
      reflexivity. }
    split; [by apply Hquiet | intros m; by apply Hloud]. }
  split; [apply exceeds_tenfold_int64|].
  split.
  { intros z zs. split; [done|]. split; [by intros ?%int64_fits_range%wrap_int64_fits|].
    split; [apply int64_fits_range | done]. }
  intros q d0 ds Hq He Hdegrees Hfits%int64_fits_range Hall logged.
  fold (degrees_of functions) in Hdegrees.
  assert (Hall' : Forall (λ d, int64_fits d = true) (d0 :: ds)).
  { eapply Forall_impl; [exact Hall|]. intros d. apply int64_fits_range. }
  assert (Hmax : max_degree (degrees_of functions)
                 = Ok (DegInt (fold_left Z.max ds d0))).
  { rewrite Hdegrees. cbn. apply reduce_np_maximum_int. }
  pose proof (tenfold_greater_int q (d0 :: ds) Hfits Hall') as Htenfold.
  rewrite <- Hdegrees in Htenfold.
  assert (Hyes : Forall (λ d, wrap_int64 (10 * d) < q) (d0 :: ds) ->
            set_quad_rule params cell it functions rt
            = (resolve_quadrature_rule params cell it (PyInt q), logged)).
  { intros Hlt. apply (forallb_Forall_lt q (λ d, wrap_int64 (10 * d))) in Hlt.
    rewrite Hlt in Htenfold. by apply Hloud. }
  assert (Hno : ¬ Forall (λ d, wrap_int64 (10 * d) < q) (d0 :: ds) ->
            set_quad_rule params cell it functions rt
            = (resolve_quadrature_rule params cell it (PyInt q), rt)).
  { intros Hnot. apply Hquiet; [done..|]. rewrite Htenfold. f_equal.
    apply not_true_is_false. intros Htrue. apply Hnot.
    by apply (forallb_Forall_lt q (λ d, wrap_int64 (10 * d))). }
  split; [exact Hyes|]. split; [exact Hno|]. split.
  - intros Hpos. apply Hyes.
    rewrite Forall_forall in Hpos, Hall |- *. intros d Hd.
    destruct (Hpos d Hd) as [H0 Hlt].
    apply int64_fits_range in Hfits.
    rewrite wrap_int64_fits; [done|]. apply int64_fits_range. lia.
  - intros Hprod Hnot. apply Hno. intros Hlt. apply Hnot.
    rewrite Forall_forall in Hprod, Hlt |- *. intros d Hd.
    specialize (Hlt d Hd).
    by rewrite (wrap_int64_fits _ (proj2 (int64_fits_range _) (Hprod d Hd))) in Hlt.
Qed.

(** C9. A supplied rule object that is a quadrature rule is used as it
    is and stays in the parameters; a supplied value of any other type
    raises the ValueError of lines 353-354, and this is the only way rule
    resolution raises that error for it.  After every successful
    resolution the parameters hold a quadrature rule: the supplied one,
    or the one made for the integration cell and stored at line 350. *)
Theorem quadrature_rule_resolution
    (params : Params) (cell : UflCell) (it : string) (q : PyVal) :
  (∀ v, params !! "quadrature_rule" = Some v -> v ≠ PyStr "default" ->
     (is_quadrature_rule v = true ->
      resolve_quadrature_rule params cell it q = Ok params)
     ∧ (is_quadrature_rule v = false ->
        resolve_quadrature_rule params cell it q
        = Raise (InvalidQuadratureRuleError v))
     ∧ (resolve_quadrature_rule params cell it q
        = Raise (InvalidQuadratureRuleError v)
        <-> is_quadrature_rule v = false)
     ∧ (∀ functions rt rt',
          resolve_quadrature_degree params functions rt = (Ok q, rt') ->
          set_quad_rule params cell it functions rt
          = (if is_quadrature_rule v then Ok params
             else Raise (InvalidQuadratureRuleError v), rt')))
  ∧ (∀ params', resolve_quadrature_rule params cell it q = Ok params' ->
       ∃ r, params' !! "quadrature_rule" = Some (PyRule r)
            ∧ (∀ v, params !! "quadrature_rule" = Some v -> v ≠ PyStr "default" ->
                 v = PyRule r ∧ params' = params)
            ∧ (params !! "quadrature_rule" = None
               ∨ params !! "quadrature_rule" = Some (PyStr "default") ->
               ∃ d ids,
                 lower_integral_type (as_fiat_cell cell) it = Ok (d, ids)
                 ∧ make_quadrature
                     (construct_subelement (as_fiat_cell cell) d) q = Ok r
                 ∧ params' = <["quadrature_rule" := PyRule r]> params)).
Proof.
  split.
  - intros v Hv Hdef.
    assert (Hres : resolve_quadrature_rule params cell it q
                   = if is_quadrature_rule v then Ok params
                     else Raise (InvalidQuadratureRuleError v)).
    { unfold resolve_quadrature_rule.
      rewrite decide_False by (rewrite Hv; congruence).
      rewrite Hv. reflexivity. }
    split; [intros Hr; by rewrite Hres, Hr|].
    split; [intros Hr; by rewrite Hres, Hr|].
    split.
    { rewrite Hres. destruct (is_quadrature_rule v); split; done. }
    intros functions rt rt' Hdeg. unfold set_quad_rule.
    unfold mbind, M_bind. rewrite Hdeg. unfold lift. by rewrite Hres.
  - intros params'. unfold resolve_quadrature_rule.
    destruct (decide (params !! "quadrature_rule" = Some (PyStr "default")))
      as [Hdef | Hdef].
    + rewrite lookup_delete_eq. cbn.
      destruct (lower_integral_type _ _) as [[d ids]|] eqn:Hl; cbn; [|done].
      destruct (make_quadrature _ _) as [r|] eqn:Hm; cbn; [|done].
      intros [= <-]. exists r.
      split; [by rewrite lookup_insert_eq|].
      split; [intros v Hv Hne; rewrite Hdef in Hv; congruence|].
      intros _. exists d, ids. split; [done|]. split; [done|].
      by rewrite insert_delete_eq.
    + destruct (params !! "quadrature_rule") as [v|] eqn:Hv; cbn.
      * destruct v; cbn; try done. intros [= <-]. exists r.
        split; [done|].
        split; [intros v [= <-] _; done|].
        intros [? | ?]; congruence.
      * destruct (lower_integral_type _ _) as [[d ids]|] eqn:Hl; cbn; [|done].
        destruct (make_quadrature _ _) as [r|] eqn:Hm; cbn; [|done].
        intros [= <-]. exists r.
        split; [by rewrite lookup_insert_eq|].
        split; [intros v ?; congruence|].
        intros _. by exists d, ids.
Qed.

End QuadratureProperties.

(** ** Substitution of indices in GEM expressions *)

Module GemFacts.
Import Gem.

Lemma sum_upto_ext (n : nat) (f g : nat -> Z) :
  (∀ k, f k = g k) -> sum_upto n f = sum_upto n g.
Proof. intros Hfg. induction n as [|n IH]; cbn; [done|]. by rewrite IH, Hfg. Qed.

(** The value of an expression depends on the assignment only at its
    free indices. *)
Lemma eval_ext (data : Data) (e : expr) :
  ∀ rho rho' p,
    (∀ i, i ∈ free_indices e -> rho i = rho' i) ->
    eval data e rho p = eval data e rho' p.
Proof.
  induction e as [z|x|c IH mi|a IHa b IHb|a IHa b IHb|c IH i|i j];
    intros rho rho' p Hfree; cbn in *.
  - done.
  - done.
  - assert (Hmi : map (position rho) mi = map (position rho') mi).
    { apply map_ext_in. intros [k|n] Hin; cbn; [|done].
      apply Hfree, elem_of_app. right.
      apply list_elem_of_In, in_concat. exists [k]. split; [|by left].
      apply in_map_iff. by exists (MIndex k). }
    rewrite Hmi. apply IH. intros k Hk. apply Hfree, elem_of_app. by left.
  - rewrite (IHa rho rho'), (IHb rho rho'); [done| |];
      intros k Hk; apply Hfree, elem_of_app; auto.
  - rewrite (IHa rho rho'), (IHb rho rho'); [done| |];
      intros k Hk; apply Hfree, elem_of_app; auto.
  - apply sum_upto_ext. intros k. apply IH. intros j Hj. unfold update.
    destruct (decide (j = i)); [done|].
    apply Hfree, list_elem_of_filter. done.
  - rewrite !Hfree; [done| |]; rewrite !elem_of_cons; auto.
Qed.

Lemma assoc_filter_keep {V} (P : Index -> Prop) `{∀ k, Decision (P k)}
    (k : Index) (s : list (Index * V)) :
  P k -> assoc k (filter (λ kv, P (fst kv)) s) = assoc k s.
Proof.
  intros Hk. induction s as [|[k' v] s IH]; [done|].
  rewrite filter_cons. cbn. destruct (decide (P k')) as [HP|HP]; cbn.
  - destruct (decide (k = k')); [done | apply IH].
  - destruct (decide (k = k')) as [->|]; [done | apply IH].
Qed.

Lemma assoc_Some_elem {V} (k : Index) (v : V) (s : list (Index * V)) :
  assoc k s = Some v -> (k, v) ∈ s.
Proof.
  induction s as [|[k' v'] s IH]; cbn; [done|].
  destruct (decide (k = k')) as [->|].
  - intros [= ->]. apply list_elem_of_here.
  - intros Hs. apply list_elem_of_further. by apply IH.
Qed.

Lemma substitute_filter (F : list Index) (s : Subst) (k : Index) :
  k ∈ F -> substitute (filter (λ kv, fst kv ∈ F) s) k = substitute s k.
Proof.
  intros Hk. unfold substitute.
  exact (f_equal (default k) (assoc_filter_keep (λ k, k ∈ F) k s Hk)).
Qed.

(** A value of the substitution is either the key itself or the second
    component of one of its pairs. *)
Lemma substitute_cases (s : Subst) (k : Index) :
  substitute s k = k ∨ (k, substitute s k) ∈ s.
Proof.
  unfold substitute. destruct (assoc k s) as [v|] eqn:E; cbn; [|by left].
  right. by apply assoc_Some_elem.
Qed.

Lemma capture_free_filter (P : Index * Index -> Prop) `{∀ kv, Decision (P kv)}
    (s : Subst) (e e' : expr) :
  (∀ i, i ∈ bound_indices e' -> i ∈ bound_indices e) ->
  capture_free s e -> capture_free (filter P s) e'.
Proof.
  intros Hsub Hs kv Hkv Hb. apply list_elem_of_filter in Hkv as [_ Hkv].
  exact (Hs kv Hkv (Hsub _ Hb)).
Qed.

(** The substitution lemma: the rewritten expression under [rho] has
    the value of the original under the assignment that reads every
    index through the substitution. *)
Lemma filtered_replace_indices_eval (data : Data) (e : expr) :
  ∀ (s : Subst) rho rho' p,
    capture_free s e ->
    (∀ j, j ∈ free_indices e -> rho' j = rho (substitute s j)) ->
    eval data (filtered_replace_indices e s) rho p = eval data e rho' p.
Proof.
  induction e as [z|x|c IH mi|a IHa b IHb|a IHa b IHb|c IH i|i j];
    intros s rho rho' p Hcap Hrho.
  all: cbn [filtered_replace_indices].
  all: set (F := free_indices _).
  all: pose proof (substitute_filter F s) as Hsub.
  all: pose proof (capture_free_filter (λ kv, fst kv ∈ F) s) as Hcapf.
  all: assert (Hkeys : ∀ kv, kv ∈ filter (λ kv, fst kv ∈ F) s -> fst kv ∈ F)
    by (intros kv Hkv; by apply list_elem_of_filter in Hkv as [? _]).
  all: destruct (filter (λ kv, fst kv ∈ F) s) as [|kv0 s'] eqn:Es;
    [ apply eval_ext; intros k Hk;
      rewrite Hrho, <- Hsub by done; reflexivity | ].
  all: set (fs := kv0 :: s') in *; clearbody fs; clear Es kv0 s'.
  - done.
  - done.
  - cbn. rewrite map_map.
    assert (Hmi : map (λ m, position rho (substitute_mindex fs m)) mi
                  = map (position rho') mi).
    { apply map_ext_in. intros [k|n] Hin; cbn; [|done].
      rewrite Hrho, Hsub; [done| |]; subst F; cbn; apply elem_of_app; right;
        apply list_elem_of_In, in_concat; exists [k];
        (split; [apply in_map_iff; by exists (MIndex k) | by left]). }
    rewrite Hmi. apply IH.
    + eapply Hcapf; [|exact Hcap]. cbn. done.
    + intros k Hk. rewrite Hrho, Hsub; [done| |];
        subst F; cbn; apply elem_of_app; by left.
  - cbn. rewrite (IHa fs rho rho'), (IHb fs rho rho'); [done| | | |].
    + eapply Hcapf; [|exact Hcap]. cbn. intros k Hk. apply elem_of_app. by right.
    + intros k Hk. rewrite Hrho, Hsub; [done| |];
        subst F; cbn; apply elem_of_app; by right.
    + eapply Hcapf; [|exact Hcap]. cbn. intros k Hk. apply elem_of_app. by left.
    + intros k Hk. rewrite Hrho, Hsub; [done| |];
        subst F; cbn; apply elem_of_app; by left.
  - cbn. rewrite (IHa fs rho rho'), (IHb fs rho rho'); [done| | | |].
    + eapply Hcapf; [|exact Hcap]. cbn. intros k Hk. apply elem_of_app. by right.
    + intros k Hk. rewrite Hrho, Hsub; [done| |];
        subst F; cbn; apply elem_of_app; by right.
    + eapply Hcapf; [|exact Hcap]. cbn. intros k Hk. apply elem_of_app. by left.
    + intros k Hk. rewrite Hrho, Hsub; [done| |];
        subst F; cbn; apply elem_of_app; by left.
  - cbn. apply sum_upto_ext. intros k. apply IH.
    + eapply Hcapf; [|exact Hcap]. cbn. intros j Hj. by apply list_elem_of_further.
    + assert (Hfs : ∀ j, substitute fs j ≠ j -> substitute fs j ≠ i ∧ j ∈ F).
      { intros j Hne. destruct (substitute_cases fs j) as [|Hin]; [done|].
        split; [|exact (Hkeys _ Hin)].
        intros Heq. apply (Hcapf (IndexSum c i) (IndexSum c i)) in Hin;
          [|done|done].
        apply Hin. cbn. rewrite Heq. apply list_elem_of_here. }
      intros j Hj. unfold update.
      destruct (decide (j = i)) as [->|Hji].
      * destruct (decide (substitute fs i = i)) as [Heq|Hne]; [done|].
        apply Hfs in Hne as [_ Hi]. subst F. cbn in Hi.
        apply list_elem_of_filter in Hi as [? _]. done.
      * assert (HjF : j ∈ F) by (subst F; cbn; by apply list_elem_of_filter).
        rewrite Hrho, <- Hsub by done.
        destruct (decide (substitute fs j = i)) as [Heq|Hne]; [|done].
        exfalso. destruct (decide (substitute fs j = j)) as [Hid|Hnid].
        -- congruence.
        -- by apply Hfs in Hnid as [? _].
  - cbn. rewrite !Hrho, !Hsub; [done| | | |];
      subst F; cbn; rewrite !elem_of_cons; auto.
Qed.

End GemFacts.

(** ** Dummy-index reconciliation *)

Lemma assoc_zip_lookup {K V} `{EqDecision K} (ks : list K) (vs : list V) n k v :
  NoDup ks -> ks !! n = Some k -> vs !! n = Some v ->
  assoc k (zip ks vs) = Some v.
Proof.
  revert vs n. induction ks as [|k' ks IH]; intros vs n Hnd Hk Hv; [done|].
  destruct vs as [|v' vs]; [by destruct n|]. cbn.
  apply NoDup_cons in Hnd as [Hk' Hnd].
  destruct n as [|n]; cbn in *.
  - injection Hk as ->. injection Hv as ->. by rewrite decide_True.
  - rewrite decide_False; [by eapply IH|].
    intros ->. apply Hk'. by eapply list_elem_of_lookup_2.
Qed.

Lemma assoc_zip_None {K V} `{EqDecision K} (ks : list K) (vs : list V) k :
  k ∉ ks -> assoc k (zip ks vs) = None.
Proof.
  revert vs. induction ks as [|k' ks IH]; intros vs Hk; [done|].
  destruct vs as [|v' vs]; [done|]. cbn.
  apply not_elem_of_cons in Hk as [Hne Hk].
  rewrite decide_False by done. by apply IH.
Qed.

Lemma assoc_zip_same {K} `{EqDecision K} (ks : list K) k :
  default k (assoc k (zip ks ks)) = k.
Proof.
  induction ks as [|k' ks IH]; [done|]. cbn.
  destruct (decide (k = k')) as [->|]; [done | apply IH].
Qed.

Lemma concat_lookup_aligned {A B} (xss : list (list A)) (yss : list (list B)) :
  map length xss = map length yss ->
  ∀ k j xs ys x y,
    xss !! k = Some xs -> yss !! k = Some ys ->
    xs !! j = Some x -> ys !! j = Some y ->
    ∃ n, concat xss !! n = Some x ∧ concat yss !! n = Some y.
Proof.
  revert yss. induction xss as [|xs0 xss IH]; intros yss Hlen k j xs ys x y;
    [done|].
  destruct yss as [|ys0 yss]; [done|]. cbn in Hlen.
  injection Hlen as Hlen0 Hlen.
  destruct k as [|k]; cbn.
  - intros [= ->] [= ->] Hx Hy. exists j.
    split; by apply lookup_app_l_Some.
  - intros Hxs Hys Hx Hy.
    destruct (IH yss Hlen k j xs ys x y Hxs Hys Hx Hy) as (n & Hn1 & Hn2).
    exists (length xs0 + n)%nat. split.
    + by rewrite lookup_app_r, Nat.add_comm, Nat.add_sub by lia.
    + rewrite Hlen0. by rewrite lookup_app_r, Nat.add_comm, Nat.add_sub by lia.
Qed.

Lemma shape_of_lookup (dummy true_ : list (list Gem.Index)) k dm :
  shape_of dummy = shape_of true_ -> dummy !! k = Some dm ->
  ∃ tm, true_ !! k = Some tm ∧ map Gem.extent dm = map Gem.extent tm.
Proof.
  intros Hshape Hk. apply (f_equal (λ l, l !! k)) in Hshape.
  unfold shape_of in Hshape. rewrite !list_lookup_fmap, Hk in Hshape.
  destruct (true_ !! k) as [tm|]; [|done]. injection Hshape as Hshape.
  by exists tm.
Qed.

Lemma shape_of_lengths (dummy true_ : list (list Gem.Index)) :
  shape_of dummy = shape_of true_ -> map length dummy = map length true_.
Proof.
  assert (Hlen : ∀ l : list (list Gem.Index),
             map length (shape_of l) = map length l).
  { induction l as [|x l IH]; cbn; [done|]. rewrite length_map. f_equal. exact IH. }
  intros Hshape. by rewrite <- (Hlen dummy), Hshape, Hlen.
Qed.

Lemma shape_of_concat (dummy true_ : list (list Gem.Index)) :
  shape_of dummy = shape_of true_ ->
  map Gem.extent (concat dummy) = map Gem.extent (concat true_).
Proof.
  intros Hshape. apply (f_equal (@concat nat)) in Hshape.
  unfold shape_of in Hshape. by rewrite <- !concat_map in Hshape.
Qed.


Section Reconciliation.
Context (dummy true_ : list (list Gem.Index)).
Let substitution : Gem.Subst := zip (concat dummy) (concat true_).
Hypothesis dummy_distinct : NoDup (concat dummy).
Hypothesis same_shape : shape_of dummy = shape_of true_.

Lemma substitute_paired k j dm tm d t :
  dummy !! k = Some dm -> true_ !! k = Some tm ->
  dm !! j = Some d -> tm !! j = Some t ->
  Gem.substitute substitution d = t.
Proof.
  intros Hdm Htm Hd Ht.
  destruct (concat_lookup_aligned dummy true_ (shape_of_lengths _ _ same_shape)
              k j dm tm d t Hdm Htm Hd Ht) as (n & Hn1 & Hn2).
  unfold Gem.substitute, substitution.
  by rewrite (assoc_zip_lookup _ _ n d t).
Qed.

Lemma substitute_other i :
  i ∉ concat dummy -> Gem.substitute substitution i = i.
Proof.
  intros Hi. unfold Gem.substitute, substitution.
  by rewrite assoc_zip_None.
Qed.

Lemma through_paired (rho : Gem.Assignment) :
  map (map (Gem.through substitution rho)) dummy = map (map rho) true_.
Proof.
  apply list_eq. intros k. rewrite !list_lookup_fmap.
  destruct (dummy !! k) as [dm|] eqn:Hdm; cbn.
  - destruct (shape_of_lookup _ _ k dm same_shape Hdm) as (tm & Htm & Hext).
    rewrite Htm. cbn. f_equal.
    apply list_eq. intros j. rewrite !list_lookup_fmap.
    assert (Hlen : length dm = length tm)
      by (by rewrite <- (length_map Gem.extent dm), Hext, length_map).
    destruct (dm !! j) as [d|] eqn:Hd; cbn.
    + destruct (lookup_lt_is_Some_2 tm j) as [t Ht].
      { rewrite <- Hlen. by eapply lookup_lt_Some. }
      rewrite Ht. cbn. unfold Gem.through.
      by rewrite (substitute_paired k j dm tm d t).
    + apply lookup_ge_None in Hd. rewrite Hlen in Hd.
      apply lookup_ge_None in Hd. by rewrite Hd.
  - apply lookup_ge_None in Hdm.
    assert (Hlen : length dummy = length true_).
    { by rewrite <- (length_map (map Gem.extent) dummy),
        <- (length_map (map Gem.extent) true_); fold (shape_of dummy);
        fold (shape_of true_); rewrite same_shape. }
    rewrite Hlen in Hdm. apply lookup_ge_None in Hdm. by rewrite Hdm.
Qed.

Lemma through_within_extents (rho : Gem.Assignment) :
  Gem.within_extents rho -> Gem.within_extents (Gem.through substitution rho).
Proof.
  intros Hrho i Hpos. unfold Gem.through.
  destruct (decide (i ∈ concat dummy)) as [Hi|Hi].
  - apply list_elem_of_lookup in Hi as [n Hn].
    pose proof (shape_of_concat _ _ same_shape) as Hext.
    assert (Hlen : length (concat dummy) = length (concat true_))
      by (by rewrite <- (length_map Gem.extent), Hext, length_map).
    destruct (lookup_lt_is_Some_2 (concat true_) n) as [t Ht].
    { rewrite <- Hlen. by eapply lookup_lt_Some. }
    assert (Hsub : Gem.substitute substitution i = t).
    { unfold Gem.substitute, substitution.
      by rewrite (assoc_zip_lookup _ _ n i t). }
    rewrite Hsub.
    apply (f_equal (λ l, l !! n)) in Hext.
    rewrite !list_lookup_fmap, Hn, Ht in Hext. injection Hext as Hext.
    rewrite Hext in *. by apply Hrho.
  - rewrite substitute_other by done. by apply Hrho.
Qed.

End Reconciliation.

Lemma through_same (xs : list Gem.Index) (rho : Gem.Assignment) (i : Gem.Index) :
  Gem.through (zip xs xs) rho i = rho i.
Proof. unfold Gem.through, Gem.substitute. by rewrite assoc_zip_same. Qed.

Lemma replace_argument_multiindices_dummy_eval
    (expressions : list Gem.expr) (kernel_config : KernelConfig)
    (data : Gem.Data) (rho : Gem.Assignment) (p : list nat) :
  let substitution :=
    zip (concat (argument_multiindices_dummy (fem_config kernel_config)))
        (concat (argument_multiindices (fem_config kernel_config))) in
  Forall (Gem.capture_free substitution) expressions ->
  map (λ e, Gem.eval data e rho p)
      (replace_argument_multiindices_dummy expressions kernel_config)
  = map (λ e, Gem.eval data e (Gem.through substitution rho) p) expressions.
Proof.
  intros substitution Hcap. unfold replace_argument_multiindices_dummy.
  destruct (decide (argument_multiindices_dummy (fem_config kernel_config)
                    = argument_multiindices (fem_config kernel_config)))
    as [Heq|Hne].
  - apply map_ext. intros e. apply GemFacts.eval_ext. intros i _.
    subst substitution. rewrite Heq. by rewrite through_same.
  - rewrite map_map. apply map_ext_in. intros e He.
    apply GemFacts.filtered_replace_indices_eval; [|done].
    rewrite Forall_forall in Hcap. apply Hcap. by apply list_elem_of_In.
Qed.

(** C2. The reconciler returns its input when the dummy and the true
    multiindices are the same objects, and otherwise rewrites every
    expression with the substitution that pairs the flattened dummy
    indices with the flattened true indices.  When the dummy indices are
    distinct and the two sets have the same shape, that substitution
    sends the dummy index at position [j] of argument [k] to the true
    index at the same place and leaves every other index alone; the
    reconciled expressions have, under every assignment, the value that
    the input has when each dummy index reads the value of its true
    index, provided no true index is bound in them.  Hence, for a
    compilation whose expressions depend on the argument indices through
    their values only, compiling over the dummy indices and reconciling
    evaluates like compiling over the true indices, at every assignment
    within the extents. *)
Theorem dummy_index_reconciliation
    (expressions : list Gem.expr) (kernel_config : KernelConfig) :
  let true_ := argument_multiindices (fem_config kernel_config) in
  let dummy := argument_multiindices_dummy (fem_config kernel_config) in
  let substitution := zip (concat dummy) (concat true_) in
  (dummy = true_ ->
   replace_argument_multiindices_dummy expressions kernel_config = expressions)
  ∧ (dummy ≠ true_ ->
     replace_argument_multiindices_dummy expressions kernel_config
     = map (λ e, Gem.filtered_replace_indices e substitution) expressions)
  ∧ (∀ data rho p,
       Forall (Gem.capture_free substitution) expressions ->
       map (λ e, Gem.eval data e rho p)
           (replace_argument_multiindices_dummy expressions kernel_config)
       = map (λ e, Gem.eval data e (Gem.through substitution rho) p) expressions)
  ∧ (NoDup (concat dummy) -> shape_of dummy = shape_of true_ ->
     (∀ k j dm tm d t,
        dummy !! k = Some dm -> true_ !! k = Some tm ->
        dm !! j = Some d -> tm !! j = Some t ->
        Gem.substitute substitution d = t)
     ∧ (∀ i, i ∉ concat dummy -> Gem.substitute substitution i = i)
     ∧ (∀ (data : Gem.Data) (p : list nat)
          (compile_ufl : list (list Gem.Index) -> list Gem.expr)
          (value : list (list nat) -> Gem.Assignment -> list Z),
          (∀ multiindices rho,
             Gem.within_extents rho ->
             map (λ e, Gem.eval data e rho p) (compile_ufl multiindices)
             = value (map (map rho) multiindices) rho) ->
          (∀ positions rho rho',
             (∀ i, i ∉ concat dummy -> rho i = rho' i) ->
             value positions rho = value positions rho') ->
          Forall (Gem.capture_free substitution) (compile_ufl dummy) ->
          ∀ rho, Gem.within_extents rho ->
            map (λ e, Gem.eval data e rho p)
                (replace_argument_multiindices_dummy (compile_ufl dummy)
                   kernel_config)
            = map (λ e, Gem.eval data e rho p) (compile_ufl true_))).
Proof.
  intros true_ dummy substitution.
  split.
  { intros Heq. unfold replace_argument_multiindices_dummy.
    by rewrite decide_True. }
  split.
  { intros Hne. unfold replace_argument_multiindices_dummy.
    by rewrite decide_False. }
  split.
  { intros data rho p Hcap.
    by apply replace_argument_multiindices_dummy_eval. }
  intros Hnd Hshape.
  split; [intros k j dm tm d t; by apply substitute_paired|].
  split; [intros i; by apply substitute_other|].
  intros data p compile_ufl value Hvalue Hframe Hcap rho Hrho.
  rewrite (replace_argument_multiindices_dummy_eval
             (compile_ufl dummy) kernel_config data rho p Hcap).
  fold true_ dummy substitution.
  rewrite Hvalue by (by apply through_within_extents).
  change (Gem.through substitution rho)
    with (Gem.through (zip (concat dummy) (concat true_)) rho).
  rewrite (through_paired dummy true_ Hnd Hshape rho).
  rewrite (Hframe _ _ rho); [by rewrite <- Hvalue|].
  intros i Hi. unfold Gem.through. by rewrite substitute_other.
Qed.


(** ** Index allocation *)


Lemma advance_0 rt : advance rt 0 = rt.
Proof. destruct rt. unfold advance. cbn. by rewrite Nat.add_0_r. Qed.

Lemma advance_advance rt n m : advance (advance rt n) m = advance rt (n + m).
Proof. unfold advance. cbn. f_equal. lia. Qed.

Lemma forM_new_Index {A} (f : A -> nat) (xs : list A) (rt : Runtime) :
  forM (λ a, new_Index (f a)) xs rt
  = (Ok (indices_from (next_index rt) (map f xs)), advance rt (length xs)).
Proof.
  revert rt. induction xs as [|x xs IH]; intros rt; cbn.
  - by rewrite advance_0.
  - unfold mbind, M_bind. cbn. rewrite IH. cbn.
    unfold advance. cbn. do 2 f_equal. lia.
Qed.

Lemma forM_multiindices {A B} (f : B -> nat) (h : A -> list B)
    (xs : list A) (rt : Runtime) :
  forM (λ x, forM (λ a, new_Index (f a)) (h x)) xs rt
  = (Ok (multiindices_from (next_index rt) (map (λ x, map f (h x)) xs)),
     advance rt (length (concat (map h xs)))).
Proof.
  revert rt. induction xs as [|x xs IH]; intros rt; cbn.
  - by rewrite advance_0.
  - unfold mbind, M_bind. rewrite forM_new_Index, IH. cbn.
    rewrite length_map, advance_advance, length_app. reflexivity.
Qed.

Lemma shape_of_indices_from n es : map Gem.extent (indices_from n es) = es.
Proof. revert n. induction es as [|e es IH]; intros n; cbn; [done|]. by rewrite IH. Qed.

Lemma shape_of_multiindices_from n shapes :
  shape_of (multiindices_from n shapes) = shapes.
Proof.
  revert n. induction shapes as [|es shapes IH]; intros n; cbn; [done|].
  unfold shape_of in IH. by rewrite shape_of_indices_from, IH.
Qed.

Lemma indices_from_ids n es i :
  i ∈ indices_from n es -> (n <= Gem.idx_id i < n + length es)%nat.
Proof.
  revert n. induction es as [|e es IH]; intros n; cbn.
  - by intros ?%elem_of_nil.
  - intros [->|Hi]%elem_of_cons; cbn; [lia|]. apply IH in Hi. lia.
Qed.

Lemma multiindices_from_ids n shapes i :
  i ∈ concat (multiindices_from n shapes) ->
  (n <= Gem.idx_id i < n + length (concat shapes))%nat.
Proof.
  revert n. induction shapes as [|es shapes IH]; intros n; cbn.
  - by intros ?%elem_of_nil.
  - rewrite length_app. intros [Hi|Hi]%elem_of_app.
    + apply indices_from_ids in Hi. lia.
    + apply IH in Hi. lia.
Qed.

Lemma ids_of_indices_from n es :
  map Gem.idx_id (indices_from n es) = seq n (length es).
Proof. revert n. induction es as [|e es IH]; intros n; cbn; [done|]. by rewrite IH. Qed.

Lemma ids_of_multiindices_from n shapes :
  map Gem.idx_id (concat (multiindices_from n shapes))
  = seq n (length (concat shapes)).
Proof.
  revert n. induction shapes as [|es shapes IH]; intros n; cbn; [done|].
  by rewrite map_app, ids_of_indices_from, IH, length_app, seq_app.
Qed.

Lemma NoDup_multiindices_from n shapes :
  NoDup (concat (multiindices_from n shapes)).
Proof.
  apply (NoDup_fmap_1 Gem.idx_id).
  change (NoDup (map Gem.idx_id (concat (multiindices_from n shapes)))).
  rewrite ids_of_multiindices_from. apply NoDup_seq.
Qed.

Lemma length_concat_multiindices_from n shapes :
  length (concat (multiindices_from n shapes)) = length (concat shapes).
Proof.
  rewrite <- (length_map Gem.extent), concat_map.
  fold (shape_of (multiindices_from n shapes)).
  by rewrite shape_of_multiindices_from.
Qed.

Section KernelConfigProperties.
Context `{Collaborators}.

Lemma create_kernel_config_inv kernel_name form_data integral_data parameters
    diagonal rt cfg rt' :
  create_kernel_config kernel_name form_data integral_data parameters diagonal rt
  = (Ok cfg, rt') ->
  name cfg = kernel_name
  ∧ kc_arguments cfg = tfd_arguments form_data
  ∧ argument_multiindices_dummy (fem_config cfg) = allocated_dummy form_data rt
  ∧ (if diagonal then
       ∃ a b, allocated_true form_data rt = [a; b]
              ∧ argument_multiindices (fem_config cfg) = [a; a]
     else argument_multiindices (fem_config cfg) = allocated_true form_data rt).
Proof.
  unfold create_kernel_config, get_indices, allocated_true, allocated_dummy.
  unfold mbind at 1, M_bind at 1.
  rewrite (forM_multiindices id
             (λ arg, index_shape (ufl_element (ufl_function_space arg)))).
  unfold mbind at 1, M_bind at 1.
  rewrite (forM_multiindices Gem.extent id).
  rewrite !map_id.
  assert (Hshapes : map (λ x, map id (index_shape (ufl_element (ufl_function_space x))))
                      (tfd_arguments form_data)
                    = argument_shapes (tfd_arguments form_data)).
  { unfold argument_shapes. apply map_ext. intros a. apply map_id. }
  rewrite Hshapes.
  change (map (λ x, map Gem.extent (id x)) ?l) with (shape_of l).
  rewrite shape_of_multiindices_from.
  cbn [advance next_index].
  set (true0 :=
         multiindices_from (next_index rt)
           (argument_shapes (tfd_arguments form_data))).
  set (dummy0 := multiindices_from _ (argument_shapes (tfd_arguments form_data))).
  intros Hcfg.
  clearbody dummy0.
  unfold mbind, M_bind, create_fem_config, lift, raise, mret, M_ret in Hcfg.
  destruct diagonal.
  - destruct true0 as [|a [|b [|c l]]]; cbn in Hcfg; try done.
    destruct (parameters !! "scalar_type"); cbn in Hcfg; [|done].
    destruct (lower_integral_type _ _) as [[d ids]|]; cbn in Hcfg; [|done].
    injection Hcfg as <- _. cbn. eauto 10.
  - destruct (parameters !! "scalar_type"); cbn in Hcfg; [|done].
    destruct (lower_integral_type _ _) as [[d ids]|]; cbn in Hcfg; [|done].
    injection Hcfg as <- _. cbn. eauto 10.
Qed.


Lemma create_kernel_config_ok kernel_name form_data integral_data parameters
    diagonal rt st d ids :
  parameters !! "scalar_type" = Some st ->
  lower_integral_type (as_fiat_cell (ufl_cell (tid_domain integral_data)))
    (tid_integral_type integral_data) = Ok (d, ids) ->
  (diagonal = false ∨ ∃ test trial, tfd_arguments form_data = [test; trial]) ->
  ∃ cfg rt',
    create_kernel_config kernel_name form_data integral_data parameters
      diagonal rt = (Ok cfg, rt').
Proof.
  intros Hst Hlower Hdiag.
  unfold create_kernel_config, get_indices.
  unfold mbind at 1, M_bind at 1.
  rewrite (forM_multiindices id
             (λ arg, index_shape (ufl_element (ufl_function_space arg)))).
  unfold mbind at 1, M_bind at 1.
  rewrite (forM_multiindices Gem.extent id).
  unfold mbind, M_bind, create_fem_config, lift, raise, mret, M_ret.
  destruct Hdiag as [->|(test & trial & Hargs)].
  - rewrite Hst. cbn. rewrite Hlower. cbn. eauto.
  - rewrite Hargs. destruct diagonal; cbn; rewrite Hst; cbn; rewrite Hlower;
      cbn; eauto.
Qed.

(** C7, amended.  When the diagonal is not requested, or is requested
    for a test and a trial argument of equal index extents, every kernel
    configuration that is built has dummy multiindices of the shape of
    the true ones, which is the shape the arguments declare; the dummy
    indices are distinct objects, none of which is a true index.  Such a
    configuration is built whenever the scalar type is given and the
    integral type can be lowered. *)
Theorem dummy_multiindices_same_shape
    (kernel_name : string) (form_data : TSFCFormData)
    (integral_data : TSFCIntegralData) (parameters : Params)
    (diagonal : bool) (rt : Runtime) :
  (diagonal = false
   ∨ ∃ test trial,
       tfd_arguments form_data = [test; trial]
       ∧ index_shape (ufl_element (ufl_function_space test))
         = index_shape (ufl_element (ufl_function_space trial))) ->
  (∀ cfg rt',
     create_kernel_config kernel_name form_data integral_data parameters
       diagonal rt = (Ok cfg, rt') ->
     shape_of (argument_multiindices_dummy (fem_config cfg))
     = shape_of (argument_multiindices (fem_config cfg))
     ∧ shape_of (argument_multiindices_dummy (fem_config cfg))
       = argument_shapes (tfd_arguments form_data)
     ∧ NoDup (concat (argument_multiindices_dummy (fem_config cfg)))
     ∧ (∀ i j,
          i ∈ concat (argument_multiindices_dummy (fem_config cfg)) ->
          j ∈ concat (argument_multiindices (fem_config cfg)) ->
          Gem.idx_id i ≠ Gem.idx_id j))
  ∧ (∀ st d ids,
       parameters !! "scalar_type" = Some st ->
       lower_integral_type (as_fiat_cell (ufl_cell (tid_domain integral_data)))
         (tid_integral_type integral_data) = Ok (d, ids) ->
       ∃ cfg rt',
         create_kernel_config kernel_name form_data integral_data parameters
           diagonal rt = (Ok cfg, rt')).
Proof.
  intros Hlegal. split.
  - intros cfg rt' Hcfg.
    apply create_kernel_config_inv in Hcfg as (_ & _ & Hdummy & Htrue).
    rewrite Hdummy. unfold allocated_dummy, allocated_true in *.
    rewrite shape_of_multiindices_from.
    assert (Hfresh : ∀ i j,
              i ∈ concat (multiindices_from
                    (next_index rt
                     + length (concat (argument_shapes (tfd_arguments form_data))))
                    (argument_shapes (tfd_arguments form_data))) ->
              j ∈ concat (multiindices_from (next_index rt)
                            (argument_shapes (tfd_arguments form_data))) ->
              Gem.idx_id i ≠ Gem.idx_id j).
    { intros i j Hi%multiindices_from_ids Hj%multiindices_from_ids. lia. }
    destruct diagonal.
    + destruct Hlegal as [|(test & trial & Hargs & Hshape)]; [done|].
      destruct Htrue as (a & b & Hab & ->).
      pose proof (shape_of_multiindices_from (next_index rt)
                    (argument_shapes (tfd_arguments form_data))) as Hs.
      assert (Hshapes : argument_shapes (tfd_arguments form_data)
                        = [index_shape (ufl_element (ufl_function_space trial));
                           index_shape (ufl_element (ufl_function_space trial))])
        by (rewrite Hargs; cbn; by rewrite Hshape).
      rewrite Hab, Hshapes in Hs. cbn in Hs. injection Hs as Ha Hb.
      split; [rewrite Hshapes; cbn; by rewrite Ha|].
      split; [done|].
      split; [apply NoDup_multiindices_from|].
      intros i j Hi Hj. apply (Hfresh i j Hi).
      rewrite Hab. cbn in *. rewrite app_nil_r in Hj.
      apply elem_of_app in Hj as [Hj|Hj]; apply elem_of_app; by left.
    + rewrite Htrue, shape_of_multiindices_from.
      split; [done|]. split; [done|].
      split; [apply NoDup_multiindices_from | exact Hfresh].
  - intros st d ids Hst Hlower.
    eapply create_kernel_config_ok; [done..|].
    destruct Hlegal as [|(test & trial & Hargs & _)]; eauto.
Qed.

End KernelConfigProperties.

Section DiagonalProperties.
Context `{Collaborators}.
Context {Builder Kernel Representation : Type}.
Variable firedrake_interface_coffee firedrake_interface_loopy
  : @KernelInterface Builder Kernel Representation.

(** C6.  For the diagonal of a form with a test and a trial argument,
    the true argument multiindices of the kernel configuration are twice
    the multiindex allocated for the test argument, the same index
    objects; the configuration is built without regard to the extents of
    the two spaces.  With a registration step that behaves as section 6
    describes, compiling the integral then fails with
    UnsupportedArgumentShapeError when the extents differ. *)
Theorem diagonal_uses_test_multiindex
    (config_name prefix : string) (form_data : TSFCFormData)
    (integral_data : TSFCIntegralData) (parameters : Params)
    (test trial : Argument) :
  tfd_arguments form_data = [test; trial] ->
  (∀ rt cfg rt',
     create_kernel_config config_name form_data integral_data parameters
       true rt = (Ok cfg, rt') ->
     argument_multiindices (fem_config cfg)
     = [indices_from (next_index rt)
          (index_shape (ufl_element (ufl_function_space test)));
        indices_from (next_index rt)
          (index_shape (ufl_element (ufl_function_space test)))])
  ∧ (∀ rt st d ids,
       parameters !! "scalar_type" = Some st ->
       lower_integral_type (as_fiat_cell (ufl_cell (tid_domain integral_data)))
         (tid_integral_type integral_data) = Ok (d, ids) ->
       ∃ cfg rt',
         create_kernel_config config_name form_data integral_data parameters
           true rt = (Ok cfg, rt'))
  ∧ (∀ (interface : @KernelInterface Builder Kernel Representation)
       (coffee : bool) builder rt0 rt1 st0 st d ids,
       index_shape (ufl_element (ufl_function_space test))
       ≠ index_shape (ufl_element (ufl_function_space trial)) ->
       parameters !! (if coffee then "scalar_type_c" else "scalar_type")
       = Some st0 ->
       interface_init interface None (tid_integral_type integral_data) st0
         true integral_data rt0 = (Ok builder, rt1) ->
       parameters !! "scalar_type" = Some st ->
       lower_integral_type (as_fiat_cell (ufl_cell (tid_domain integral_data)))
         (tid_integral_type integral_data) = Ok (d, ids) ->
       (∀ cfg rt, set_arguments interface builder cfg rt
                  = spec_set_arguments true builder cfg rt) ->
       ∃ rt2,
         compile_integral firedrake_interface_coffee firedrake_interface_loopy
           integral_data form_data prefix parameters (Some interface)
           coffee true rt0
         = (Raise UnsupportedArgumentShapeError, rt2)).
Proof.
  intros Hargs. split.
  { intros rt cfg rt' Hcfg.
    apply create_kernel_config_inv in Hcfg as (_ & _ & _ & a & b & Hab & ->).
    unfold allocated_true in Hab. rewrite Hargs in Hab. cbn in Hab.
    by injection Hab as <- _. }
  split.
  { intros rt st d ids Hst Hlower.
    eapply create_kernel_config_ok; eauto. }
  intros interface coffee builder rt0 rt1 st0 st d ids Hne Hst0 Hinit Hst
    Hlower Hset.
  destruct (create_kernel_config_ok
              (kernel_name prefix (tid_integral_type integral_data)
                 (tid_subdomain_id integral_data))
              form_data integral_data parameters true rt1 st d ids Hst Hlower)
    as (cfg & rt2 & Hcfg); [eauto|].
  exists rt2. unfold compile_integral.
  unfold mbind, M_bind, lift. rewrite Hst0. cbn. rewrite Hinit, Hcfg, Hset.
  apply create_kernel_config_inv in Hcfg as (_ & Hkc & _).
  unfold spec_set_arguments. rewrite Hkc, Hargs.
  by rewrite decide_False.
Qed.

End DiagonalProperties.


(** ** Kernel names *)

Lemma append_String (c : ascii) (a b : string) :
  String c a +:+ b = String c (a +:+ b).
Proof. reflexivity. Qed.

Lemma append_empty (b : string) : "" +:+ b = b.
Proof. reflexivity. Qed.

Lemma append_associative (a b c : string) :
  (a +:+ b) +:+ c = a +:+ (b +:+ c).
Proof.
  induction a as [|x a IH]; [done|]. by rewrite !append_String, IH.
Qed.

Lemma replace_append (old new : ascii) (a b : string) :
  replace old new (a +:+ b) = replace old new a +:+ replace old new b.
Proof.
  induction a as [|c a IH]; [done|].
  rewrite append_String. cbn. by rewrite append_String, IH.
Qed.

Lemma all_chars_append (p : ascii -> bool) (a b : string) :
  all_chars p (a +:+ b) = all_chars p a && all_chars p b.
Proof.
  induction a as [|c a IH]; [done|].
  rewrite append_String. cbn. by rewrite IH, andb_assoc.
Qed.

Lemma all_chars_impl (p q : ascii -> bool) (s : string) :
  (∀ c, p c = true -> q c = true) -> all_chars p s = true -> all_chars q s = true.
Proof.
  intros Hpq. induction s as [|c s IH]; cbn; [done|].
  intros [Hc Hs]%andb_prop. by rewrite (Hpq c Hc), IH.
Qed.

Lemma replace_dash_free (s : string) :
  all_chars (λ c, negb (Ascii.eqb c "-")) (replace "-" "_" s) = true.
Proof.
  induction s as [|c s IH]; cbn; [done|]. rewrite IH, andb_true_r.
  destruct (Ascii.eqb c "-") eqn:E; [done | by rewrite E].
Qed.

Lemma replace_identifier_chars (s : string) :
  all_chars (λ c, identifier_char c || Ascii.eqb c "-") s = true ->
  all_chars identifier_char (replace "-" "_" s) = true.
Proof.
  induction s as [|c s IH]; cbn; [done|].
  intros [Hc Hs]%andb_prop. rewrite (IH Hs), andb_true_r.
  destruct (Ascii.eqb c "-"); [done | by rewrite orb_false_r in Hc].
Qed.

Lemma digits_of_uint (d : Decimal.uint) :
  all_chars is_digit (NilEmpty.string_of_uint d) = true.
Proof. induction d; cbn; try done. Qed.

Lemma str_of_Z_chars (z : Z) :
  all_chars (λ c, identifier_char c || Ascii.eqb c "-") (str_of_Z z) = true.
Proof.
  assert (Hu : ∀ d, all_chars (λ c, identifier_char c || Ascii.eqb c "-")
                      (NilZero.string_of_uint d) = true).
  { intros d. apply (all_chars_impl is_digit).
    - intros c Hc. unfold identifier_char. by rewrite Hc, orb_true_r.
    - destruct d; try apply (digits_of_uint (_ d)); done. }
  unfold str_of_Z. destruct (Z.to_int z) as [d|d]; cbn; [apply Hu|].
  apply Hu.
Qed.

Lemma identifier_start_not_dash (c : ascii) :
  identifier_start c = true -> Ascii.eqb c "-" = false.
Proof.
  intros Hc. destruct (Ascii.eqb c "-") eqn:E; [|done].
  apply Ascii.eqb_eq in E. subst c. done.
Qed.

Lemma kernel_name_identifier (prefix it : string) (z : Z) :
  is_identifier prefix = true ->
  all_chars identifier_char it = true ->
  is_identifier (kernel_name prefix it (SubInt z)) = true.
Proof.
  intros Hp Hit. unfold kernel_name. cbn [str_of_subdomain_id].
  destruct prefix as [|c prefix]; [done|]. cbn in Hp.
  apply andb_prop in Hp as [Hc Hp]. rewrite append_String. cbn.
  rewrite (identifier_start_not_dash c Hc), Hc. cbn.
  apply replace_identifier_chars.
  rewrite !all_chars_append, str_of_Z_chars, andb_true_r.
  assert (Hweak : ∀ s, all_chars identifier_char s = true ->
            all_chars (λ c, identifier_char c || Ascii.eqb c "-") s = true).
  { intros s. apply all_chars_impl. intros a Ha. by rewrite Ha. }
  by rewrite (Hweak prefix Hp), (Hweak it Hit).
Qed.

Lemma replace_absent (old new : ascii) (s : string) :
  all_chars (λ c, negb (Ascii.eqb c old)) s = true -> replace old new s = s.
Proof.
  induction s as [|c s IH]; cbn; [done|].
  intros [Hc Hs]%andb_prop. rewrite (IH Hs).
  by destruct (Ascii.eqb c old).
Qed.

Lemma str_of_Z_digits (z : Z) :
  0 <= z -> all_chars is_digit (str_of_Z z) = true.
Proof.
  intros Hz. unfold str_of_Z.
  destruct z as [|p|p]; [done | | lia]. cbn.
  destruct (Pos.to_uint p) eqn:E; try apply (digits_of_uint (_ _)). done.
Qed.

Lemma str_of_Z_negative (z : Z) :
  z < 0 -> str_of_Z z = "-" +:+ str_of_Z (- z).
Proof. intros Hz. destruct z as [|p|p]; [lia | lia | reflexivity]. Qed.

Lemma replace_str_of_Z (z : Z) :
  replace "-" "_" (str_of_Z z)
  = if Z.ltb z 0 then "_" +:+ str_of_Z (- z) else str_of_Z z.
Proof.
  assert (Hdigits : ∀ z, 0 <= z -> replace "-" "_" (str_of_Z z) = str_of_Z z).
  { intros z' Hz'. apply replace_absent.
    apply (all_chars_impl is_digit); [|by apply str_of_Z_digits].
    intros c Hc. destruct (Ascii.eqb c "-") eqn:E; [|done].
    apply Ascii.eqb_eq in E. by subst c. }
  destruct (Z.ltb_spec z 0) as [Hneg|Hpos]; [|by apply Hdigits].
  rewrite (str_of_Z_negative z Hneg), replace_append.
  rewrite Hdigits by lia. reflexivity.
Qed.

Lemma str_of_Z_inj (z z' : Z) : str_of_Z z = str_of_Z z' -> z = z'.
Proof.
  assert (Hnonnil : ∀ z, Z.to_int z ≠ Decimal.Pos Decimal.Nil
                         ∧ Z.to_int z ≠ Decimal.Neg Decimal.Nil).
  { intros [|p|p]; cbn; split; try done; intros [= Hp];
      by apply DecimalPos.Unsigned.to_uint_nonnil in Hp. }
  unfold str_of_Z. intros Heq. apply DecimalZ.to_int_inj.
  destruct (Hnonnil z) as [H1 H2]. destruct (Hnonnil z') as [H1' H2'].
  pose proof (NilZero.isi _ H1 H2) as Hz.
  pose proof (NilZero.isi _ H1' H2') as Hz'.
  rewrite Heq in Hz. congruence.
Qed.

(** ** One integral data per key *)

Section Grouping.
Context {K V : Type} `{EqDecision K}.

Lemma setdefault_append_keys (k : K) (v : V) (d : list (K * list V)) :
  map fst (setdefault_append k v d)
  = if decide (k ∈ map fst d) then map fst d else map fst d ++ [k].
Proof.
  induction d as [|[k' vs] d IH]; cbn.
  - by rewrite decide_False by apply not_elem_of_nil.
  - destruct (decide (k = k')) as [->|Hne]; cbn.
    + by rewrite decide_True by apply list_elem_of_here.
    + rewrite IH. destruct (decide (k ∈ map fst d)).
      * by rewrite decide_True by (by apply list_elem_of_further).
      * rewrite decide_False; [done|].
        by intros [?|?]%elem_of_cons.
Qed.

Lemma setdefault_append_NoDup (k : K) (v : V) (d : list (K * list V)) :
  NoDup (map fst d) -> NoDup (map fst (setdefault_append k v d)).
Proof.
  intros Hnd. rewrite setdefault_append_keys.
  destruct (decide (k ∈ map fst d)); [done|].
  apply NoDup_app. split; [done|]. split; [|apply NoDup_singleton].
  intros x Hx ->%list_elem_of_singleton. done.
Qed.

Lemma setdefault_append_Forall (Q : K -> list V -> Prop)
    (k : K) (v : V) (d : list (K * list V)) :
  Q k [v] -> (∀ vs, Q k vs -> Q k (vs ++ [v])) ->
  Forall (λ e, Q (fst e) (snd e)) d ->
  Forall (λ e, Q (fst e) (snd e)) (setdefault_append k v d).
Proof.
  intros Hnew Hadd. induction 1 as [|[k' vs] d Hx Hd IH]; cbn.
  - by repeat constructor.
  - destruct (decide (k = k')) as [->|Hne]; constructor; cbn in *; auto.
Qed.

End Grouping.

Lemma mapM_Ok_map {A B C} (f : A -> result B) (g : B -> C) (h : A -> C)
    (xs : list A) (ys : list B) :
  mapM f xs = Ok ys ->
  (∀ x y, x ∈ xs -> f x = Ok y -> g y = h x) ->
  map g ys = map h xs.
Proof.
  revert ys. induction xs as [|x xs IH]; intros ys; cbn.
  - by intros [= <-].
  - destruct (f x) as [y|] eqn:Hy; cbn; [|done].
    destruct (mapM f xs) as [ys'|]; cbn; [|done].
    intros [= <-] Hgh. cbn. f_equal.
    + apply Hgh; [apply list_elem_of_here | done].
    + apply IH; [done|]. intros x' y' Hx'. apply Hgh. by apply list_elem_of_further.
Qed.

Lemma TSFCIntegralData_key idt fd tfd d :
  TSFCIntegralData__init__ idt fd tfd = Ok d ->
  ∃ i0, head idt = Some i0 ∧ tid_key d = integral_key i0.
Proof.
  unfold TSFCIntegralData__init__.
  destruct (head idt) as [i0|]; cbn; [|done].
  repeat match goal with
         | |- mbind _ ?m = Ok _ -> _ => destruct m; cbn; [|done]
         end.
  intros [= <-]. by exists i0.
Qed.


Lemma group_integral_data_invariant (pairs : list (FormData * IntegralData)) :
  ∀ d1 d2,
    map fst d1 = map fst d2 -> NoDup (map fst d1) ->
    Forall (λ e, keyed (fst e) (snd e)) d1 ->
    let r := fold_left
               (λ dicts fi,
                  let key := integral_key (snd fi) in
                  (setdefault_append key (snd fi) (fst dicts),
                   setdefault_append key (fst fi) (snd dicts)))
               pairs (d1, d2) in
    map fst (fst r) = map fst (snd r)
    ∧ NoDup (map fst (fst r))
    ∧ Forall (λ e, keyed (fst e) (snd e)) (fst r)
    ∧ (∀ k, k ∈ map fst (fst r)
            <-> k ∈ map fst d1 ∨ ∃ fi, fi ∈ pairs ∧ integral_key (snd fi) = k).
Proof.
  induction pairs as [|fi pairs IH]; intros d1 d2 Hkeys Hnd Hall; cbn.
  - split; [done|]. split; [done|]. split; [done|].
    intros k. split; [auto|]. intros [?|(fi & ?%elem_of_nil & _)]; done.
  - destruct (IH (setdefault_append (integral_key (snd fi)) (snd fi) d1)
                 (setdefault_append (integral_key (snd fi)) (fst fi) d2))
      as (H1 & H2 & H3 & H4).
    + by rewrite !setdefault_append_keys, Hkeys.
    + by apply setdefault_append_NoDup.
    + apply (setdefault_append_Forall keyed); [| |done].
      * by exists (snd fi).
      * intros vs (v & Hv & Hk). exists v. split; [|done].
        destruct vs; [done|]. done.
    + split; [done|]. split; [done|]. split; [done|].
      intros k. rewrite H4, setdefault_append_keys.
      destruct (decide (integral_key (snd fi) ∈ map fst d1)) as [Hin|Hin].
      * split.
        -- intros [?|(fi' & ? & ?)]; [by left|].
           right. exists fi'. split; [by apply list_elem_of_further | done].
        -- intros [?|(fi' & Hfi & Hk)]; [by left|].
           apply elem_of_cons in Hfi as [->|?].
           ++ left. by rewrite <- Hk.
           ++ right. by exists fi'.
      * rewrite elem_of_app, list_elem_of_singleton. split.
        -- intros [[? | ->] | (fi' & ? & ?)]; [by left| |].
           ++ right. exists fi. split; [apply list_elem_of_here | done].
           ++ right. exists fi'. split; [by apply list_elem_of_further | done].
        -- intros [?|(fi' & Hfi & Hk)]; [by left; left|].
           apply elem_of_cons in Hfi as [->|?].
           ++ left. by right.
           ++ right. by exists fi'.
Qed.

Section CompileProperties.
Context `{Collaborators}.

Lemma TSFCFormData_keys fds original diagonal t :
  TSFCFormData__init__ fds original diagonal = Ok t ->
  NoDup (map tid_key (tfd_integral_data t))
  ∧ (∀ k, k ∈ map tid_key (tfd_integral_data t)
          <-> ∃ fd intg_data,
                fd ∈ fds ∧ intg_data ∈ integral_data fd
                ∧ integral_key intg_data = k).
Proof.
  unfold TSFCFormData__init__.
  destruct (remove_dups (map arguments fds)) as [|a [|b l]]; cbn; try done.
  destruct (head fds); cbn; [|done].
  pose proof (group_integral_data_invariant (all_integral_data fds) [] []
                eq_refl (NoDup_nil_2) (Forall_nil_2 _)) as Hinv.
  cbn in Hinv. unfold group_integral_data.
  fold (all_integral_data fds).
  destruct (fold_left _ (all_integral_data fds) ([], [])) as [d1 d2].
  cbn in Hinv. destruct Hinv as (Hkeys & Hnd & Hall & Hmem).
  match goal with |- context [mapM ?f d1] => destruct (mapM f d1) as [l'|] eqn:Hl end;
    cbn; [|done].
  intros [= <-]. cbn.
  assert (Hmap : map tid_key l' = map fst d1).
  { eapply mapM_Ok_map; [exact Hl|]. intros [k vs] d Hin. cbn.
    destruct (assoc k d2); cbn; [|done].
    destruct (head _); cbn; [|done].
    intros (i0 & Hhead & ->)%TSFCIntegralData_key.
    rewrite Forall_forall in Hall.
    destruct (Hall (k, vs)) as (v & Hv & Hk); [done|].
    cbn in *. congruence. }
  rewrite Hmap. split; [done|]. intros k. rewrite Hmem. split.
  - intros [?%elem_of_nil|((fd & idt) & Hin & Hk)]; [done|].
    exists fd, idt. unfold all_integral_data in Hin.
    apply list_elem_of_In, in_concat in Hin as (l0 & Hl0 & Hin).
    apply in_map_iff in Hl0 as (fd' & <- & Hfd').
    apply in_map_iff in Hin as (idt' & [= <- <-] & Hidt).
    by rewrite !list_elem_of_In.
  - intros (fd & idt & Hfd & Hidt & Hk). right. exists (fd, idt).
    split; [|done]. unfold all_integral_data.
    apply list_elem_of_In, in_concat. exists (map (pair fd) (integral_data fd)).
    split.
    + apply (in_map (λ fd, map (pair fd) (integral_data fd))).
      by apply list_elem_of_In.
    + apply (in_map (pair fd)). by apply list_elem_of_In.
Qed.


End CompileProperties.

Section CompileFormProperties.
Context `{Collaborators}.
Context {Builder Kernel Representation : Type}.
Variable firedrake_interface_coffee firedrake_interface_loopy
  : @KernelInterface Builder Kernel Representation.

Lemma compile_all_filter tsfc_form_data prefix parameters interface coffee
    diagonal integral_data_list rt :
  compile_all firedrake_interface_coffee firedrake_interface_loopy
    tsfc_form_data prefix parameters interface coffee diagonal
    integral_data_list rt
  = (let '(r, rt') :=
       forM (λ integral_data,
               compile_integral firedrake_interface_coffee
                 firedrake_interface_loopy integral_data tsfc_form_data
                 prefix parameters interface coffee diagonal)
            integral_data_list rt in
     (non_null <$> r, rt')).
Proof.
  revert rt. induction integral_data_list as [|x xs IH]; intros rt; cbn.
  - done.
  - unfold mbind, M_bind.
    destruct (compile_integral _ _ x _ _ _ _ _ _ rt) as [[k|e] rt1]; [|done].
    rewrite IH.
    destruct (forM _ xs rt1) as [[ks|e] rt2]; cbn; [|done].
    by destruct k.
Qed.

Lemma compile_one_integral_name
    (interface : @KernelInterface Builder Kernel Representation)
    integral_data parameters functions b cfg integral rt b' cfg' rt' :
  keeps_name interface ->
  compile_one_integral interface integral_data parameters functions
    (b, cfg) integral rt = (Ok (b', cfg'), rt') ->
  name cfg' = name cfg.
Proof.
  intros (_ & Hufl & Hrep & Hstash). unfold compile_one_integral.
  unfold mbind, M_bind.
  destruct (set_quad_rule _ _ _ _ rt) as [[params|e] rt1]; [|done].
  destruct (compile_ufl _ _ _ _ _ rt1) as [[[[es b1] cfg1]|e] rt2] eqn:E1; [|done].
  destruct (construct_integrals _ _ _ _ _ rt2)
    as [[[[reps b2] cfg2]|e] rt3] eqn:E2; [|done].
  intros E3. apply Hufl in E1. apply Hrep in E2. apply Hstash in E3.
  congruence.
Qed.

Lemma foldM_compile_one_integral_name
    (interface : @KernelInterface Builder Kernel Representation)
    integral_data parameters functions integrals b cfg rt b' cfg' rt' :
  keeps_name interface ->
  foldM (compile_one_integral interface integral_data parameters functions)
    (b, cfg) integrals rt = (Ok (b', cfg'), rt') ->
  name cfg' = name cfg.
Proof.
  intros Hkeeps. revert b cfg rt.
  induction integrals as [|i integrals IH]; intros b cfg rt; cbn [foldM].
  - by intros [= _ <- _].
  - unfold mbind, M_bind.
    destruct (compile_one_integral interface _ _ _ _ i rt)
      as [[[b1 cfg1]|e] rt1] eqn:E; [|done].
    intros Hrest. apply IH in Hrest.
    apply (compile_one_integral_name _ _ _ _ _ _ _ _ _ _ _ Hkeeps) in E.
    congruence.
Qed.

(** What a successful [compile_integral] did. *)
Lemma compile_integral_inv integral_data form_data prefix parameters
    (iface : option (@KernelInterface Builder Kernel Representation))
    (coffee diagonal : bool) rt k rt' :
  let interface :=
    match iface with
    | Some i => i
    | None => if coffee then firedrake_interface_coffee
              else firedrake_interface_loopy
    end in
  let formatted :=
    replace "-" "_"
      (prefix +:+ "_" +:+ tid_integral_type integral_data +:+ "_integral_"
              +:+ str_of_subdomain_id (tid_subdomain_id integral_data)) in
  compile_integral firedrake_interface_coffee firedrake_interface_loopy
    integral_data form_data prefix parameters iface coffee diagonal rt
  = (Ok k, rt') ->
  ∃ scalar_type builder0 rt1 cfg0 rt2 builder cfg rt3,
    parameters !! (if coffee then "scalar_type_c" else "scalar_type")
    = Some scalar_type
    ∧ interface_init interface None (tid_integral_type integral_data)
        scalar_type diagonal integral_data rt = (Ok builder0, rt1)
    ∧ create_kernel_config formatted form_data integral_data parameters
        diagonal rt1 = (Ok cfg0, rt2)
    ∧ name cfg0 = formatted
    ∧ construct_kernel interface builder cfg rt3 = (Ok k, rt')
    ∧ (keeps_name interface -> name cfg = formatted).
Proof.
  intros interface formatted. unfold compile_integral.
  fold interface. unfold kernel_name. fold formatted.
  unfold mbind, M_bind, lift.
  destruct (parameters !! (if coffee then "scalar_type_c" else "scalar_type"))
    as [st|] eqn:Hst; [|done]. cbn [from_option].
  destruct (interface_init interface None _ st diagonal integral_data rt)
    as [[b0|e] rt1] eqn:Hinit; [|done].
  destruct (create_kernel_config formatted form_data integral_data parameters
              diagonal rt1) as [[cfg0|e] rt2] eqn:Hcfg; [|done].
  destruct (set_arguments interface b0 cfg0 rt2)
    as [[[b1 cfg1]|e] rt3] eqn:Hset; [|done].
  destruct (coordinate interface b1 _ rt3) as [[x|e] rt4]; [|done].
  destruct (foldM _ (b1, cfg1) _ rt4) as [[[b2 cfg2]|e] rt5] eqn:Hfold; [|done].
  intros Hkernel.
  exists st, b0, rt1, cfg0, rt2, b2, cfg2, rt5.
  pose proof (create_kernel_config_inv _ _ _ _ _ _ _ _ Hcfg) as [Hname _].
  split; [done|]. split; [done|]. split; [done|]. split; [done|].
  split; [done|].
  intros Hkeeps.
  apply (foldM_compile_one_integral_name _ _ _ _ _ _ _ _ _ _ _ Hkeeps) in Hfold.
  destruct Hkeeps as (Hargs & _). apply Hargs in Hset. congruence.
Qed.

(** C5.  [compile_form] returns, in the order of the integral data of
    the aggregated form, the kernels of those for which the backend made
    one: a [None] is dropped and is no error, and an exception of any
    integral ends the compilation.  The aggregated form has exactly one
    integral data for every (domain, integral type, subdomain id) that
    occurs.  The kernel of an integral data is what the backend's
    [construct_kernel] returns for a configuration that started as the
    one [create_kernel_config] made under the name
    prefix_type_integral_id with every '-' replaced by '_'; the
    configuration handed to [construct_kernel] still has that name when
    the backend's methods keep it.  The name holds no '-'; the id of an
    integer is its decimal form, so a negative id -n ends the name in
    "_integral__n", -1 in "_integral__1"; and for an integer id the name
    is an identifier when the prefix is one and the integral type
    consists of identifier characters. *)
Theorem compile_form_kernels
    (form : Form) (prefix : string) (parameters : option Params)
    (interface : option (@KernelInterface Builder Kernel Representation))
    (coffee diagonal : bool) :
  (∀ tsfc_form_data params iface integral_data_list rt,
     compile_all firedrake_interface_coffee firedrake_interface_loopy
       tsfc_form_data prefix params iface coffee diagonal integral_data_list rt
     = (let '(r, rt') :=
          forM (λ integral_data,
                  compile_integral firedrake_interface_coffee
                    firedrake_interface_loopy integral_data tsfc_form_data
                    prefix params iface coffee diagonal)
               integral_data_list rt in
        (non_null <$> r, rt')))
  ∧ (∀ params t rt,
       preprocess_parameters parameters = Ok params ->
       let form_data :=
         compute_form_data form
           (if decide (params = ∅) then false
            else is_complex (params !! "scalar_type")) in
       TSFCFormData__init__ [form_data] (original_form form_data) diagonal
       = Ok t ->
       compile_form firedrake_interface_coffee firedrake_interface_loopy
         form prefix parameters interface coffee diagonal rt
       = compile_all firedrake_interface_coffee firedrake_interface_loopy
           t prefix params
           ((λ i, partial_function_replace_map i
                    (function_replace_map form_data)) <$> interface)
           coffee diagonal (tfd_integral_data t) rt
       ∧ NoDup (map tid_key (tfd_integral_data t))
       ∧ (∀ k, k ∈ map tid_key (tfd_integral_data t)
               <-> ∃ intg_data,
                     intg_data ∈ integral_data form_data
                     ∧ integral_key intg_data = k))
  ∧ (∀ integral_data tsfc_form_data params
       (iface : option (@KernelInterface Builder Kernel Representation))
       rt k rt',
       let backend :=
         match iface with
         | Some i => i
         | None => if coffee then firedrake_interface_coffee
                   else firedrake_interface_loopy
         end in
       let formatted :=
         replace "-" "_"
           (prefix +:+ "_" +:+ tid_integral_type integral_data +:+ "_integral_"
                   +:+ str_of_subdomain_id (tid_subdomain_id integral_data)) in
       compile_integral firedrake_interface_coffee firedrake_interface_loopy
         integral_data tsfc_form_data prefix params iface coffee diagonal rt
       = (Ok k, rt') ->
       ∃ scalar_type builder0 rt1 cfg0 rt2 builder cfg rt3,
         params !! (if coffee then "scalar_type_c" else "scalar_type")
         = Some scalar_type
         ∧ interface_init backend None (tid_integral_type integral_data)
             scalar_type diagonal integral_data rt = (Ok builder0, rt1)
         ∧ create_kernel_config formatted tsfc_form_data integral_data params
             diagonal rt1 = (Ok cfg0, rt2)
         ∧ name cfg0 = formatted
         ∧ construct_kernel backend builder cfg rt3 = (Ok k, rt')
         ∧ (keeps_name backend -> name cfg = formatted))
  ∧ (∀ it sid,
       kernel_name prefix it sid
       = replace "-" "_"
           (prefix +:+ "_" +:+ it +:+ "_integral_" +:+ str_of_subdomain_id sid)
       ∧ all_chars (λ c, negb (Ascii.eqb c "-")) (kernel_name prefix it sid) = true
       ∧ kernel_name prefix it (SubInt (-1))
         = replace "-" "_" (prefix +:+ "_" +:+ it) +:+ "_integral__1"
       ∧ (is_identifier prefix = true ->
          all_chars identifier_char it = true ->
          ∀ z, is_identifier (kernel_name prefix it (SubInt z)) = true))
  ∧ (∀ it s,
       kernel_name prefix it (SubStr s)
       = replace "-" "_" (prefix +:+ "_" +:+ it) +:+ "_integral_"
           +:+ replace "-" "_" s)
  ∧ (∀ it z,
       kernel_name prefix it (SubInt z)
       = replace "-" "_" (prefix +:+ "_" +:+ it) +:+ "_integral_"
           +:+ (if Z.ltb z 0 then "_" +:+ str_of_Z (- z) else str_of_Z z))
  ∧ (∀ z, 0 <= z -> all_chars is_digit (str_of_Z z) = true)
  ∧ (∀ z z', str_of_Z z = str_of_Z z' -> z = z')
  ∧ str_of_Z 0 = "0" ∧ str_of_Z 7 = "7" ∧ str_of_Z 105 = "105"
  ∧ str_of_Z (-1) = "-1".
Proof.
  split; [intros; apply compile_all_filter|].
  split.
  { intros params t rt Hparams form_data Ht.
    split.
    - unfold compile_form, mbind, M_bind, lift. rewrite Hparams.
      fold form_data. by rewrite Ht.
    - apply TSFCFormData_keys in Ht as [Hnd Hmem]. split; [done|].
      intros k. rewrite Hmem. split.
      + intros (fd & idt & ->%list_elem_of_singleton & ? & ?). by exists idt.
      + intros (idt & ? & ?). exists form_data, idt.
        split; [apply list_elem_of_here | done]. }
  split; [intros *; apply compile_integral_inv|].
  assert (Hsplit : ∀ it tail,
            replace "-" "_" (prefix +:+ "_" +:+ it +:+ "_integral_" +:+ tail)
            = replace "-" "_" (prefix +:+ "_" +:+ it) +:+ "_integral_"
                +:+ replace "-" "_" tail).
  { intros it tail. rewrite <- !append_associative.
    rewrite (replace_append _ _ _ tail), (replace_append _ _ _ "_integral_").
    by rewrite !append_associative. }
  split.
  { intros it sid. split; [done|]. split; [apply replace_dash_free|].
    split.
    - unfold kernel_name. cbn [str_of_subdomain_id]. by rewrite Hsplit.
    - intros Hp Hit z. by apply kernel_name_identifier. }
  split; [intros it s; unfold kernel_name; cbn [str_of_subdomain_id]; apply Hsplit|].
  split.
  { intros it z. unfold kernel_name. cbn [str_of_subdomain_id].
    by rewrite Hsplit, replace_str_of_Z. }
  split; [apply str_of_Z_digits|].
  split; [apply str_of_Z_inj|].
  done.
Qed.

End CompileFormProperties.

(** ** Examples *)

Lemma lower_integral_type_documented_witness :
  lower_integral_type triangle "cell" = Ok (DimInt 2, [0%nat])
  ∧ lower_integral_type triangle "vertex" = Ok (DimInt 0, [0; 1; 2]%nat)
  ∧ lower_integral_type triangle "interior_facet" = Ok (DimInt 1, [0; 1; 2]%nat)
  ∧ lower_integral_type extruded_interval "exterior_facet_vert"
    = Ok (DimTuple [0; 1], [0; 1]%nat)
  ∧ lower_integral_type extruded_interval "interior_facet_horiz"
    = Ok (DimTuple [1; 0], [0; 1]%nat)
  ∧ lower_integral_type extruded_interval "exterior_facet_top"
    = Ok (DimTuple [1; 0], [1%nat])
  ∧ lower_integral_type triangle "custom"
    = Raise (UnsupportedIntegralTypeError "custom").
Proof.
  destruct (lower_integral_type_documented triangle)
    as (Hcell & Hvertex & Hfacet & _ & _ & _ & Hother).
  destruct (lower_integral_type_documented extruded_interval)
    as (_ & _ & _ & Hvert & Hhoriz & Htop & _).
  split; [exact (Hcell _ eq_refl)|].
  split; [exact (Hvertex _ eq_refl)|].
  split.
  { refine (Hfacet "interior_facet" 2 _ _ _ eq_refl eq_refl).
    apply list_elem_of_further, list_elem_of_here. }
  split.
  { refine (Hvert "exterior_facet_vert" 1 _ _ _ eq_refl eq_refl).
    apply list_elem_of_here. }
  split; [exact (Hhoriz 1 _ _ eq_refl eq_refl)|].
  split; [exact (proj1 (Htop 1 _ eq_refl))|].
  apply Hother. intros Hin.
  unfold documented_integral_types, vert_facet_types, horiz_facet_types in Hin.
  cbn in Hin. rewrite !elem_of_cons, elem_of_nil in Hin.
  repeat destruct Hin as [Hin | Hin]; done.
Defined.

(** The aggregated form data as a whole follows the order of the
    records: the integral data are listed in the order in which their
    keys are first met. *)
Lemma inconsistent_arguments_rejected_witness :
  TSFCFormData__init__ (H := reference_collaborators)
    [split_ds; split_bilinear] form_fg false
  = Raise InconsistentArgumentsError.
Proof.
  apply inconsistent_arguments_rejected.
  exists split_ds, split_bilinear.
  split; [apply list_elem_of_here|].
  split; [apply list_elem_of_further, list_elem_of_here|].
  cbn. discriminate.
Defined.

Lemma coefficient_restriction_witness :
  coefficient interior_facet_builder coefficient_f (Some "+")
  = Ok (ArgExpr (Gem.Variable_ "w_0_plus"))
  ∧ coefficient interior_facet_builder coefficient_f (Some "-")
    = Ok (ArgExpr (Gem.Variable_ "w_0_minus"))
  ∧ coefficient interior_facet_builder coefficient_r (Some "-")
    = Ok (ArgExpr (Gem.Variable_ "w_2")).
Proof.
  destruct (coefficient_restriction interior_facet_builder coefficient_f _ eq_refl)
    as [_ Hfacet].
  destruct (coefficient_restriction interior_facet_builder coefficient_r _ eq_refl)
    as [Hreal _].
  destruct Hfacet as (_ & _ & Hpair); [cbn; discriminate | reflexivity |].
  destruct (Hpair _ _ eq_refl) as [Hplus Hminus].
  split; [exact Hplus|]. split; [exact Hminus|].
  apply Hreal. reflexivity.
Defined.

Lemma quadrature_degree_resolution_witness :
  set_quad_rule (H := reference_collaborators) params_override triangle_cell
    "cell" [FArgument test_function] runtime0
  = (Ok (<["quadrature_rule" := PyRule {| rule_id := 3 |}]> params_override),
     runtime0)
  ∧ set_quad_rule (H := reference_collaborators) params_estimated triangle_cell
      "cell" [FArgument test_function] runtime0
    = (Ok (<["quadrature_rule" := PyRule {| rule_id := 50 |}]> params_estimated),
       {| next_index := 0;
          warnings := [{| warning_degree := PyInt 50;
                          warning_max_degree := DegInt 1 |}] |})
  ∧ set_quad_rule (H := reference_collaborators) params_estimated triangle_cell
      "cell" [FArgument test_function; FArgument argument_P7] runtime0
    = (Ok (<["quadrature_rule" := PyRule {| rule_id := 50 |}]> params_estimated),
       runtime0)
  ∧ set_quad_rule (H := reference_collaborators) params_estimated triangle_cell
      "cell" [FArgument argument_wide] runtime0
    = (Ok (<["quadrature_rule" := PyRule {| rule_id := 50 |}]> params_estimated),
       {| next_index := 0;
          warnings := [{| warning_degree := PyInt 50;
                          warning_max_degree := DegInt (2 ^ 62) |}] |}).
Proof.
  split; [|split; [|split]].
  - destruct (quadrature_degree_resolution (H := reference_collaborators)
                params_override triangle_cell "cell" [FArgument test_function]
                runtime0) as [Hover _].
    destruct (Hover (PyInt 3) ltac:(vm_compute; reflexivity)) as (Hset & _).
    rewrite Hset. vm_compute. reflexivity.
  - destruct (quadrature_degree_resolution (H := reference_collaborators)
                params_estimated triangle_cell "cell" [FArgument test_function]
                runtime0) as (_ & _ & _ & _ & Hint).
    destruct (Hint 50 1 [] ltac:(vm_compute; reflexivity)
                ltac:(vm_compute; reflexivity) eq_refl ltac:(lia)
                ltac:(repeat constructor; lia)) as (_ & _ & Hlogged & _).
    rewrite Hlogged by (repeat constructor; lia).
    vm_compute. reflexivity.
  - destruct (quadrature_degree_resolution (H := reference_collaborators)
                params_estimated triangle_cell "cell"
                [FArgument test_function; FArgument argument_P7]
                runtime0) as (_ & _ & _ & _ & Hint).
    destruct (Hint 50 1 [7] ltac:(vm_compute; reflexivity)
                ltac:(vm_compute; reflexivity) eq_refl ltac:(lia)
                ltac:(repeat constructor; lia)) as (_ & _ & _ & Hquiet).
    rewrite Hquiet.
    + vm_compute. reflexivity.
    + repeat constructor; lia.
    + intros Hall. apply Forall_cons in Hall as [_ Hall].
      apply Forall_cons in Hall as [H7 _]. lia.
  - destruct (quadrature_degree_resolution (H := reference_collaborators)
                params_estimated triangle_cell "cell" [FArgument argument_wide]
                runtime0) as (_ & _ & _ & _ & Hint).
    destruct (Hint 50 (2 ^ 62) [] ltac:(vm_compute; reflexivity)
                ltac:(vm_compute; reflexivity) eq_refl ltac:(lia)
                ltac:(repeat constructor; lia)) as (Hwrapped & _).
    rewrite Hwrapped
      by (constructor; [vm_compute; reflexivity | constructor]).
    vm_compute. reflexivity.
Defined.

Lemma quadrature_rule_resolution_witness :
  resolve_quadrature_rule (H := reference_collaborators) params_rule
    triangle_cell "cell" (PyInt 3) = Ok params_rule
  ∧ resolve_quadrature_rule (H := reference_collaborators) params_bad_rule
      triangle_cell "cell" (PyInt 3)
    = Raise (InvalidQuadratureRuleError (PyStr "gauss"))
  ∧ ∃ r, params_rule !! "quadrature_rule" = Some (PyRule r).
Proof.
  destruct (quadrature_rule_resolution (H := reference_collaborators)
              params_rule triangle_cell "cell" (PyInt 3)) as [Hgood Hstored].
  destruct (quadrature_rule_resolution (H := reference_collaborators)
              params_bad_rule triangle_cell "cell" (PyInt 3)) as [Hbad _].
  destruct (Hgood (PyRule {| rule_id := 7 |}) ltac:(vm_compute; reflexivity)
              ltac:(discriminate)) as (Hok & _).
  destruct (Hbad (PyStr "gauss") ltac:(vm_compute; reflexivity)
              ltac:(discriminate)) as (_ & Hraise & _).
  split; [exact (Hok eq_refl)|].
  split; [exact (Hraise eq_refl)|].
  destruct (Hstored params_rule (Hok eq_refl)) as (r & Hr & _).
  by exists r.
Defined.

Lemma position_MIndex (rho : Gem.Assignment) (l : list Gem.Index) :
  map (Gem.position rho) (Gem.MIndex <$> l) = map rho l.
Proof. induction l as [|i l IH]; cbn; [done|]. by rewrite <- IH. Qed.

Lemma dummy_index_reconciliation_witness :
  map (λ e, Gem.eval reference_data e last_position [])
      (replace_argument_multiindices_dummy
         (argument_tensor [[index_d0]; [index_d1]]) diagonal_config)
  = map (λ e, Gem.eval reference_data e last_position [])
        (argument_tensor [[index_i]; [index_i]])
  ∧ replace_argument_multiindices_dummy
      (argument_tensor [[index_d0]; [index_d1]]) diagonal_config
    = argument_tensor [[index_i]; [index_i]].
Proof.
  destruct (dummy_index_reconciliation
              (argument_tensor [[index_d0]; [index_d1]]) diagonal_config)
    as (_ & _ & _ & Hshape).
  destruct Hshape as (_ & _ & Hround).
  { apply (bool_decide_unpack _). vm_compute. reflexivity. }
  { reflexivity. }
  split; [|reflexivity].
  apply (Hround reference_data [] argument_tensor tensor_value).
  - intros multiindices rho _. unfold argument_tensor, tensor_value.
    cbn [map Gem.eval].
    by rewrite app_nil_r, position_MIndex, concat_map.
  - reflexivity.
  - repeat constructor. intros kv _ Hb. cbn in Hb. by apply elem_of_nil in Hb.
  - intros i Hpos. unfold last_position. lia.
Defined.

Lemma diagonal_dummy_shape_differs :
  ∃ cfg rt',
    create_kernel_config (H := reference_collaborators) "form_cell_integral__1"
      form_data_P1P2 cell_integral_P1P2 reference_parameters true runtime0
    = (Ok cfg, rt')
    ∧ shape_of (argument_multiindices (fem_config cfg)) = [[3]; [3]]%nat
    ∧ shape_of (argument_multiindices_dummy (fem_config cfg)) = [[3]; [6]]%nat
    ∧ shape_of (argument_multiindices_dummy (fem_config cfg))
      ≠ shape_of (argument_multiindices (fem_config cfg)).
Proof.
  do 2 eexists. split; [vm_compute; reflexivity|].
  split; [reflexivity|]. split; [reflexivity|]. discriminate.
Qed.

Lemma dummy_multiindices_same_shape_witness :
  ∃ cfg rt',
    create_kernel_config (H := reference_collaborators) "form_cell_integral__1"
      form_data_P1P1 cell_integral_P1P2 reference_parameters true runtime0
    = (Ok cfg, rt')
    ∧ shape_of (argument_multiindices_dummy (fem_config cfg))
      = shape_of (argument_multiindices (fem_config cfg)).
Proof.
  destruct (dummy_multiindices_same_shape (H := reference_collaborators)
              "form_cell_integral__1" form_data_P1P1 cell_integral_P1P2
              reference_parameters true runtime0) as [Hshape Hbuilt].
  { right. exists test_function, trial_function. split; reflexivity. }
  destruct (Hbuilt (PyStr "double") (DimInt 2) [0%nat]
              ltac:(vm_compute; reflexivity) ltac:(reflexivity))
    as (cfg & rt' & Hcfg).
  exists cfg, rt'. split; [exact Hcfg|].
  exact (proj1 (Hshape cfg rt' Hcfg)).
Defined.

Lemma diagonal_uses_test_multiindex_witness :
  ∃ rt2,
    compile_integral (H := reference_collaborators)
      reference_interface reference_interface cell_integral_P1P2
      form_data_P1P2 "form" reference_parameters (Some reference_interface)
      false true runtime0
    = (Raise UnsupportedArgumentShapeError, rt2).
Proof.
  destruct (diagonal_uses_test_multiindex (H := reference_collaborators)
              reference_interface reference_interface
              "form_cell_integral__1" "form" form_data_P1P2 cell_integral_P1P2
              reference_parameters test_function trial_function_P2 eq_refl)
    as (_ & _ & Hfail).
  apply (Hfail reference_interface false true runtime0 runtime0
           (PyStr "double") (PyStr "double") (DimInt 2) [0%nat]).
  - cbn. discriminate.
  - vm_compute. reflexivity.
  - reflexivity.
  - vm_compute. reflexivity.
  - reflexivity.
  - reflexivity.
Defined.

Lemma reference_interface_keeps_name : keeps_name reference_interface.
Proof.
  split_and!.
  - intros b cfg rt b' cfg' rt'. cbn. unfold spec_set_arguments.
    destruct b; [|by intros [= _ <- _]].
    destruct (kc_arguments cfg) as [|test [|trial [|x l]]]; try done.
    destruct (decide _); [by intros [= _ <- _] | done].
  - intros b e p cfg rt es b' cfg' rt'. cbn. by intros [= _ _ <- _].
  - intros b es p cfg rt reps b' cfg' rt'. cbn. by intros [= _ _ <- _].
  - intros b reps p cfg rt b' cfg' rt'. cbn. by intros [= _ <- _].
Qed.

Lemma compile_form_kernels_witness :
  ∃ t,
    TSFCFormData__init__ (H := reference_collaborators)
      [reference_compute_form_data form_one_domain false]
      form_one_domain false = Ok t
    ∧ compile_form (H := reference_collaborators)
        reference_interface reference_interface form_one_domain "form"
        None None false false runtime0
      = compile_all (H := reference_collaborators)
          reference_interface reference_interface t "form"
          reference_parameters None false false (tfd_integral_data t) runtime0
    ∧ compile_form (H := reference_collaborators)
        reference_interface reference_interface form_one_domain "form"
        None None false false runtime0
      = (Ok ["form_cell_integral__1"], runtime0)
    ∧ is_identifier (kernel_name "form" "cell" (SubInt (-1))) = true
    ∧ (∀ d, head (tfd_integral_data t) = Some d ->
         ∃ builder cfg rt3,
           construct_kernel reference_interface builder cfg rt3
           = (Ok (Some "form_cell_integral__1"), runtime0)
           ∧ name cfg = "form_cell_integral__1").
Proof.
  destruct (TSFCFormData__init__ (H := reference_collaborators)
              [reference_compute_form_data form_one_domain false]
              form_one_domain false) as [t|e] eqn:Ht;
    [|vm_compute in Ht; discriminate Ht].
  exists t. split; [reflexivity|].
  destruct (compile_form_kernels (H := reference_collaborators)
              reference_interface reference_interface form_one_domain "form"
              None None false false) as (_ & Hform & Hintegral & Hname & _).
  split.
  { refine (proj1 (Hform reference_parameters t runtime0 _ Ht)).
    vm_compute. reflexivity. }
  split; [vm_compute; reflexivity|].
  split.
  { destruct (Hname "cell" (SubInt (-1))) as (_ & _ & _ & Hid).
    apply Hid; reflexivity. }
  intros d Hd.
  destruct (Hintegral d t reference_parameters None runtime0
              (Some "form_cell_integral__1") runtime0)
    as (st & b0 & rt1 & cfg0 & rt2 & b & cfg & rt3
        & _ & _ & _ & _ & Hkernel & Hkeeps).
  { vm_compute in Ht. injection Ht as <-.
    vm_compute in Hd. injection Hd as <-.
    vm_compute. reflexivity. }
  exists b, cfg, rt3. split; [exact Hkernel|].
  rewrite (Hkeeps reference_interface_keeps_name).
  vm_compute in Ht. injection Ht as <-.
  vm_compute in Hd. injection Hd as <-.
  vm_compute. reflexivity.
Defined.

(** * Further properties *)


(** ** Entity lowering: failures *)

Lemma lower_integral_type_unrecognized (fiat_cell : FiatCell) (t : string) :
  t ∉ documented_integral_types ->
  lower_integral_type fiat_cell t = Raise (UnsupportedIntegralTypeError t).
Proof.
  intros Ht. unfold lower_integral_type, UnsupportedIntegralTypeError.
  assert (Hne : ∀ x, x ∈ documented_integral_types -> String.eqb t x = false)
    by (intros x; by apply eqb_false_of_not_in).
  rewrite !Hne
    by (cbn; rewrite !elem_of_cons; repeat first [left; reflexivity | right]).
  rewrite !str_in_false; [done | |];
    intros Hin; apply Ht; cbn in *;
    rewrite !elem_of_cons, ?elem_of_nil in *; tauto.
Qed.

Ltac each_literal H :=
  unfold documented_integral_types, vert_facet_types, horiz_facet_types in H;
  cbn in H; rewrite !elem_of_cons, elem_of_nil in H;
  repeat destruct H as [H | H]; try done; subst.

(** X1. A plain facet integral on a product cell, and an extruded facet
    integral on a cell that is not a product, raise the ValueError that
    names the integral type; the entities are not looked at, also for
    the top and bottom types. *)
Theorem lower_integral_type_wrong_cell (fiat_cell : FiatCell) (t : string) :
  (t ∈ ["exterior_facet"; "interior_facet"] ->
   is_TensorProductCell fiat_cell = true ->
   lower_integral_type fiat_cell t
   = Raise (ValueError (t +:+ " integral cannot be used with a TensorProductCell; need to distinguish between vertical and horizontal contributions.")))
  ∧ (t ∈ vert_facet_types ++ horiz_facet_types ->
     is_TensorProductCell fiat_cell = false ->
     lower_integral_type fiat_cell t
     = Raise (ValueError (t +:+ " integral requires a TensorProductCell."))).
Proof.
  split; intros Ht Hcell; each_literal Ht;
    unfold lower_integral_type; cbn; by rewrite Hcell.
Qed.

(** X2. On a product cell whose dimension is not a pair an extruded
    facet integral raises the ValueError of the failed unpacking, and on
    a pair whose second dimension is not 1 the assertion fails. *)
Theorem lower_integral_type_malformed_product
    (dims : list Z) (topology : Topology) (t : string) :
  t ∈ vert_facet_types ++ horiz_facet_types ->
  (length dims ≠ 2%nat ->
   lower_integral_type (TensorProductCell dims topology) t
   = Raise (unpack_error 2 (length dims)))
  ∧ (∀ basedim extrdim, dims = [basedim; extrdim] -> extrdim ≠ 1 ->
       lower_integral_type (TensorProductCell dims topology) t
       = Raise AssertionError).
Proof.
  intros Ht. split.
  - intros Hlen. destruct dims as [|b [|e [|x l]]]; try done;
      each_literal Ht; reflexivity.
  - intros b e -> He. apply Z.eqb_neq in He.
    each_literal Ht; unfold lower_integral_type; cbn; by rewrite He.
Qed.

(** X3. Whenever entity lowering returns, the integral type is one of
    the nine documented ones, and the entity numbers are [0] for the
    bottom, [1] for the top, and otherwise 0, 1, ... up to the number of
    entities the topology lists for the returned dimension; they are
    never repeated. *)
Theorem lower_integral_type_returns
    (fiat_cell : FiatCell) (t : string) (d : Dim) (ids : list nat) :
  lower_integral_type fiat_cell t = Ok (d, ids) ->
  t ∈ documented_integral_types
  ∧ NoDup ids
  ∧ ((t = "exterior_facet_bottom" ∧ ids = [0%nat])
     ∨ (t = "exterior_facet_top" ∧ ids = [1%nat])
     ∨ (t ≠ "exterior_facet_bottom" ∧ t ≠ "exterior_facet_top"
        ∧ ∃ entities,
            assoc d (get_topology fiat_cell) = Some entities
            ∧ ids = seq 0 (length entities))).
Proof.
  intros Hok.
  destruct (decide (t ∈ documented_integral_types)) as [Ht|Ht].
  2: { by rewrite lower_integral_type_unrecognized in Hok. }
  split; [done|].
  assert (Hshape :
            (t = "exterior_facet_bottom" ∧ ids = [0%nat])
            ∨ (t = "exterior_facet_top" ∧ ids = [1%nat])
            ∨ (t ≠ "exterior_facet_bottom" ∧ t ≠ "exterior_facet_top"
               ∧ ∃ entities,
                   assoc d (get_topology fiat_cell) = Some entities
                   ∧ ids = seq 0 (length entities))).
  { each_literal Ht; unfold lower_integral_type in Hok;
      destruct fiat_cell as [dim topo | dims topo]; cbn in Hok; try done;
      try (destruct dims as [|b [|e [|x l]]]; cbn in Hok; try done;
           destruct (Z.eqb e 1); cbn in Hok; try done);
      try (match type of Hok with
           | context [assoc ?k ?m] => destruct (assoc k m) eqn:Hassoc
           end; cbn in Hok; try done);
      injection Hok as <- <-; cbn; eauto 10. }
  split; [|done].
  destruct Hshape as [[_ ->]|[[_ ->]|(_ & _ & ents & _ & ->)]];
    [apply NoDup_singleton | apply NoDup_singleton | apply NoDup_seq].
Qed.


(** ** Parameters *)

Section ParameterProperties.
Context `{Collaborators}.

Lemma preprocess_parameters_cases (parameters : option Params) :
  let merged := merged_parameters parameters in
  preprocess_parameters parameters
  = match merged !! "quadrature_degree", merged !! "quadrature_rule" with
    | Some d, Some r =>
        Ok ((if derive_rule_sentinel (Some r)
             then delete "quadrature_rule" else id)
              ((if derive_degree_sentinel (Some d)
                then delete "quadrature_degree" else id) merged))
    | _, _ => Raise KeyError
    end.
Proof.
  intros merged. unfold preprocess_parameters, del.
  change (match parameters with
          | Some p => p ∪ default_parameters
          | None => default_parameters
          end) with merged.
  clearbody merged. unfold mbind, result_bind, bind.
  destruct (merged !! "quadrature_degree") as [d|] eqn:Hd; [|done].
  destruct (derive_degree_sentinel (Some d)) eqn:Hsd; cbv beta iota.
  - rewrite lookup_delete_ne; [|done].
    destruct (merged !! "quadrature_rule") as [r|] eqn:Hr; [|done].
    destruct (derive_rule_sentinel (Some r)); cbv beta iota; [|done].
    done.
  - destruct (merged !! "quadrature_rule") as [r|] eqn:Hr; [|done].
    by destruct (derive_rule_sentinel (Some r)).
Qed.

Lemma strip_lookup (sd sr : bool) (m : Params) :
  let m' := (if sr then delete "quadrature_rule" else id)
              ((if sd then delete "quadrature_degree" else id) m) in
  (∀ k, k ≠ "quadrature_degree" -> k ≠ "quadrature_rule" -> m' !! k = m !! k)
  ∧ m' !! "quadrature_degree" = (if sd then None else m !! "quadrature_degree")
  ∧ m' !! "quadrature_rule" = (if sr then None else m !! "quadrature_rule").
Proof.
  assert (Hne : "quadrature_rule" ≠ "quadrature_degree") by done.
  assert (Hne' : "quadrature_degree" ≠ "quadrature_rule") by done.
  destruct sd, sr; cbn; unfold id; repeat split; try intros k Hk1 Hk2;
    rewrite ?lookup_delete_eq;
    rewrite ?(lookup_delete_ne _ "quadrature_rule" "quadrature_degree") by done;
    rewrite ?(lookup_delete_ne _ "quadrature_degree" "quadrature_rule") by done;
    rewrite ?lookup_delete_eq;
    rewrite ?(lookup_delete_ne _ _ k) by done;
    done.
Qed.

Lemma Ok_inj {A} (x y : A) : Ok x = Ok y -> x = y.
Proof. by intros [= ->]. Qed.

Lemma str_in_elem (s : string) (xs : list string) :
  str_in s xs = true <-> s ∈ xs.
Proof.
  unfold str_in. rewrite existsb_exists. split.
  - intros (x & Hin & ->%String.eqb_eq). by apply list_elem_of_In.
  - intros Hin. exists s. split; [by apply list_elem_of_In | apply String.eqb_refl].
Qed.

(** The values the degree test and the rule test of lines 263-266 take
    for a sentinel. *)
Lemma derive_degree_sentinel_values (v : PyVal) :
  derive_degree_sentinel (Some v) = true
  <-> v ∈ [PyStr "auto"; PyStr "default"; PyNone; PyInt (-1); PyStr "-1"].
Proof.
  rewrite !elem_of_cons, elem_of_nil.
  destruct v as [|z|s|zs|r]; unfold derive_degree_sentinel.
  - intuition congruence.
  - rewrite Z.eqb_eq. intuition congruence.
  - rewrite str_in_elem, !elem_of_cons, elem_of_nil. intuition congruence.
  - intuition congruence.
  - intuition congruence.
Qed.

Lemma derive_rule_sentinel_values (v : PyVal) :
  derive_rule_sentinel (Some v) = true
  <-> v ∈ [PyStr "auto"; PyStr "default"; PyNone].
Proof.
  rewrite !elem_of_cons, elem_of_nil.
  destruct v as [|z|s|zs|r]; unfold derive_rule_sentinel.
  - intuition congruence.
  - intuition congruence.
  - rewrite str_in_elem, !elem_of_cons, elem_of_nil. intuition congruence.
  - intuition congruence.
  - intuition congruence.
Qed.

(** X4. When [preprocess_parameters] returns, every entry other than
    the quadrature degree and rule is the caller's if the caller gave
    one and the default otherwise.  The merged dictionary has a degree
    and a rule; the degree is absent from the result when it is one of
    "auto", "default", None, -1, "-1" and is kept otherwise; the rule is
    absent when it is one of "auto", "default", None and is kept
    otherwise.  So the result never holds one of these values under
    these two keys. *)
Theorem preprocess_parameters_result (parameters : option Params) (p : Params) :
  preprocess_parameters parameters = Ok p ->
  let merged (k : string) : option PyVal :=
    match parameters with
    | Some user =>
        match user !! k with
        | Some v => Some v
        | None => default_parameters !! k
        end
    | None => default_parameters !! k
    end in
  (∀ k, k ≠ "quadrature_degree" -> k ≠ "quadrature_rule" -> p !! k = merged k)
  ∧ (∃ d, merged "quadrature_degree" = Some d
        ∧ p !! "quadrature_degree"
          = if decide (d ∈ [PyStr "auto"; PyStr "default"; PyNone;
                            PyInt (-1); PyStr "-1"])
            then None else Some d)
  ∧ (∃ r, merged "quadrature_rule" = Some r
        ∧ p !! "quadrature_rule"
          = if decide (r ∈ [PyStr "auto"; PyStr "default"; PyNone])
            then None else Some r)
  ∧ (∀ v, p !! "quadrature_degree" = Some v ->
          v ≠ PyStr "auto" ∧ v ≠ PyStr "default" ∧ v ≠ PyNone
          ∧ v ≠ PyInt (-1) ∧ v ≠ PyStr "-1")
  ∧ (∀ v, p !! "quadrature_rule" = Some v ->
          v ≠ PyStr "auto" ∧ v ≠ PyStr "default" ∧ v ≠ PyNone)
  ∧ (∀ k, p !! k = None ∨ p !! k = merged k).
Proof.
  intros Hp merged.
  assert (Hmerged : ∀ k, merged_parameters parameters !! k = merged k).
  { intros k. unfold merged, merged_parameters.
    destruct parameters as [user|]; [|done].
    destruct (user !! k) as [v|] eqn:Hv.
    - by rewrite lookup_union_l' by (by rewrite Hv).
    - by rewrite lookup_union_r. }
  rewrite preprocess_parameters_cases in Hp. cbv zeta in Hp.
  rewrite !Hmerged in Hp.
  destruct (merged "quadrature_degree") as [d|] eqn:Hd; [|done].
  destruct (merged "quadrature_rule") as [r|] eqn:Hr; [|done].
  pose proof (strip_lookup (derive_degree_sentinel (Some d))
                (derive_rule_sentinel (Some r)) (merged_parameters parameters))
    as (Hother & Hdeg & Hrule).
  cbv zeta in Hother, Hdeg, Hrule.
  apply Ok_inj in Hp. rewrite Hp in Hother, Hdeg, Hrule. clear Hp.
  rewrite Hmerged, Hd in Hdeg. rewrite Hmerged, Hr in Hrule.
  assert (Hdeg' : p !! "quadrature_degree"
                  = if decide (d ∈ [PyStr "auto"; PyStr "default"; PyNone;
                                    PyInt (-1); PyStr "-1"])
                    then None else Some d).
  { rewrite Hdeg. pose proof (derive_degree_sentinel_values d) as Hv.
    destruct (derive_degree_sentinel (Some d)).
    - rewrite decide_True; [done | by apply Hv].
    - rewrite decide_False; [done|]. intros Hin. apply Hv in Hin. done. }
  assert (Hrule' : p !! "quadrature_rule"
                   = if decide (r ∈ [PyStr "auto"; PyStr "default"; PyNone])
                     then None else Some r).
  { rewrite Hrule. pose proof (derive_rule_sentinel_values r) as Hv.
    destruct (derive_rule_sentinel (Some r)).
    - rewrite decide_True; [done | by apply Hv].
    - rewrite decide_False; [done|]. intros Hin. apply Hv in Hin. done. }
  split.
  { intros k Hk1 Hk2. by rewrite Hother, Hmerged. }
  split; [by exists d|]. split; [by exists r|].
  split.
  { intros v Hv. rewrite Hdeg' in Hv.
    destruct (decide (d ∈ _)) as [|Hnot]; [done|]. injection Hv as ->.
    rewrite !not_elem_of_cons in Hnot. tauto. }
  split.
  { intros v Hv. rewrite Hrule' in Hv.
    destruct (decide (r ∈ _)) as [|Hnot]; [done|]. injection Hv as ->.
    rewrite !not_elem_of_cons in Hnot. tauto. }
  intros k.
  destruct (decide (k = "quadrature_degree")) as [->|Hk1].
  { rewrite Hdeg', Hd. destruct (decide (d ∈ _)); eauto. }
  destruct (decide (k = "quadrature_rule")) as [->|Hk2].
  { rewrite Hrule', Hr. destruct (decide (r ∈ _)); eauto. }
  right. by rewrite Hother, Hmerged.
Qed.

(** X5. [preprocess_parameters] returns exactly when the merged
    dictionary has both a "quadrature_degree" and a "quadrature_rule"
    entry; when one is missing the lookup yields None, which counts as a
    sentinel, and deleting the missing entry raises KeyError. *)
Theorem preprocess_parameters_needs_both_keys (parameters : option Params) :
  (is_Some (merged_parameters parameters !! "quadrature_degree")
   ∧ is_Some (merged_parameters parameters !! "quadrature_rule")
   <-> ∃ p, preprocess_parameters parameters = Ok p)
  ∧ (merged_parameters parameters !! "quadrature_degree" = None
     ∨ merged_parameters parameters !! "quadrature_rule" = None
     <-> preprocess_parameters parameters = Raise KeyError).
Proof.
  rewrite preprocess_parameters_cases. cbv zeta.
  destruct (merged_parameters parameters !! "quadrature_degree") as [d|];
    destruct (merged_parameters parameters !! "quadrature_rule") as [r|];
    split; split; try done; eauto.
  all: try (intros [[? ?] [? ?]]; done).
  all: try (intros [? ?]; done).
  all: try (intros [?|?]; done).
Qed.

End ParameterProperties.


(** ** Quadrature resolution: what changes and what fails *)

Section QuadratureExtras.
Context `{Collaborators}.

Lemma resolve_quadrature_rule_cases params cell it q :
  resolve_quadrature_rule params cell it q
  = match params !! "quadrature_rule" with
    | Some v =>
        if decide (v = PyStr "default") then
          '(d, _) ← lower_integral_type (as_fiat_cell cell) it;
          r ← make_quadrature (construct_subelement (as_fiat_cell cell) d) q;
          Ok (<["quadrature_rule" := PyRule r]> params)
        else if is_quadrature_rule v then Ok params
        else Raise (InvalidQuadratureRuleError v)
    | None =>
        '(d, _) ← lower_integral_type (as_fiat_cell cell) it;
        r ← make_quadrature (construct_subelement (as_fiat_cell cell) d) q;
        Ok (<["quadrature_rule" := PyRule r]> params)
    end.
Proof.
  unfold resolve_quadrature_rule.
  destruct (params !! "quadrature_rule") as [v|] eqn:Hv.
  - destruct (decide (v = PyStr "default")) as [->|Hne].
    + rewrite decide_True by done. rewrite lookup_delete_eq. cbn.
      destruct (lower_integral_type _ _) as [[d ids]|]; cbn; [|done].
      destruct (make_quadrature _ _); cbn; [|done].
      by rewrite insert_delete_eq.
    + rewrite decide_False by congruence. rewrite Hv. cbn.
      by destruct (is_quadrature_rule v).
  - rewrite decide_False by done. rewrite Hv. cbn.
    destruct (lower_integral_type _ _) as [[d ids]|]; cbn; [|done].
    by destruct (make_quadrature _ _).
Qed.

Lemma resolve_quadrature_degree_agree params params' functions rt rt' :
  params !! "quadrature_degree" = params' !! "quadrature_degree" ->
  params !! "estimated_polynomial_degree"
  = params' !! "estimated_polynomial_degree" ->
  fst (resolve_quadrature_degree params functions rt)
  = fst (resolve_quadrature_degree params' functions rt').
Proof.
  intros Hd He. unfold resolve_quadrature_degree. rewrite <- Hd, <- He.
  destruct (params !! "quadrature_degree"); [done|].
  unfold mbind, M_bind, lift, logger_warning, mret, M_ret.
  destruct (params !! "estimated_polynomial_degree"); cbn; [|done].
  destruct (tenfold_greater _ _) as [[|]|]; cbn; try done.
  by destruct (max_degree _).
Qed.

Lemma resolve_quadrature_degree_runtime params functions rt :
  next_index (snd (resolve_quadrature_degree params functions rt))
  = next_index rt.
Proof.
  unfold resolve_quadrature_degree.
  destruct (params !! "quadrature_degree"); [done|].
  unfold mbind, M_bind, lift, logger_warning, mret, M_ret.
  destruct (params !! "estimated_polynomial_degree"); cbn; [|done].
  destruct (tenfold_greater _ _) as [[|]|]; cbn; try done.
  by destruct (max_degree _).
Qed.

(** X6. A successful [set_quad_rule] changes no entry of the
    parameters other than "quadrature_rule" and makes no index; run again
    on the parameters it returned, it returns them unchanged, whatever the
    cell and the integral type: the stored rule is found and nothing is
    recomputed. *)
Theorem set_quad_rule_only_sets_the_rule
    (params params' : Params) (cell : UflCell) (it : string)
    (functions : list FormArgument) (rt rt' : Runtime) :
  set_quad_rule params cell it functions rt = (Ok params', rt') ->
  (∀ k, k ≠ "quadrature_rule" -> params' !! k = params !! k)
  ∧ next_index rt' = next_index rt
  ∧ (∀ cell' it', ∃ rt'',
       set_quad_rule params' cell' it' functions rt' = (Ok params', rt'')).
Proof.
  unfold set_quad_rule, mbind, M_bind, lift.
  destruct (resolve_quadrature_degree params functions rt) as [[q|e] rt1] eqn:Hq;
    [|done].
  destruct (resolve_quadrature_rule params cell it q) as [p|e] eqn:Hp; [|done].
  intros [= -> ->].
  assert (Hrule : (∀ k, k ≠ "quadrature_rule" -> params' !! k = params !! k)
                  ∧ ∃ r, params' !! "quadrature_rule" = Some (PyRule r)).
  { rewrite resolve_quadrature_rule_cases in Hp.
    assert (Hcomputed :
              ('(d, _) ← lower_integral_type (as_fiat_cell cell) it;
               r ← make_quadrature (construct_subelement (as_fiat_cell cell) d) q;
               Ok (<["quadrature_rule" := PyRule r]> params)) = Ok params' ->
              (∀ k, k ≠ "quadrature_rule" -> params' !! k = params !! k)
              ∧ ∃ r, params' !! "quadrature_rule" = Some (PyRule r)).
    { destruct (lower_integral_type _ _) as [[d ids]|]; cbn; [|done].
      destruct (make_quadrature _ _) as [r|]; cbn; [|done].
      intros [= <-]. split.
      - intros k Hk. by rewrite lookup_insert_ne.
      - exists r. by rewrite lookup_insert_eq. }
    destruct (params !! "quadrature_rule") as [v|] eqn:Hv; [|by apply Hcomputed].
    destruct (decide (v = PyStr "default")); [by apply Hcomputed|].
    destruct v; cbn in Hp; try done. injection Hp as <-.
    split; [done | by exists r]. }
  destruct Hrule as [Hother (r & Hr)].
  split; [exact Hother|].
  split.
  { pose proof (resolve_quadrature_degree_runtime params functions rt) as Hrt.
    by rewrite Hq in Hrt. }
  intros cell' it'.
  pose proof (resolve_quadrature_degree_agree params params' functions rt rt'
                ltac:(by rewrite Hother) ltac:(by rewrite Hother)) as Hagree.
  rewrite Hq in Hagree. cbn in Hagree.
  destruct (resolve_quadrature_degree params' functions rt') as [q' rt''] eqn:Hq'.
  cbn in Hagree. subst q'. exists rt''.
  rewrite resolve_quadrature_rule_cases, Hr.
  by rewrite decide_False.
Qed.

(** X7. Without a "quadrature_degree" and without an
    "estimated_polynomial_degree" entry [set_quad_rule] raises KeyError
    and logs nothing, also when a valid rule is supplied; and when no rule
    is supplied, an exception of entity lowering or of FInAT's
    [make_quadrature] is the outcome. *)
Theorem set_quad_rule_failures
    (params : Params) (cell : UflCell) (it : string)
    (functions : list FormArgument) (rt : Runtime) :
  (params !! "quadrature_degree" = None ->
   params !! "estimated_polynomial_degree" = None ->
   set_quad_rule params cell it functions rt = (Raise KeyError, rt))
  ∧ (∀ q rt' e,
       resolve_quadrature_degree params functions rt = (Ok q, rt') ->
       params !! "quadrature_rule" = None
       ∨ params !! "quadrature_rule" = Some (PyStr "default") ->
       lower_integral_type (as_fiat_cell cell) it = Raise e ->
       set_quad_rule params cell it functions rt = (Raise e, rt'))
  ∧ (∀ q rt' d ids e,
       resolve_quadrature_degree params functions rt = (Ok q, rt') ->
       params !! "quadrature_rule" = None
       ∨ params !! "quadrature_rule" = Some (PyStr "default") ->
       lower_integral_type (as_fiat_cell cell) it = Ok (d, ids) ->
       make_quadrature (construct_subelement (as_fiat_cell cell) d) q = Raise e ->
       set_quad_rule params cell it functions rt = (Raise e, rt')).
Proof.
  split.
  { intros Hd He. unfold set_quad_rule, resolve_quadrature_degree.
    rewrite Hd. unfold mbind, M_bind, lift. by rewrite He. }
  split.
  - intros q rt' e Hq Hrule Hlower.
    unfold set_quad_rule, mbind, M_bind, lift. rewrite Hq.
    rewrite resolve_quadrature_rule_cases.
    destruct Hrule as [-> | ->];
      [|destruct (decide (PyStr "default" = PyStr "default")); [|done]];
      by rewrite Hlower.
  - intros q rt' d ids e Hq Hrule Hlower Hmake.
    unfold set_quad_rule, mbind, M_bind, lift. rewrite Hq.
    rewrite resolve_quadrature_rule_cases.
    destruct Hrule as [-> | ->];
      [|destruct (decide (PyStr "default" = PyStr "default")); [|done]];
      rewrite Hlower; cbn; by rewrite Hmake.
Qed.

(** X8. The rule "default" counts as no rule: resolution then gives
    what it gives without the entry, and on success the parameters hold
    the rule made for the integration cell in place of the sentinel. *)
Theorem default_rule_is_no_rule
    (params : Params) (cell : UflCell) (it : string) (q : PyVal) :
  params !! "quadrature_rule" = Some (PyStr "default") ->
  resolve_quadrature_rule params cell it q
  = resolve_quadrature_rule (delete "quadrature_rule" params) cell it q
  ∧ (∀ params', resolve_quadrature_rule params cell it q = Ok params' ->
       ∃ d ids r,
         lower_integral_type (as_fiat_cell cell) it = Ok (d, ids)
         ∧ make_quadrature (construct_subelement (as_fiat_cell cell) d) q = Ok r
         ∧ params' = <["quadrature_rule" := PyRule r]> params).
Proof.
  intros Hdef. rewrite !resolve_quadrature_rule_cases, Hdef, lookup_delete_eq.
  destruct (decide (PyStr "default" = PyStr "default")); [|done]. split.
  - destruct (lower_integral_type _ _) as [[d ids]|]; cbn; [|done].
    destruct (make_quadrature _ _); cbn; [|done].
    by rewrite insert_delete_eq.
  - intros params'.
    destruct (lower_integral_type _ _) as [[d ids]|] eqn:Hl; cbn; [|done].
    destruct (make_quadrature _ _) as [r|] eqn:Hm; cbn; [|done].
    intros [= <-]. exists d, ids, r. repeat split; done.
Qed.

End QuadratureExtras.


(** ** What [create_kernel_config] allocates and when it fails *)

Section KernelConfigExtras.
Context `{Collaborators}.

Lemma length_multiindices_from n shapes :
  length (multiindices_from n shapes) = length shapes.
Proof. revert n. induction shapes as [|es shapes IH]; intros n; cbn; [done|]. by rewrite IH. Qed.

Lemma create_kernel_config_cases kernel_name form_data integral_data parameters
    diagonal rt :
  create_kernel_config kernel_name form_data integral_data parameters diagonal rt
  = let rt' :=
      advance rt (2 * length (concat (argument_shapes (tfd_arguments form_data)))) in
    match (if diagonal then
             match allocated_true form_data rt with
             | [a; _] => Ok [a; a]
             | _ => Raise (unpack_error 2 (length (tfd_arguments form_data)))
             end
           else Ok (allocated_true form_data rt)) with
    | Raise e => (Raise e, rt')
    | Ok true_ =>
        match parameters !! "scalar_type" with
        | None => (Raise KeyError, rt')
        | Some st =>
            match lower_integral_type
                    (as_fiat_cell (ufl_cell (tid_domain integral_data)))
                    (tid_integral_type integral_data) with
            | Raise e => (Raise e, rt')
            | Ok (d, ids) =>
                (Ok {| name := kernel_name;
                       kc_integral_type := tid_integral_type integral_data;
                       kc_subdomain_id := tid_subdomain_id integral_data;
                       kc_domain_number := tid_domain_number integral_data;
                       kc_coefficient_numbers := tid_coefficient_numbers integral_data;
                       kc_subspace_numbers := tid_subspace_numbers integral_data;
                       subspace_parts :=
                         map (λ _, None) (tid_subspace_numbers integral_data);
                       fem_config :=
                         {| fc_ufl_cell := ufl_cell (tid_domain integral_data);
                            fc_integral_type := tid_integral_type integral_data;
                            integration_dim := d;
                            entity_ids := ids;
                            argument_multiindices := true_;
                            argument_multiindices_dummy := allocated_dummy form_data rt;
                            index_cache := [];
                            fc_scalar_type := st |};
                       quadrature_indices := [];
                       kc_arguments := tfd_arguments form_data;
                       mode_irs := [] |}, rt')
            end
        end
    end.
Proof.
  unfold create_kernel_config, get_indices, allocated_true, allocated_dummy.
  unfold mbind at 1, M_bind at 1.
  rewrite (forM_multiindices id
             (λ arg, index_shape (ufl_element (ufl_function_space arg)))).
  unfold mbind at 1, M_bind at 1.
  rewrite (forM_multiindices Gem.extent id).
  rewrite !map_id.
  assert (Hshapes : map (λ x, map id (index_shape (ufl_element (ufl_function_space x))))
                      (tfd_arguments form_data)
                    = argument_shapes (tfd_arguments form_data)).
  { unfold argument_shapes. apply map_ext. intros a. apply map_id. }
  rewrite Hshapes.
  change (map (λ x, map Gem.extent (id x)) ?l) with (shape_of l).
  rewrite shape_of_multiindices_from.
  rewrite length_concat_multiindices_from.
  assert (Hargs : length (multiindices_from (next_index rt)
                            (argument_shapes (tfd_arguments form_data)))
                  = length (tfd_arguments form_data)).
  { rewrite length_multiindices_from. unfold argument_shapes. apply length_map. }
  assert (Hlen : concat (map (λ arg, index_shape (ufl_element (ufl_function_space arg)))
                           (tfd_arguments form_data))
                 = concat (argument_shapes (tfd_arguments form_data))) by done.
  rewrite Hlen, advance_advance.
  replace (length (concat (argument_shapes (tfd_arguments form_data)))
           + length (concat (argument_shapes (tfd_arguments form_data))))%nat
    with (2 * length (concat (argument_shapes (tfd_arguments form_data))))%nat by lia.
  cbn [advance next_index].
  set (true0 :=
         multiindices_from (next_index rt)
           (argument_shapes (tfd_arguments form_data))) in *.
  set (dummy0 := multiindices_from _ (argument_shapes (tfd_arguments form_data))).
  set (rt' := advance rt _).
  clearbody dummy0 rt'. rewrite <- Hargs. clear Hargs.
  unfold mbind, M_bind, create_fem_config, lift, raise, mret, M_ret.
  cbv zeta.
  destruct diagonal.
  - destruct true0 as [|a [|b [|c l]]]; cbn; try done.
    destruct (parameters !! "scalar_type"); cbn; [|done].
    by destruct (lower_integral_type _ _) as [[d ids]|].
  - destruct (parameters !! "scalar_type"); cbn; [|done].
    by destruct (lower_integral_type _ _) as [[d ids]|].
Qed.

Lemma allocated_true_length form_data rt :
  length (allocated_true form_data rt) = length (tfd_arguments form_data).
Proof.
  unfold allocated_true. rewrite length_multiindices_from.
  unfold argument_shapes. apply length_map.
Qed.

(** X9. The failures of [create_kernel_config], in the order the code
    meets them: a diagonal request on a form that has not exactly two
    arguments raises the ValueError of the failed unpacking; otherwise a
    missing "scalar_type" raises KeyError; otherwise an exception of
    [lower_integral_type] is passed on.  In each case the indices of both
    sets of multiindices have been made already: the index counter is
    advanced by two per argument axis. *)
Theorem create_kernel_config_failures kernel_name form_data integral_data
    parameters diagonal rt :
  let rt' :=
    advance rt (2 * length (concat (argument_shapes (tfd_arguments form_data)))) in
  (diagonal = true -> length (tfd_arguments form_data) ≠ 2%nat ->
   create_kernel_config kernel_name form_data integral_data parameters diagonal rt
   = (Raise (unpack_error 2 (length (tfd_arguments form_data))), rt'))
  ∧ (diagonal = false ∨ length (tfd_arguments form_data) = 2%nat ->
     parameters !! "scalar_type" = None ->
     create_kernel_config kernel_name form_data integral_data parameters diagonal rt
     = (Raise KeyError, rt'))
  ∧ (∀ st e,
       diagonal = false ∨ length (tfd_arguments form_data) = 2%nat ->
       parameters !! "scalar_type" = Some st ->
       lower_integral_type (as_fiat_cell (ufl_cell (tid_domain integral_data)))
         (tid_integral_type integral_data) = Raise e ->
       create_kernel_config kernel_name form_data integral_data parameters diagonal rt
       = (Raise e, rt')).
Proof.
  intros rt'. rewrite create_kernel_config_cases. cbv zeta. fold rt'.
  pose proof (allocated_true_length form_data rt) as Hlen.
  split; [|split].
  - intros -> Hne.
    destruct (allocated_true form_data rt) as [|a [|b [|c l]]]; cbn in Hlen; try done.
  - intros Hdiag Hst. rewrite Hst.
    destruct Hdiag as [->|H2]; [done|].
    destruct diagonal; [|done].
    destruct (allocated_true form_data rt) as [|a [|b [|c l]]]; cbn in Hlen;
      try done; try lia.
  - intros st e Hdiag Hst Hlower. rewrite Hst, Hlower.
    destruct Hdiag as [->|H2]; [done|].
    destruct diagonal; [|done].
    destruct (allocated_true form_data rt) as [|a [|b [|c l]]]; cbn in Hlen;
      try done; try lia.
Qed.

(** X10. A kernel configuration is returned only when the parameters
    hold a scalar type and the integral type lowers on the cell of the
    domain; it records that scalar type, dimension and entity list.  The
    call makes exactly two indices per argument axis and logs nothing;
    every index of the configuration is numbered from the counter of the
    call on, the dummy ones after the true ones, so none existed before.
    The entries that compilation fills later start empty, with one None
    per subspace number. *)
Theorem create_kernel_config_fresh kernel_name form_data integral_data
    parameters diagonal rt cfg rt' :
  create_kernel_config kernel_name form_data integral_data parameters diagonal rt
  = (Ok cfg, rt') ->
  let n := length (concat (argument_shapes (tfd_arguments form_data))) in
  rt' = advance rt (2 * n)
  ∧ parameters !! "scalar_type" = Some (fc_scalar_type (fem_config cfg))
  ∧ lower_integral_type (as_fiat_cell (ufl_cell (tid_domain integral_data)))
      (tid_integral_type integral_data)
    = Ok (integration_dim (fem_config cfg), entity_ids (fem_config cfg))
  ∧ map Gem.idx_id (concat (argument_multiindices_dummy (fem_config cfg)))
    = seq (next_index rt + n) n
  ∧ (diagonal = false ->
     map Gem.idx_id (concat (argument_multiindices (fem_config cfg)))
     = seq (next_index rt) n)
  ∧ (∀ i, i ∈ concat (argument_multiindices (fem_config cfg)) ->
          (next_index rt <= Gem.idx_id i < next_index rt + n)%nat)
  ∧ quadrature_indices cfg = []
  ∧ mode_irs cfg = []
  ∧ index_cache (fem_config cfg) = []
  ∧ subspace_parts cfg
    = replicate (length (kc_subspace_numbers cfg)) None.
Proof.
  rewrite create_kernel_config_cases. cbv zeta.
  set (n := length (concat (argument_shapes (tfd_arguments form_data)))).
  assert (Hdummy : map Gem.idx_id (concat (allocated_dummy form_data rt))
                   = seq (next_index rt + n) n).
  { unfold allocated_dummy. by rewrite ids_of_multiindices_from. }
  assert (Htrue : map Gem.idx_id (concat (allocated_true form_data rt))
                  = seq (next_index rt) n).
  { unfold allocated_true. by rewrite ids_of_multiindices_from. }
  assert (Hin : ∀ i, i ∈ concat (allocated_true form_data rt) ->
                     (next_index rt <= Gem.idx_id i < next_index rt + n)%nat).
  { intros i Hi. unfold allocated_true in Hi. by apply multiindices_from_ids in Hi. }
  assert (Hparts : ∀ l : list nat,
            map (λ _, @None Gem.expr) l = replicate (length l) None).
  { induction l as [|x l IH]; cbn; [done|]. by rewrite IH. }
  destruct diagonal.
  - destruct (allocated_true form_data rt) as [|a [|b [|c l]]] eqn:Ha; try done.
    destruct (parameters !! "scalar_type") as [st|]; [|done].
    destruct (lower_integral_type _ _) as [[d ids]|]; [|done].
    intros [= <- <-]. cbn.
    split_and!; try done; try apply Hparts.
    intros i Hi. apply Hin. cbn. cbn in Hi. rewrite app_nil_r in Hi.
    apply elem_of_app in Hi as [Hi|Hi]; apply elem_of_app; by left.
  - destruct (parameters !! "scalar_type") as [st|]; [|done].
    destruct (lower_integral_type _ _) as [[d ids]|]; [|done].
    intros [= <- <-]. cbn.
    split_and!; try done; try apply Hparts.
Qed.

End KernelConfigExtras.


(** ** What the grouping dictionaries hold *)

Section GroupingContents.
Context {K V : Type} `{EqDecision K}.

Lemma assoc_setdefault_append (k k' : K) (v : V) (d : list (K * list V)) :
  assoc k' (setdefault_append k v d)
  = if decide (k' = k) then Some (default [] (assoc k d) ++ [v]) else assoc k' d.
Proof.
  induction d as [|[k0 vs] d IH]; cbn.
  - by destruct (decide (k' = k)).
  - destruct (decide (k = k0)) as [->|Hne]; cbn.
    + by destruct (decide (k' = k0)).
    + rewrite IH. destruct (decide (k' = k0)) as [Hk0|?];
        destruct (decide (k' = k)) as [Hk|?]; subst; done.
Qed.

Lemma assoc_fst_None {W} (k : K) (d : list (K * W)) :
  k ∉ map fst d -> assoc k d = None.
Proof.
  induction d as [|[k0 w] d IH]; cbn; [done|].
  intros Hk. rewrite decide_False.
  - apply IH. intros ?. apply Hk. by apply list_elem_of_further.
  - intros ->. apply Hk. apply list_elem_of_here.
Qed.

Lemma assoc_Some_fst {W} (k : K) (w : W) (d : list (K * W)) :
  assoc k d = Some w -> k ∈ map fst d.
Proof.
  induction d as [|[k0 w0] d IH]; cbn; [done|].
  destruct (decide (k = k0)) as [->|?]; [intros _; apply list_elem_of_here|].
  intros ?. apply list_elem_of_further. by apply IH.
Qed.

Lemma assoc_NoDup_elem {W} (k : K) (w : W) (d : list (K * W)) :
  NoDup (map fst d) -> (k, w) ∈ d -> assoc k d = Some w.
Proof.
  induction d as [|[k0 w0] d IH]; cbn.
  - by intros _ ?%elem_of_nil.
  - intros [Hk0 Hnd]%NoDup_cons [[= -> ->]|Hin]%elem_of_cons.
    + by rewrite decide_True.
    + rewrite decide_False; [by apply IH|].
      intros ->. apply Hk0.
      apply list_elem_of_In, in_map_iff. exists (k0, w). split; [done|].
      by apply list_elem_of_In.
Qed.

Lemma fold_setdefault_contents {A} (key : A -> K) (val : A -> V)
    (pairs pre : list A) (d : list (K * list V)) :
  (∀ k, assoc k d = match filter (λ a, key a = k) pre with
                    | [] => None
                    | l => Some (map val l)
                    end) ->
  ∀ k, assoc k (fold_left (λ d a, setdefault_append (key a) (val a) d) pairs d)
       = match filter (λ a, key a = k) (pre ++ pairs) with
         | [] => None
         | l => Some (map val l)
         end.
Proof.
  revert pre d. induction pairs as [|a pairs IH]; intros pre d Hinv k; cbn.
  - by rewrite app_nil_r.
  - replace (pre ++ a :: pairs) with ((pre ++ [a]) ++ pairs)
      by (by rewrite <- app_assoc).
    apply IH. clear k. intros k.
    rewrite assoc_setdefault_append, filter_app, Hinv.
    rewrite (filter_cons _ a []), filter_nil.
    destruct (decide (k = key a)) as [->|Hne].
    + rewrite decide_True by done.
      destruct (filter (λ a0, key a0 = key a) pre) as [|x l]; cbn; [done|].
      by rewrite map_app.
    + rewrite decide_False by done. by rewrite app_nil_r.
Qed.

Lemma fold_setdefault_keys {A} (key : A -> K) (val : A -> V)
    (pairs : list A) (d : list (K * list V)) :
  map fst (fold_left (λ d a, setdefault_append (key a) (val a) d) pairs d)
  = fold_left (λ ks a, if decide (key a ∈ ks) then ks else ks ++ [key a])
      pairs (map fst d).
Proof.
  revert d. induction pairs as [|a pairs IH]; intros d; cbn; [done|].
  by rewrite IH, setdefault_append_keys.
Qed.

Lemma index_lookup (x : K) (l : list K) (p : nat) :
  index x l = Some p -> l !! p = Some x ∧ ∀ q, (q < p)%nat -> l !! q ≠ Some x.
Proof.
  revert p. induction l as [|y l IH]; intros p; cbn; [done|].
  destruct (decide (x = y)) as [->|Hne].
  - intros [= <-]. split; [done|]. intros q ?. lia.
  - destruct (index x l) as [p'|]; cbn; [|done]. intros [= <-].
    destruct (IH p' eq_refl) as [Hp Hq]. split; [done|].
    intros [|q] Hlt; cbn; [congruence|]. apply Hq. lia.
Qed.

Lemma index_elem (x : K) (l : list K) :
  x ∈ l -> ∃ p, index x l = Some p ∧ (p < length l)%nat.
Proof.
  induction l as [|y l IH]; cbn; [by intros ?%elem_of_nil|].
  intros Hx. destruct (decide (x = y)) as [->|Hne]; [exists 0%nat; split; [done|lia]|].
  apply elem_of_cons in Hx as [?|Hx]; [done|].
  destruct (IH Hx) as (p & -> & Hp). exists (S p). split; [done|lia].
Qed.

Lemma index_app_l (x : K) (l l' : list K) :
  x ∈ l -> index x (l ++ l') = index x l.
Proof.
  induction l as [|y l IH]; cbn; [by intros ?%elem_of_nil|].
  intros Hx. destruct (decide (x = y)); [done|].
  apply elem_of_cons in Hx as [?|Hx]; [done|]. by rewrite IH.
Qed.

Lemma index_app_new (x : K) (l : list K) :
  x ∉ l -> index x (l ++ [x]) = Some (length l).
Proof.
  induction l as [|y l IH]; cbn; intros Hx.
  - by rewrite decide_True.
  - rewrite decide_False.
    + rewrite IH; [done|]. intros ?. apply Hx. by apply list_elem_of_further.
    + intros ->. apply Hx. apply list_elem_of_here.
Qed.

(** Adding every key that is not yet there keeps the keys distinct and
    in the order of their first occurrence. *)
Lemma first_occurrence_order (ks pre new : list K) :
  NoDup ks -> (∀ k, k ∈ ks <-> k ∈ pre) ->
  (∀ i j k1 k2, (i < j)%nat -> ks !! i = Some k1 -> ks !! j = Some k2 ->
     ∃ p1 p2, index k1 pre = Some p1 ∧ index k2 pre = Some p2 ∧ (p1 < p2)%nat) ->
  let ks' := fold_left (λ ks k, if decide (k ∈ ks) then ks else ks ++ [k])
               new ks in
  NoDup ks' ∧ (∀ k, k ∈ ks' <-> k ∈ pre ++ new)
  ∧ (∀ i j k1 k2, (i < j)%nat -> ks' !! i = Some k1 -> ks' !! j = Some k2 ->
       ∃ p1 p2, index k1 (pre ++ new) = Some p1
                ∧ index k2 (pre ++ new) = Some p2 ∧ (p1 < p2)%nat).
Proof.
  revert ks pre. induction new as [|k new IH]; intros ks pre Hnd Hmem Hord; cbn.
  - by rewrite app_nil_r.
  - replace (pre ++ k :: new) with ((pre ++ [k]) ++ new)
      by (by rewrite <- app_assoc).
    apply IH.
    + destruct (decide (k ∈ ks)); [done|].
      apply NoDup_app. split; [done|]. split; [|apply NoDup_singleton].
      by intros x Hx ->%list_elem_of_singleton.
    + intros x. rewrite elem_of_app, list_elem_of_singleton, <- Hmem.
      destruct (decide (k ∈ ks)) as [Hin|Hin].
      * split; [by left|]. by intros [?| ->].
      * by rewrite elem_of_app, list_elem_of_singleton.
    + intros i j k1 k2 Hij Hi Hj.
      assert (Hpre : ∀ x, x ∈ ks -> index x (pre ++ [k]) = index x pre).
      { intros x Hx. apply index_app_l. by apply Hmem. }
      destruct (decide (k ∈ ks)) as [Hin|Hin].
      * destruct (Hord i j k1 k2 Hij Hi Hj) as (p1 & p2 & H1 & H2 & Hlt).
        exists p1, p2. rewrite !Hpre; [done| |]; by eapply list_elem_of_lookup_2.
      * assert (Hi' : ks !! i = Some k1).
        { apply lookup_lt_Some in Hj. rewrite length_app in Hj. cbn in Hj.
          rewrite lookup_app_l in Hi by lia. done. }
        destruct (decide (j < length ks)%nat) as [Hjl|Hjl].
        -- rewrite lookup_app_l in Hj by done.
           destruct (Hord i j k1 k2 Hij Hi' Hj) as (p1 & p2 & H1 & H2 & Hlt).
           exists p1, p2. rewrite !Hpre; [done| |]; by eapply list_elem_of_lookup_2.
        -- rewrite lookup_app_r in Hj by lia.
           apply list_lookup_singleton_Some in Hj as [_ <-].
           assert (Hk1 : k1 ∈ pre) by (apply Hmem; by eapply list_elem_of_lookup_2).
           destruct (index_elem k1 pre Hk1) as (p1 & Hp1 & Hlen).
           exists p1, (length pre). rewrite index_app_l by done.
           rewrite index_app_new by (by rewrite <- Hmem). done.
Qed.

End GroupingContents.

Lemma fold_left_pair {A S T} (f : S -> A -> S) (g : T -> A -> T)
    (l : list A) (s : S) (t : T) :
  fold_left (λ st a, (f (fst st) a, g (snd st) a)) l (s, t)
  = (fold_left f l s, fold_left g l t).
Proof. revert s t. induction l as [|a l IH]; intros s t; cbn; [done|]. by rewrite IH. Qed.

Lemma group_integral_data_folds (fds : list FormData) :
  group_integral_data fds
  = (fold_left (λ d fi, setdefault_append (integral_key (snd fi)) (snd fi) d)
       (all_integral_data fds) [],
     fold_left (λ d fi, setdefault_append (integral_key (snd fi)) (fst fi) d)
       (all_integral_data fds) []).
Proof.
  unfold group_integral_data. fold (all_integral_data fds).
  apply (fold_left_pair
           (λ d fi, setdefault_append (integral_key (snd fi)) (snd fi) d)
           (λ d fi, setdefault_append (integral_key (snd fi)) (fst fi) d)).
Qed.

Lemma group_integral_data_assoc (fds : list FormData) (k : IntegralKey) :
  assoc k (fst (group_integral_data fds))
  = match with_key k fds with [] => None | l => Some (map snd l) end
  ∧ assoc k (snd (group_integral_data fds))
    = match with_key k fds with [] => None | l => Some (map fst l) end.
Proof.
  rewrite group_integral_data_folds. cbn [fst snd].
  pose proof (fold_setdefault_contents (λ fi, integral_key (snd fi)) snd
                (all_integral_data fds) [] [] (λ _, eq_refl) k) as H1.
  pose proof (fold_setdefault_contents (λ fi, integral_key (snd fi)) fst
                (all_integral_data fds) [] [] (λ _, eq_refl) k) as H2.
  cbn [app] in H1, H2. by fold (with_key k fds) in H1, H2.
Qed.

Lemma group_integral_data_keys (fds : list FormData) :
  let ks := map fst (fst (group_integral_data fds)) in
  map fst (snd (group_integral_data fds)) = ks
  ∧ NoDup ks
  ∧ (∀ k, k ∈ ks <-> k ∈ keys_met fds)
  ∧ (∀ i j k1 k2, (i < j)%nat -> ks !! i = Some k1 -> ks !! j = Some k2 ->
       ∃ p1 p2, index k1 (keys_met fds) = Some p1
                ∧ index k2 (keys_met fds) = Some p2 ∧ (p1 < p2)%nat).
Proof.
  rewrite group_integral_data_folds. cbn [fst snd].
  rewrite !fold_setdefault_keys. cbn [map]. split; [done|].
  assert (Hfold : ∀ (l : list (FormData * IntegralData)) ks,
            fold_left (λ ks fi, if decide (integral_key (snd fi) ∈ ks) then ks
                                else ks ++ [integral_key (snd fi)]) l ks
            = fold_left (λ ks k, if decide (k ∈ ks) then ks else ks ++ [k])
                (map (λ fi, integral_key (snd fi)) l) ks).
  { induction l as [|fi l IH]; intros ks; cbn; [done|]. by rewrite IH. }
  rewrite Hfold. fold (keys_met fds).
  apply (first_occurrence_order [] [] (keys_met fds)).
  - apply NoDup_nil_2.
  - done.
  - intros i j k1 k2 _ Hi. by rewrite lookup_nil in Hi.
Qed.

(** X11. After the loops of lines 109-118 the entry of a key holds, in
    input order, exactly the integral data of the records that fall under
    it, and the second dictionary holds the record of each of them at the
    same place; a key that no integral data has is absent from both. *)
Theorem group_integral_data_contents (fds : list FormData) (k : IntegralKey) :
  (with_key k fds = [] ->
   assoc k (fst (group_integral_data fds)) = None
   ∧ assoc k (snd (group_integral_data fds)) = None)
  ∧ (with_key k fds ≠ [] ->
     assoc k (fst (group_integral_data fds)) = Some (map snd (with_key k fds))
     ∧ assoc k (snd (group_integral_data fds)) = Some (map fst (with_key k fds))).
Proof.
  destruct (group_integral_data_assoc fds k) as [-> ->].
  by destruct (with_key k fds).
Qed.


(** ** The renumbered coefficients and their positions *)

Lemma mapM_Forall2 {A B} (f : A -> result B) (xs : list A) (ys : list B) :
  mapM f xs = Ok ys -> Forall2 (λ x y, f x = Ok y) xs ys.
Proof.
  revert ys. induction xs as [|x xs IH]; intros ys; cbn.
  - intros [= <-]. constructor.
  - destruct (f x) as [y|] eqn:Hy; cbn; [|done].
    destruct (mapM f xs) as [ys'|]; cbn; [|done].
    intros [= <-]. constructor; [done|]. by apply IH.
Qed.

Lemma enumerate_from_filter {A} (P : A -> Prop) `{∀ x, Decision (P x)}
    (l : list A) (s : nat) :
  let E := filter (λ i_x, P (snd i_x)) (zip (seq s (length l)) l) in
  Forall (λ i_x, (s <= fst i_x)%nat ∧ l !! (fst i_x - s)%nat = Some (snd i_x)) E
  ∧ StronglySorted lt (map fst E)
  ∧ map snd E = filter P l
  ∧ (∀ p x, l !! p = Some x -> P x -> (s + p)%nat ∈ map fst E).
Proof.
  revert s. induction l as [|x l IH]; intros s.
  - cbn. split; [constructor|]. split; [constructor|]. split; [done|].
    intros p x. by rewrite lookup_nil.
  - destruct (IH (S s)) as (Hall & Hsort & Hsnd & Hmem).
    cbn [length seq].
    change (zip (s :: seq (S s) (length l)) (x :: l))
      with ((s, x) :: zip (seq (S s) (length l)) l).
    cbv zeta.
    assert (Hall' : Forall (λ i_x, (s <= fst i_x)%nat
                             ∧ (x :: l) !! (fst i_x - s)%nat = Some (snd i_x))
                      (filter (λ i_x, P (snd i_x)) (zip (seq (S s) (length l)) l))).
    { eapply Forall_impl; [exact Hall|]. intros [i y] [Hi Hy]. cbn in *.
      split; [lia|]. replace (i - s)%nat with (S (i - S s)) by lia. done. }
    rewrite filter_cons. cbn [snd]. destruct (decide (P x)) as [HP|HP].
    + split; [constructor; [cbn; split; [lia|by rewrite Nat.sub_diag] | done]|].
      split.
      { cbn. constructor; [done|].
        rewrite Forall_forall. intros j Hj.
        apply list_elem_of_In, in_map_iff in Hj as ([i y] & <- & Hin).
        apply list_elem_of_In in Hin. rewrite Forall_forall in Hall.
        destruct (Hall _ Hin) as [Hle _]. cbn in *. lia. }
      split; [by rewrite filter_cons, decide_True, <- Hsnd by done|].
      intros [|p] y; cbn.
      * intros _ _. rewrite Nat.add_0_r. apply list_elem_of_here.
      * intros Hy HPy. apply list_elem_of_further.
        replace (s + S p)%nat with (S s + p)%nat by lia. by eapply Hmem.
    + split; [done|]. split; [done|].
      split; [by rewrite filter_cons, decide_False by done|].
      intros [|p] y; cbn.
      * by intros [= ->].
      * intros Hy HPy. replace (s + S p)%nat with (S s + p)%nat by lia.
        by eapply Hmem.
Qed.

Section AggregationExtras.
Context `{Collaborators}.

Lemma reduce_coefficients_NoDup (fds : list FormData) :
  NoDup (reduce_coefficients fds).
Proof. rewrite reduce_coefficients_perm. apply NoDup_remove_dups. Qed.

Lemma first_replacement_Some (func coeff : Coefficient) (fds : list FormData) :
  first_replacement func fds = Some coeff
  <-> ∃ k fd, fds !! k = Some fd
              ∧ assoc func (function_replace_map fd) = Some coeff
              ∧ ∀ j fd', (j < k)%nat -> fds !! j = Some fd' ->
                  assoc func (function_replace_map fd') = None.
Proof.
  induction fds as [|fd fds IH]; cbn.
  - split; [done|]. by intros (k & fd & Hk & _).
  - destruct (assoc func (function_replace_map fd)) as [c|] eqn:Hc.
    + split.
      * intros [= <-]. exists 0%nat, fd. split; [done|]. split; [done|].
        intros j fd' Hj. lia.
      * intros ([|k] & fd' & Hk & Hfd' & Hfirst); cbn in Hk.
        -- injection Hk as <-. congruence.
        -- specialize (Hfirst 0%nat fd ltac:(lia) eq_refl). congruence.
    + rewrite IH. split.
      * intros (k & fd' & Hk & Hfd' & Hfirst). exists (S k), fd'.
        split; [done|]. split; [done|]. intros [|j] fd'' Hj; cbn.
        -- by intros [= <-].
        -- apply Hfirst. lia.
      * intros ([|k] & fd' & Hk & Hfd' & Hfirst); cbn in Hk.
        -- injection Hk as <-. congruence.
        -- exists k, fd'. split; [done|]. split; [done|].
           intros j fd'' Hj Hfd''. apply (Hfirst (S j)); [lia | done].
Qed.

Lemma first_replacement_None (func : Coefficient) (fds : list FormData) :
  first_replacement func fds = None
  <-> ∀ fd, fd ∈ fds -> assoc func (function_replace_map fd) = None.
Proof.
  induction fds as [|fd fds IH]; cbn.
  - split; [|done]. by intros _ fd ?%elem_of_nil.
  - destruct (assoc func (function_replace_map fd)) as [c|] eqn:Hc.
    + split; [done|]. intros Hall.
      specialize (Hall fd ltac:(apply list_elem_of_here)). congruence.
    + rewrite IH. split.
      * intros Hall fd' [->|?]%elem_of_cons; [done | by apply Hall].
      * intros Hall fd' ?. apply Hall. by apply list_elem_of_further.
Qed.

Lemma renumbering_keys (F : Coefficient -> option Coefficient)
    (l : list Coefficient) (s : nat) (x : Coefficient) :
  x ∈ map fst
        (omap (λ ifunc : nat * Coefficient,
                 coeff ← F (snd ifunc);
                 Some (snd ifunc, renumbered (fst ifunc) coeff))
              (zip (seq s (length l)) l)) ->
  x ∈ l.
Proof.
  revert s. induction l as [|y l IH]; intros s; cbn; [done|].
  destruct (F y) as [c|]; cbn.
  - intros [->|Hx]%elem_of_cons; [apply list_elem_of_here|].
    apply list_elem_of_further. by eapply IH.
  - intros Hx. apply list_elem_of_further. by eapply IH.
Qed.

Lemma renumbering_lookup (F : Coefficient -> option Coefficient)
    (l : list Coefficient) (s i : nat) (func : Coefficient) :
  NoDup l -> l !! i = Some func ->
  assoc func
    (omap (λ ifunc : nat * Coefficient,
             coeff ← F (snd ifunc);
             Some (snd ifunc, renumbered (fst ifunc) coeff))
          (zip (seq s (length l)) l))
  = renumbered (s + i) <$> F func.
Proof.
  revert s i. induction l as [|y l IH]; intros s i Hnd Hi; [done|].
  apply NoDup_cons in Hnd as [Hy Hnd]. cbn.
  destruct i as [|i]; cbn in Hi.
  - injection Hi as ->. rewrite Nat.add_0_r.
    destruct (F func) as [c|]; cbn.
    + by rewrite decide_True.
    + apply assoc_fst_None. intros Hin. by apply renumbering_keys in Hin.
  - assert (Hne : func ≠ y).
    { intros ->. apply Hy. by eapply list_elem_of_lookup_2. }
    replace (s + S i)%nat with (S s + i)%nat by lia.
    destruct (F y) as [c|]; cbn.
    + rewrite decide_False by done. exact (IH (S s) i Hnd Hi).
    + exact (IH (S s) i Hnd Hi).
Qed.

Lemma build_function_replace_map_renumbering
    (reduced : list Coefficient) (fds : list FormData) :
  build_function_replace_map reduced fds
  = omap (λ ifunc : nat * Coefficient,
            coeff ← (λ func, first_replacement func fds) (snd ifunc);
            Some (snd ifunc, renumbered (fst ifunc) coeff))
         (zip (seq 0 (length reduced)) reduced).
Proof. reflexivity. Qed.

Lemma TSFCFormData_fields fds original diagonal t :
  TSFCFormData__init__ fds original diagonal = Ok t ->
  ∃ fd0,
    head fds = Some fd0
    ∧ remove_dups (map arguments fds) = [tfd_arguments t]
    ∧ tfd_original_form t = original
    ∧ tfd_reduced_coefficients t = reduce_coefficients fds
    ∧ tfd_original_coefficient_positions t
      = map fst (filter (λ i_f, snd i_f ∈ reduce_coefficients fds)
                        (enumerate (coefficients original)))
    ∧ tfd_function_replace_map t
      = build_function_replace_map (reduce_coefficients fds) fds
    ∧ tfd_reduced_subspaces t = reduced_subspaces fd0
    ∧ tfd_original_subspace_positions t = original_subspace_positions fd0
    ∧ tfd_subspace_replace_map t = subspace_replace_map fd0
    ∧ ∃ self,
        tfd_original_form self = original
        ∧ tfd_reduced_coefficients self = tfd_reduced_coefficients t
        ∧ tfd_original_coefficient_positions self
          = tfd_original_coefficient_positions t
        ∧ tfd_function_replace_map self = tfd_function_replace_map t
        ∧ mapM (λ entry,
                  form_data_list ←
                    from_option KeyError
                      (assoc (fst entry) (snd (group_integral_data fds)));
                  form_data ← from_option IndexError (head form_data_list);
                  TSFCIntegralData__init__ (snd entry) form_data self)
               (fst (group_integral_data fds))
          = Ok (tfd_integral_data t).
Proof.
  unfold TSFCFormData__init__.
  destruct (remove_dups (map arguments fds)) as [|a [|b l]]; cbn; try done.
  destruct (head fds) as [fd0|]; cbn; [|done].
  destruct (group_integral_data fds) as [d1 d2]. cbn [fst snd].
  match goal with |- context [mapM ?f d1] => destruct (mapM f d1) as [l'|] eqn:Hl end;
    cbn; [|done].
  intros [= <-]. cbn. exists fd0. split_and!; try done.
  eexists. split_and!; [..|exact Hl]; done.
Qed.

(** X12. When the aggregator returns, every record has the argument
    tuple that is stored, so there is at least one record: on an empty
    tuple of records it raises the error of line 83.  The subspace data
    are those of the first record, whatever the later ones hold. *)
Theorem TSFCFormData_first_record
    (fds : list FormData) (original : Form) (diagonal : bool) :
  TSFCFormData__init__ [] original diagonal = Raise InconsistentArgumentsError
  ∧ ∀ t, TSFCFormData__init__ fds original diagonal = Ok t ->
      (∀ fd, fd ∈ fds -> arguments fd = tfd_arguments t)
      ∧ tfd_original_form t = original
      ∧ ∃ fd0 rest,
          fds = fd0 :: rest
          ∧ tfd_reduced_subspaces t = reduced_subspaces fd0
          ∧ tfd_original_subspace_positions t = original_subspace_positions fd0
          ∧ tfd_subspace_replace_map t = subspace_replace_map fd0.
Proof.
  split; [done|]. intros t Ht.
  apply TSFCFormData_fields in Ht
    as (fd0 & Hhead & Hargs & Horig & _ & _ & _ & Hs1 & Hs2 & Hs3 & _).
  split.
  - intros fd Hfd. apply (remove_dups_singleton _ _ Hargs).
    apply list_elem_of_In, in_map. by apply list_elem_of_In.
  - split; [done|]. destruct fds as [|fd fds']; [done|].
    injection Hhead as ->. by exists fd0, fds'.
Qed.

(** X13. The function replace map of the aggregated form data: a
    reduced coefficient at position [i] is mapped to a new coefficient of
    count [i] over the function space that the first record renumbering
    it gives it, and is no key when no record renumbers it; nothing else
    is a key.  So the count of a value is the position of its key. *)
Theorem function_replace_map_renumbers
    (fds : list FormData) (original : Form) (diagonal : bool) (t : TSFCFormData) :
  TSFCFormData__init__ fds original diagonal = Ok t ->
  (∀ i func, tfd_reduced_coefficients t !! i = Some func ->
     (∀ k fd coeff,
        fds !! k = Some fd ->
        assoc func (function_replace_map fd) = Some coeff ->
        (∀ j fd', (j < k)%nat -> fds !! j = Some fd' ->
           assoc func (function_replace_map fd') = None) ->
        assoc func (tfd_function_replace_map t) = Some (renumbered i coeff))
     ∧ ((∀ fd, fd ∈ fds -> assoc func (function_replace_map fd) = None) ->
        assoc func (tfd_function_replace_map t) = None))
  ∧ (∀ func new_coeff,
       assoc func (tfd_function_replace_map t) = Some new_coeff ->
       tfd_reduced_coefficients t !! count new_coeff = Some func).
Proof.
  intros Ht.
  apply TSFCFormData_fields in Ht
    as (fd0 & _ & _ & _ & Hred & _ & Hmap & _).
  rewrite Hred, Hmap, build_function_replace_map_renumbering.
  pose proof (reduce_coefficients_NoDup fds) as Hnd.
  assert (Hlookup : ∀ i func, reduce_coefficients fds !! i = Some func ->
            assoc func
              (omap (λ ifunc : nat * Coefficient,
                       coeff ← (λ func, first_replacement func fds) (snd ifunc);
                       Some (snd ifunc, renumbered (fst ifunc) coeff))
                    (zip (seq 0 (length (reduce_coefficients fds)))
                         (reduce_coefficients fds)))
            = renumbered i <$> first_replacement func fds).
  { intros i func Hi.
    by rewrite (renumbering_lookup (λ func, first_replacement func fds)
                  _ 0 i func Hnd Hi). }
  split.
  - intros i func Hi. rewrite (Hlookup i func Hi). split.
    + intros k fd coeff Hk Hfd Hfirst.
      assert (Hf : first_replacement func fds = Some coeff).
      { apply first_replacement_Some. by exists k, fd. }
      by rewrite Hf.
    + intros Hnone. apply first_replacement_None in Hnone. by rewrite Hnone.
  - intros func new_coeff Hassoc.
    assert (Hin : func ∈ reduce_coefficients fds).
    { apply assoc_Some_fst in Hassoc.
      exact (renumbering_keys (λ func, first_replacement func fds) _ 0 _ Hassoc). }
    apply list_elem_of_lookup_1 in Hin as [i Hi].
    rewrite (Hlookup i func Hi) in Hassoc.
    destruct (first_replacement func fds) as [c|]; [|done].
    injection Hassoc as <-. done.
Qed.

(** X14. The original coefficient positions of the aggregated form
    data are strictly increasing and are exactly the positions of the
    original form at which a reduced coefficient stands. *)
Theorem original_coefficient_positions_select
    (fds : list FormData) (original : Form) (diagonal : bool) (t : TSFCFormData) :
  TSFCFormData__init__ fds original diagonal = Ok t ->
  StronglySorted lt (tfd_original_coefficient_positions t)
  ∧ (∀ p, p ∈ tfd_original_coefficient_positions t
          <-> ∃ f, coefficients original !! p = Some f
                   ∧ f ∈ tfd_reduced_coefficients t).
Proof.
  intros Ht.
  apply TSFCFormData_fields in Ht as (fd0 & _ & _ & _ & Hred & Hpos & _).
  rewrite Hred, Hpos. unfold enumerate.
  destruct (enumerate_from_filter (λ f, f ∈ reduce_coefficients fds)
              (coefficients original) 0) as (Hall & Hsort & _ & Hmem).
  split; [done|]. intros p. split.
  - intros Hp. apply list_elem_of_In, in_map_iff in Hp as ([i f] & <- & Hin).
    apply list_elem_of_In in Hin. rewrite Forall_forall in Hall.
    destruct (Hall _ Hin) as [_ Hf]. cbn in Hf. rewrite Nat.sub_0_r in Hf.
    exists f. split; [done|]. by apply list_elem_of_filter in Hin as [? _].
  - intros (f & Hf & Hin). by apply (Hmem p f).
Qed.

(** X15. When the coefficients of the original form stand in the order
    of their counts and every reduced coefficient is one of them, the
    positions are aligned with the reduced coefficients: position [j] is
    where reduced coefficient [j] stands in the original form. *)
Theorem original_coefficient_positions_aligned
    (fds : list FormData) (original : Form) (diagonal : bool) (t : TSFCFormData) :
  TSFCFormData__init__ fds original diagonal = Ok t ->
  StronglySorted (λ a b, (count a < count b)%nat) (coefficients original) ->
  (∀ c, c ∈ tfd_reduced_coefficients t -> c ∈ coefficients original) ->
  Forall2 (λ p c, coefficients original !! p = Some c)
    (tfd_original_coefficient_positions t) (tfd_reduced_coefficients t).
Proof.
  intros Ht Hsorted Hsub.
  apply TSFCFormData_fields in Ht as (fd0 & _ & _ & _ & Hred & Hpos & _).
  rewrite Hred in Hsub |- *. rewrite Hpos. unfold enumerate.
  destruct (enumerate_from_filter (λ f, f ∈ reduce_coefficients fds)
              (coefficients original) 0) as (Hall & _ & Hsnd & _).
  set (E := filter _ (zip _ _)) in *.
  assert (Hfilter : filter (λ f, f ∈ reduce_coefficients fds) (coefficients original)
                    = reduce_coefficients fds).
  { assert (Hinj : ∀ a b, a ∈ coefficients original -> b ∈ coefficients original ->
                     count a = count b -> a = b).
    { clear -Hsorted. induction Hsorted as [|x l Hl IH Hx]; intros a b Ha Hb Hab.
      - by apply elem_of_nil in Ha.
      - rewrite Forall_forall in Hx.
        apply elem_of_cons in Ha as [->|Ha]; apply elem_of_cons in Hb as [->|Hb];
          try done.
        + specialize (Hx _ Hb). lia.
        + specialize (Hx _ Ha). lia.
        + by apply IH. }
    apply (Sorted_by_key_unique count).
    - intros a b [_ Ha]%list_elem_of_filter [_ Hb]%list_elem_of_filter.
      by apply Hinj.
    - apply StronglySorted_Sorted.
      clear -Hsorted. induction Hsorted as [|x l Hl IH Hx]; [constructor|].
      rewrite filter_cons. destruct (decide _); [|done].
      constructor; [done|]. rewrite Forall_forall in Hx |- *.
      intros y [_ Hy]%list_elem_of_filter. specialize (Hx _ Hy). lia.
    - apply sorted_Sorted.
    - apply NoDup_Permutation.
      + apply NoDup_filter. apply (NoDup_fmap_1 count).
        clear -Hsorted. induction Hsorted as [|x l Hl IH Hx]; cbn; [constructor|].
        apply NoDup_cons. split; [|done].
        rewrite Forall_forall in Hx. intros Hin.
        apply list_elem_of_In, in_map_iff in Hin as (y & Hy & Hin).
        apply list_elem_of_In in Hin. specialize (Hx _ Hin). lia.
      + apply reduce_coefficients_NoDup.
      + intros c. rewrite list_elem_of_filter. split; [by intros [? _]|].
        intros Hc. split; [done | by apply Hsub]. }
  rewrite <- Hfilter, <- Hsnd.
  clear -Hall. induction Hall as [|[i f] E [_ Hf] _ IH]; cbn; [constructor|].
  constructor; [|done]. cbn in Hf. by rewrite Nat.sub_0_r in Hf.
Qed.

End AggregationExtras.


(** ** The integral data of the aggregated form *)

Lemma mapM_from_option_None {A B} (e : exn) (g : A -> option B) (xs : list A) (x : A) :
  x ∈ xs -> g x = None -> mapM (λ x, from_option e (g x)) xs = Raise e.
Proof.
  induction xs as [|y xs IH]; cbn; [by intros ?%elem_of_nil|].
  intros Hx Hg. destruct (g y) as [b|] eqn:Hy; cbn; [|done].
  apply elem_of_cons in Hx as [->|Hx]; [congruence|].
  by rewrite IH.
Qed.

Lemma mapM_from_option_Some {A B} (e : exn) (g : A -> option B) (xs : list A) :
  (∀ x, x ∈ xs -> is_Some (g x)) ->
  ∃ ys, mapM (λ x, from_option e (g x)) xs = Ok ys.
Proof.
  induction xs as [|y xs IH]; cbn; [by eexists|].
  intros Hall. destruct (Hall y ltac:(apply list_elem_of_here)) as [b ->]. cbn.
  destruct IH as [ys ->].
  - intros x Hx. apply Hall. by apply list_elem_of_further.
  - cbn. by eexists.
Qed.

Lemma mapM_returns {A B} (f : A -> result B) (xs : list A) :
  (∀ x, x ∈ xs -> ∃ y, f x = Ok y) -> ∃ ys, mapM f xs = Ok ys.
Proof.
  induction xs as [|x xs IH]; cbn; [by eexists|].
  intros Hall. destruct (Hall x ltac:(apply list_elem_of_here)) as [y ->]. cbn.
  destruct IH as [ys ->].
  - intros x' Hx'. apply Hall. by apply list_elem_of_further.
  - cbn. by eexists.
Qed.

Section IntegralDataExtras.
Context `{Collaborators}.

Lemma TSFCIntegralData_fields idt fd t d :
  TSFCIntegralData__init__ idt fd t = Ok d ->
  ∃ i0,
    head idt = Some i0
    ∧ tid_domain d = domain i0
    ∧ tid_integral_type d = integral_type i0
    ∧ tid_subdomain_id d = subdomain_id i0
    ∧ assoc (domain i0) (domain_numbering (tfd_original_form t))
      = Some (tid_domain_number d)
    ∧ tid_integrals d
      = rewritten_integrals (tfd_function_replace_map t) (subspace_replace_map fd) i0
    ∧ tid_integral_coefficients d = integral_coefficients i0
    ∧ mapM (λ f, from_option KeyError (assoc f (tfd_function_replace_map t)))
           (integral_coefficients i0)
      = Ok (tid_coefficients d)
    ∧ mapM (λ f,
              i ← from_option (ValueError "x not in list")
                    (index f (tfd_reduced_coefficients t));
              from_option IndexError
                (tfd_original_coefficient_positions t !! i))
           (integral_coefficients i0)
      = Ok (tid_coefficient_numbers d)
    ∧ tid_original_subspaces d
      = enabled (reduced_subspaces fd) (enabled_subspaces i0)
    ∧ mapM (λ c, from_option KeyError (assoc c (subspace_replace_map fd)))
           (enabled (reduced_subspaces fd) (enabled_subspaces i0))
      = Ok (tid_subspaces d)
    ∧ tid_subspace_numbers d
      = enabled (original_subspace_positions fd) (enabled_subspaces i0).
Proof.
  unfold TSFCIntegralData__init__.
  destruct (head idt) as [i0|]; cbn; [|done].
  destruct (assoc (domain i0) _) as [n|] eqn:Hn; cbn; [|done].
  match goal with
  | |- mbind _ ?m = Ok _ -> _ => destruct m as [cs|] eqn:Hcs; cbn; [|done]
  end.
  match goal with
  | |- mbind _ ?m = Ok _ -> _ => destruct m as [ns|] eqn:Hns; cbn; [|done]
  end.
  match goal with
  | |- mbind _ ?m = Ok _ -> _ => destruct m as [ss|] eqn:Hss; cbn; [|done]
  end.
  intros [= <-]. cbn. exists i0. split_and!; done.
Qed.

Lemma TSFCIntegralData_self idt fd self t :
  tfd_original_form self = tfd_original_form t ->
  tfd_reduced_coefficients self = tfd_reduced_coefficients t ->
  tfd_original_coefficient_positions self = tfd_original_coefficient_positions t ->
  tfd_function_replace_map self = tfd_function_replace_map t ->
  TSFCIntegralData__init__ idt fd self = TSFCIntegralData__init__ idt fd t.
Proof.
  intros H1 H2 H3 H4. unfold TSFCIntegralData__init__.
  by rewrite H1, H2, H3, H4.
Qed.

Lemma TSFCFormData_integral_data_built fds original diagonal t :
  TSFCFormData__init__ fds original diagonal = Ok t ->
  Forall2 (λ entry d,
             ∃ form_data_list form_data,
               assoc (fst entry) (snd (group_integral_data fds))
               = Some form_data_list
               ∧ head form_data_list = Some form_data
               ∧ TSFCIntegralData__init__ (snd entry) form_data t = Ok d)
    (fst (group_integral_data fds)) (tfd_integral_data t).
Proof.
  intros Ht.
  apply TSFCFormData_fields in Ht
    as (fd0 & _ & _ & Horig & _ & _ & _ & _ & _ & _ & self & H1 & H2 & H3 & H4 & Hl).
  apply mapM_Forall2 in Hl. eapply Forall2_impl; [exact Hl|].
  intros [k vs] d. cbn.
  destruct (assoc k _) as [fdl|] eqn:Hfdl; cbn; [|done].
  destruct (head fdl) as [fd|] eqn:Hfd; cbn; [|done].
  intros Hd. exists fdl, fd. split; [done|]. split; [done|].
  rewrite <- Hd. symmetry. apply TSFCIntegralData_self; try done.
  by rewrite H1, Horig.
Qed.

(** X16. The failures of [TSFCIntegralData.__init__], in the order the
    code meets them: IndexError on an empty tuple of integral data;
    KeyError when the original form does not number the domain; KeyError
    when an integral coefficient is no key of the function replace map;
    and, when every reduced coefficient has a position, the ValueError of
    [list.index] when an integral coefficient is not a reduced
    coefficient. *)
Theorem TSFCIntegralData_failures (fd : FormData) (t : TSFCFormData) :
  TSFCIntegralData__init__ [] fd t = Raise IndexError
  ∧ (∀ i0 rest,
       assoc (domain i0) (domain_numbering (tfd_original_form t)) = None ->
       TSFCIntegralData__init__ (i0 :: rest) fd t = Raise KeyError)
  ∧ (∀ i0 rest f,
       is_Some (assoc (domain i0) (domain_numbering (tfd_original_form t))) ->
       f ∈ integral_coefficients i0 ->
       assoc f (tfd_function_replace_map t) = None ->
       TSFCIntegralData__init__ (i0 :: rest) fd t = Raise KeyError)
  ∧ (∀ i0 rest f,
       is_Some (assoc (domain i0) (domain_numbering (tfd_original_form t))) ->
       (∀ g, g ∈ integral_coefficients i0 ->
             is_Some (assoc g (tfd_function_replace_map t))) ->
       length (tfd_reduced_coefficients t)
       = length (tfd_original_coefficient_positions t) ->
       f ∈ integral_coefficients i0 ->
       f ∉ tfd_reduced_coefficients t ->
       TSFCIntegralData__init__ (i0 :: rest) fd t
       = Raise (ValueError "x not in list")).
Proof.
  split; [done|]. split; [|split].
  - intros i0 rest Hdom. unfold TSFCIntegralData__init__. cbn. by rewrite Hdom.
  - intros i0 rest f [n Hdom] Hf Hnone. unfold TSFCIntegralData__init__. cbn.
    rewrite Hdom. cbn.
    by rewrite (mapM_from_option_None KeyError
                  (λ f, assoc f (tfd_function_replace_map t)) _ f Hf Hnone).
  - intros i0 rest f [n Hdom] Hall Hlen Hf Hnot.
    unfold TSFCIntegralData__init__. cbn. rewrite Hdom. cbn.
    destruct (mapM_from_option_Some KeyError
                (λ f, assoc f (tfd_function_replace_map t)) _ Hall) as [cs ->].
    cbn.
    assert (Hfail : ∀ fs, f ∈ fs ->
              mapM (λ f,
                      i ← from_option (ValueError "x not in list")
                            (index f (tfd_reduced_coefficients t));
                      from_option IndexError
                        (tfd_original_coefficient_positions t !! i)) fs
              = Raise (ValueError "x not in list")).
    { induction fs as [|g fs IH]; [by intros ?%elem_of_nil|].
      intros Hin. cbn.
      destruct (index g (tfd_reduced_coefficients t)) as [i|] eqn:Hi; cbn; [|done].
      assert (Hg : g ∈ tfd_reduced_coefficients t).
      { apply index_lookup in Hi as [Hi _]. by eapply list_elem_of_lookup_2. }
      apply index_lookup in Hi as [Hi _]. apply lookup_lt_Some in Hi.
      destruct (lookup_lt_is_Some_2 (tfd_original_coefficient_positions t) i
                  ltac:(lia)) as [p ->]. cbn.
      apply elem_of_cons in Hin as [->|Hin]; [done|].
      by rewrite IH. }
    by rewrite (Hfail _ Hf).
Qed.

(** X17. [TSFCIntegralData.__init__] returns when the tuple of
    integral data is not empty, the original form numbers the domain of
    its first element, every integral coefficient of that element is a
    key of the function replace map and a reduced coefficient, every
    reduced coefficient has a position, and every enabled subspace is a
    key of the subspace replace map of the record.  What it returns does
    not depend on the other elements of the tuple. *)
Theorem TSFCIntegralData_returns
    (i0 : IntegralData) (rest : list IntegralData) (fd : FormData)
    (t : TSFCFormData) :
  is_Some (assoc (domain i0) (domain_numbering (tfd_original_form t))) ->
  (∀ f, f ∈ integral_coefficients i0 ->
        is_Some (assoc f (tfd_function_replace_map t))
        ∧ f ∈ tfd_reduced_coefficients t) ->
  length (tfd_reduced_coefficients t)
  = length (tfd_original_coefficient_positions t) ->
  (∀ c, c ∈ enabled (reduced_subspaces fd) (enabled_subspaces i0) ->
        is_Some (assoc c (subspace_replace_map fd))) ->
  ∃ d, TSFCIntegralData__init__ (i0 :: rest) fd t = Ok d
       ∧ ∀ rest', TSFCIntegralData__init__ (i0 :: rest') fd t = Ok d.
Proof.
  intros [n Hdom] Hcoeff Hlen Hsub.
  unfold TSFCIntegralData__init__. cbn [head from_option]. cbn [mbind result_bind bind].
  rewrite Hdom. cbn [from_option bind].
  destruct (mapM_from_option_Some KeyError
              (λ f, assoc f (tfd_function_replace_map t)) (integral_coefficients i0))
    as [cs ->]; [intros f Hf; by apply Hcoeff|].
  destruct (mapM_returns
              (λ f,
                 i ← from_option (ValueError "x not in list")
                       (index f (tfd_reduced_coefficients t));
                 from_option IndexError
                   (tfd_original_coefficient_positions t !! i))
              (integral_coefficients i0)) as [ns ->].
  { intros f Hf. destruct (Hcoeff f Hf) as [_ Hin].
    destruct (index_elem f _ Hin) as (i & -> & Hi). cbn.
    destruct (lookup_lt_is_Some_2 (tfd_original_coefficient_positions t) i
                ltac:(lia)) as [p ->].
    by exists p. }
  destruct (mapM_from_option_Some KeyError
              (λ c, assoc c (subspace_replace_map fd))
              (enabled (reduced_subspaces fd) (enabled_subspaces i0)) Hsub)
    as [ss ->].
  cbn. eexists. split; reflexivity.
Qed.

(** X18. What a [TSFCIntegralData] that is built holds: the new
    coefficients are the values of the function replace map at the
    integral coefficients, and each coefficient number is the original
    position stored for the first occurrence of the integral coefficient
    among the reduced coefficients.  So when the positions are aligned
    with the reduced coefficients, each number is where the integral
    coefficient stands in the original form. *)
Theorem TSFCIntegralData_coefficient_numbers
    (idt : list IntegralData) (fd : FormData) (t : TSFCFormData)
    (d : TSFCIntegralData) :
  TSFCIntegralData__init__ idt fd t = Ok d ->
  Forall2 (λ f c, assoc f (tfd_function_replace_map t) = Some c)
    (tid_integral_coefficients d) (tid_coefficients d)
  ∧ Forall2 (λ f n, ∃ j, index f (tfd_reduced_coefficients t) = Some j
                         ∧ tfd_original_coefficient_positions t !! j = Some n)
      (tid_integral_coefficients d) (tid_coefficient_numbers d)
  ∧ (Forall2 (λ p c, coefficients (tfd_original_form t) !! p = Some c)
       (tfd_original_coefficient_positions t) (tfd_reduced_coefficients t) ->
     Forall2 (λ f n, coefficients (tfd_original_form t) !! n = Some f)
       (tid_integral_coefficients d) (tid_coefficient_numbers d)).
Proof.
  intros Hd.
  apply TSFCIntegralData_fields in Hd
    as (i0 & _ & _ & _ & _ & _ & _ & -> & Hcs & Hns & _).
  apply mapM_Forall2 in Hcs, Hns.
  assert (Hnum : Forall2 (λ f n, ∃ j, index f (tfd_reduced_coefficients t) = Some j
                                 ∧ tfd_original_coefficient_positions t !! j = Some n)
                   (integral_coefficients i0) (tid_coefficient_numbers d)).
  { eapply Forall2_impl; [exact Hns|]. intros f n. cbn.
    destruct (index f _) as [j|]; cbn; [|done].
    destruct (_ !! j) as [p|] eqn:Hp; cbn; [|done].
    intros [= <-]. by exists j. }
  split.
  - eapply Forall2_impl; [exact Hcs|]. intros f c. cbn.
    destruct (assoc f _); cbn; [|done]. by intros [= <-].
  - split; [done|]. intros Haligned.
    eapply Forall2_impl; [exact Hnum|]. intros f n (j & Hj & Hp). cbn.
    apply index_lookup in Hj as [Hj _].
    destruct (Forall2_lookup_l _ _ _ _ _ Haligned Hp) as (c & Hc & Hpc).
    congruence.
Qed.

Lemma enabled_aligned {A B} (xs : list A) (ys : list B) (flags : list bool) :
  length xs = length ys ->
  Forall2 (λ x y, ∃ i, xs !! i = Some x ∧ ys !! i = Some y
                       ∧ flags !! i = Some true)
    (enabled xs flags) (enabled ys flags).
Proof.
  revert ys flags. induction xs as [|x xs IH]; intros ys flags Hlen.
  { destruct ys; [|done]. unfold enabled. cbn. constructor. }
  destruct ys as [|y ys]; [done|].
  destruct flags as [|b flags]; [unfold enabled; cbn; constructor|].
  injection Hlen as Hlen. specialize (IH ys flags Hlen).
  assert (Hshift : Forall2 (λ x' y', ∃ i, (x :: xs) !! i = Some x'
                                          ∧ (y :: ys) !! i = Some y'
                                          ∧ (b :: flags) !! i = Some true)
                     (enabled xs flags) (enabled ys flags)).
  { eapply Forall2_impl; [exact IH|]. intros x' y' (i & ? & ? & ?).
    by exists (S i). }
  unfold enabled in *.
  change (zip (x :: xs) (b :: flags)) with ((x, b) :: zip xs flags).
  change (zip (y :: ys) (b :: flags)) with ((y, b) :: zip ys flags).
  rewrite !filter_cons. cbn [snd].
  destruct (decide (b = true)) as [->|?]; [|done].
  cbn. constructor; [by exists 0%nat | done].
Qed.

(** X19. The subspaces of a [TSFCIntegralData] that is built: the
    new subspaces are the values of the record's subspace replace map at
    the enabled subspaces; and when the record has as many reduced
    subspaces as subspace positions, each subspace number is the
    position stored at the place of an enabled subspace. *)
Theorem TSFCIntegralData_subspaces
    (idt : list IntegralData) (fd : FormData) (t : TSFCFormData)
    (d : TSFCIntegralData) :
  TSFCIntegralData__init__ idt fd t = Ok d ->
  Forall2 (λ c c', assoc c (subspace_replace_map fd) = Some c')
    (tid_original_subspaces d) (tid_subspaces d)
  ∧ (length (reduced_subspaces fd) = length (original_subspace_positions fd) ->
     ∃ i0, head idt = Some i0
           ∧ Forall2 (λ c n, ∃ i, reduced_subspaces fd !! i = Some c
                                  ∧ original_subspace_positions fd !! i = Some n
                                  ∧ enabled_subspaces i0 !! i = Some true)
               (tid_original_subspaces d) (tid_subspace_numbers d)).
Proof.
  intros Hd.
  apply TSFCIntegralData_fields in Hd
    as (i0 & Hhead & _ & _ & _ & _ & _ & _ & _ & _ & -> & Hss & ->).
  apply mapM_Forall2 in Hss. split.
  - eapply Forall2_impl; [exact Hss|]. intros c c'. cbn.
    destruct (assoc c _); cbn; [|done]. by intros [= <-].
  - intros Hlen. exists i0. split; [done|]. by apply enabled_aligned.
Qed.

Lemma group_integral_data_keyed (fds : list FormData) :
  Forall (λ e, keyed (fst e) (snd e)) (fst (group_integral_data fds)).
Proof.
  pose proof (group_integral_data_invariant (all_integral_data fds) [] []
                eq_refl (NoDup_nil_2) (Forall_nil_2 _)) as Hinv.
  cbv zeta in Hinv. destruct Hinv as (_ & _ & Hall & _). exact Hall.
Qed.

Lemma TSFCFormData_integral_data_keys fds original diagonal t :
  TSFCFormData__init__ fds original diagonal = Ok t ->
  map tid_key (tfd_integral_data t) = map fst (fst (group_integral_data fds)).
Proof.
  intros Ht. apply TSFCFormData_integral_data_built in Ht.
  pose proof (group_integral_data_keyed fds) as Hall.
  induction Ht as [|[k vs] d l1 l2 (fdl & fd & _ & _ & Hd) _ IH]; cbn; [done|].
  apply Forall_cons in Hall as [(v & Hv & Hk) Hall]. cbn in Hv, Hk.
  f_equal; [|by apply IH].
  apply TSFCIntegralData_key in Hd as (i0 & Hhead & ->). cbn in Hhead.
  congruence.
Qed.

Lemma group_integral_data_first_met (fds : list FormData) :
  map fst (fst (group_integral_data fds))
  = fold_left (λ ks k, if decide (k ∈ ks) then ks else ks ++ [k])
      (keys_met fds) [].
Proof.
  rewrite group_integral_data_folds. cbn [fst snd].
  rewrite fold_setdefault_keys. cbn [map].
  unfold keys_met.
  assert (Hfold : ∀ (l : list (FormData * IntegralData)) ks,
            fold_left (λ ks fi, if decide (integral_key (snd fi) ∈ ks) then ks
                                else ks ++ [integral_key (snd fi)]) l ks
            = fold_left (λ ks k, if decide (k ∈ ks) then ks else ks ++ [k])
                (map (λ fi, integral_key (snd fi)) l) ks).
  { induction l as [|fi l IH]; intros ks; cbn; [done|]. by rewrite IH. }
  apply Hfold.
Qed.

Lemma keys_met_perm (fds fds' : list FormData) :
  fds' ≡ₚ fds -> keys_met fds' ≡ₚ keys_met fds.
Proof.
  intros Hperm. unfold keys_met, all_integral_data.
  apply Permutation_map. by apply concat_map_perm.
Qed.

Lemma Sorted_map_count (l : list Coefficient) :
  Sorted count_le l -> Sorted le (map count l).
Proof.
  induction 1 as [|c l Hl IH Hhd]; cbn; constructor; [done|].
  destruct Hhd; cbn; by constructor.
Qed.

(** C1, amended.  The reduced coefficients of the aggregated form data
    are exactly the coefficients reduced in some record, each once, in
    the order of their counts.  A run of the aggregator that succeeds
    stores this list, the form it was given, the argument tuple that
    every record has, and the positions in the form of the reduced
    coefficients; it takes the subspaces from the first record, and it
    lists the integral data in the order in which their keys are first
    met in the records.  When a permutation of the records is
    aggregated as well, the form, the arguments and the coefficient
    positions are the same, the reduced coefficients are the same up to
    the order of coefficients of equal count, and the keys of the
    integral data are the same up to order; the list of reduced
    coefficients is the same when distinct coefficients among them have
    distinct counts. *)
Theorem reduced_coefficients_by_count (fds : list FormData) :
  Sorted count_le (reduce_coefficients fds)
  ∧ NoDup (reduce_coefficients fds)
  ∧ (∀ c, c ∈ reduce_coefficients fds
          <-> ∃ fd, fd ∈ fds ∧ c ∈ reduced_coefficients fd)
  ∧ (∀ original diagonal t,
       TSFCFormData__init__ fds original diagonal = Ok t ->
       tfd_reduced_coefficients t = reduce_coefficients fds
       ∧ tfd_original_form t = original
       ∧ (∀ fd, fd ∈ fds -> arguments fd = tfd_arguments t)
       ∧ tfd_original_coefficient_positions t
         = map fst (filter (λ i_f, snd i_f ∈ reduce_coefficients fds)
                           (enumerate (coefficients original)))
       ∧ (∃ fd0 rest,
            fds = fd0 :: rest
            ∧ tfd_reduced_subspaces t = reduced_subspaces fd0
            ∧ tfd_original_subspace_positions t = original_subspace_positions fd0
            ∧ tfd_subspace_replace_map t = subspace_replace_map fd0)
       ∧ map tid_key (tfd_integral_data t)
         = fold_left (λ ks k, if decide (k ∈ ks) then ks else ks ++ [k])
             (concat (map (λ fd, map integral_key (integral_data fd)) fds)) [])
  ∧ (∀ fds' original diagonal t t',
       fds' ≡ₚ fds ->
       TSFCFormData__init__ fds original diagonal = Ok t ->
       TSFCFormData__init__ fds' original diagonal = Ok t' ->
       tfd_original_form t' = tfd_original_form t
       ∧ tfd_arguments t' = tfd_arguments t
       ∧ tfd_original_coefficient_positions t'
         = tfd_original_coefficient_positions t
       ∧ tfd_reduced_coefficients t' ≡ₚ tfd_reduced_coefficients t
       ∧ map count (tfd_reduced_coefficients t')
         = map count (tfd_reduced_coefficients t)
       ∧ map tid_key (tfd_integral_data t')
         ≡ₚ map tid_key (tfd_integral_data t)
       ∧ ((∀ a b, a ∈ reduce_coefficients fds -> b ∈ reduce_coefficients fds ->
                  count a = count b -> a = b) ->
          tfd_reduced_coefficients t' = tfd_reduced_coefficients t)).
Proof.
  split; [apply sorted_Sorted|].
  split; [rewrite reduce_coefficients_perm; apply NoDup_remove_dups|].
  split; [apply reduce_coefficients_elem|].
  assert (Hkeys : ∀ l : list FormData,
            keys_met l = concat (map (λ fd, map integral_key (integral_data fd)) l)).
  { intros l. unfold keys_met, all_integral_data.
    induction l as [|fd l IH]; cbn; [done|].
    rewrite map_app, IH, map_map. done. }
  split.
  { intros original diagonal t Ht.
    pose proof (TSFCFormData_integral_data_keys _ _ _ _ Ht) as Hk.
    apply TSFCFormData_fields in Ht
      as (fd0 & Hhead & Hargs & Horig & Hred & Hpos & _ & Hs1 & Hs2 & Hs3 & _).
    split; [done|]. split; [done|].
    split.
    { intros fd Hfd. apply (remove_dups_singleton _ _ Hargs).
      rewrite list_elem_of_In. apply in_map. by apply list_elem_of_In. }
    split; [done|].
    split.
    { destruct fds as [|fd rest]; [done|]. injection Hhead as ->.
      by exists fd0, rest. }
    by rewrite Hk, group_integral_data_first_met, Hkeys. }
  intros fds' original diagonal t t' Hperm Ht Ht'.
  pose proof (TSFCFormData_integral_data_keys _ _ _ _ Ht) as Hk.
  pose proof (TSFCFormData_integral_data_keys _ _ _ _ Ht') as Hk'.
  apply TSFCFormData_fields in Ht
    as (fd0 & Hhead & Hargs & Horig & Hred & Hpos & _).
  apply TSFCFormData_fields in Ht'
    as (fd0' & Hhead' & Hargs' & Horig' & Hred' & Hpos' & _).
  assert (Hmem : ∀ c, c ∈ reduce_coefficients fds' <-> c ∈ reduce_coefficients fds).
  { intros c. rewrite !reduce_coefficients_elem.
    split; intros (fd & Hfd & Hc); exists fd; [by rewrite <- Hperm | by rewrite Hperm]. }
  assert (Hp : reduce_coefficients fds' ≡ₚ reduce_coefficients fds).
  { rewrite !reduce_coefficients_perm. apply remove_dups_perm.
    by apply concat_map_perm. }
  split; [congruence|].
  split.
  { apply (remove_dups_singleton _ _ Hargs).
    assert (Hin : tfd_arguments t' ∈ remove_dups (map arguments fds'))
      by (rewrite Hargs'; apply list_elem_of_here).
    rewrite elem_of_remove_dups in Hin.
    apply list_elem_of_In, in_map_iff in Hin as (fd & <- & Hfd).
    apply list_elem_of_In, in_map, list_elem_of_In.
    rewrite <- Hperm. by apply list_elem_of_In. }
  split.
  { rewrite Hpos, Hpos'. f_equal. apply list_filter_iff.
    intros [i f]. cbn. apply Hmem. }
  split; [by rewrite Hred, Hred'|].
  split.
  { rewrite Hred, Hred'.
    apply (Sorted_unique le).
    - apply Sorted_map_count, sorted_Sorted.
    - apply Sorted_map_count, sorted_Sorted.
    - by apply Permutation_map. }
  split.
  { rewrite Hk, Hk'.
    destruct (group_integral_data_keys fds) as (_ & Hnd & Hin & _).
    destruct (group_integral_data_keys fds') as (_ & Hnd' & Hin' & _).
    apply NoDup_Permutation; [done..|].
    intros k. rewrite (Hin k), (Hin' k). by rewrite (keys_met_perm fds fds' Hperm). }
  intros Hinj. rewrite Hred, Hred'. symmetry.
  apply (Sorted_by_key_unique count); try apply sorted_Sorted; [done|].
  by symmetry.
Qed.

(** X20. The integral data of the aggregated form stand in the order
    in which their keys are first met in the loops of lines 111-112, that
    is in the order of the records and, within a record, of its integral
    data. *)
Theorem integral_data_in_first_met_order
    (fds : list FormData) (original : Form) (diagonal : bool) (t : TSFCFormData) :
  TSFCFormData__init__ fds original diagonal = Ok t ->
  ∀ i j d1 d2, (i < j)%nat ->
    tfd_integral_data t !! i = Some d1 ->
    tfd_integral_data t !! j = Some d2 ->
    ∃ p1 p2, index (tid_key d1) (keys_met fds) = Some p1
             ∧ index (tid_key d2) (keys_met fds) = Some p2
             ∧ (p1 < p2)%nat.
Proof.
  intros Ht i j d1 d2 Hij Hi Hj.
  apply TSFCFormData_integral_data_keys in Ht.
  destruct (group_integral_data_keys fds) as (_ & _ & _ & Hord).
  apply (Hord i j); [done| |]; rewrite <- Ht;
    change (map tid_key ?l) with (tid_key <$> l);
    rewrite list_lookup_fmap; [by rewrite Hi | by rewrite Hj].
Qed.

(** X21. Each integral data of the aggregated form is built from the
    first integral data met with its key and from the record that one
    belongs to: it has that one's integral coefficients and integrals,
    the integrals rewritten with the aggregated function replace map and
    with the subspace replace map of that record.  The integrals of
    later integral data with the same key are not in it. *)
Theorem integral_data_from_first_of_group
    (fds : list FormData) (original : Form) (diagonal : bool) (t : TSFCFormData) :
  TSFCFormData__init__ fds original diagonal = Ok t ->
  Forall (λ d,
            ∃ fd i0 rest,
              with_key (tid_key d) fds = (fd, i0) :: rest
              ∧ tid_integral_coefficients d = integral_coefficients i0
              ∧ tid_integrals d
                = rewritten_integrals (tfd_function_replace_map t)
                    (subspace_replace_map fd) i0
              ∧ tid_original_subspaces d
                = enabled (reduced_subspaces fd) (enabled_subspaces i0)
              ∧ tid_subspace_numbers d
                = enabled (original_subspace_positions fd) (enabled_subspaces i0)
              ∧ assoc (domain i0) (domain_numbering original)
                = Some (tid_domain_number d))
    (tfd_integral_data t).
Proof.
  intros Ht.
  pose proof (TSFCFormData_fields _ _ _ _ Ht) as (_ & _ & _ & Horig & _).
  apply TSFCFormData_integral_data_built in Ht.
  destruct (group_integral_data_keys fds) as (_ & Hnd & _).
  rewrite Forall_forall. intros d Hd.
  apply list_elem_of_lookup_1 in Hd as [n Hn].
  destruct (Forall2_lookup_r _ _ _ _ _ Ht Hn)
    as ([k vs] & Hentry & fdl & fd & Hfdl & Hfd & Hinit).
  cbn [fst snd] in Hfdl, Hinit.
  apply list_elem_of_lookup_2 in Hentry.
  pose proof (assoc_NoDup_elem k vs _ Hnd Hentry) as Hvs.
  destruct (group_integral_data_assoc fds k) as [H1 H2].
  rewrite Hvs in H1. rewrite Hfdl in H2.
  destruct (with_key k fds) as [|[fd' i0] rest] eqn:Hwk; [done|].
  injection H1 as ->. injection H2 as ->. cbn in Hfd. injection Hfd as ->.
  apply TSFCIntegralData_fields in Hinit
    as (i0' & Hhead & Hdom & Htype & Hsub & Hnum & Hint & Hcoef & _ & _ & Hos & _ & Hsn).
  cbn in Hhead. injection Hhead as <-.
  assert (Hk : tid_key d = k).
  { unfold tid_key. rewrite Hdom, Htype, Hsub.
    assert (Hin : (fd, i0) ∈ with_key k fds) by (rewrite Hwk; apply list_elem_of_here).
    unfold with_key in Hin. by apply list_elem_of_filter in Hin as [? _]. }
  exists fd, i0, rest. rewrite Hk, <- Horig. split_and!; done.
Qed.

End IntegralDataExtras.


(** ** The accessors and the glue code of the kernel builder *)

(** X22. The edge cases of the coefficient accessor: a coefficient
    that was not registered raises KeyError for every restriction; a
    builder that is not on interior facets returns what was registered
    whatever the restriction; and on interior facets a coefficient that
    is not 'Real' raises KeyError for every restriction other than '+'
    and '-', the missing restriction included. *)
Theorem coefficient_edge_cases (self : KernelBuilderBase) (c : Coefficient) :
  (assoc c (coefficient_map self) = None ->
   ∀ restriction, coefficient self c restriction = Raise KeyError)
  ∧ (∀ kernel_arg,
       assoc c (coefficient_map self) = Some kernel_arg ->
       interior_facet self = false ->
       ∀ restriction, coefficient self c restriction = Ok kernel_arg)
  ∧ (∀ kernel_arg restriction,
       assoc c (coefficient_map self) = Some kernel_arg ->
       interior_facet self = true ->
       family (ufl_element (ufl_function_space c)) ≠ "Real" ->
       restriction ≠ Some "+" -> restriction ≠ Some "-" ->
       coefficient self c restriction = Raise KeyError).
Proof.
  unfold coefficient. split; [|split].
  - by intros ->.
  - intros kernel_arg -> -> restriction. cbn.
    by destruct (String.eqb _ "Real").
  - intros kernel_arg restriction -> -> Hfam Hplus Hminus. cbn.
    apply String.eqb_neq in Hfam. rewrite Hfam.
    assert (Hr : restriction_component restriction = Raise KeyError).
    { destruct restriction as [s|]; [|done]. unfold restriction_component.
      destruct s as [|a s]; [done|].
      destruct a as [[] [] [] [] [] [] [] []]; try done;
        destruct s; try done; congruence. }
    by rewrite Hr.
Qed.

(** X23. The cell size accessor: before the cell sizes are set it
    raises the RuntimeError of line 66 for every restriction, valid or
    not; afterwards a builder that is not on interior facets returns the
    sizes whatever the restriction, and one on interior facets returns
    component 0 for '+' and component 1 for '-' and raises KeyError for
    the missing restriction. *)
Theorem cell_size_cases (self : KernelBuilder) :
  (_cell_sizes self = None ->
   ∀ restriction,
     cell_size self restriction
     = Failed (RuntimeError "Haven't called set_cell_sizes"))
  ∧ (∀ cell_sizes,
       _cell_sizes self = Some cell_sizes ->
       (interior_facet (base self) = false ->
        ∀ restriction, cell_size self restriction = Done cell_sizes)
       ∧ (interior_facet (base self) = true ->
          cell_size self (Some "+") = of_result (getitem cell_sizes 0)
          ∧ cell_size self (Some "-") = of_result (getitem cell_sizes 1)
          ∧ cell_size self None = Failed (Builtin KeyError)
          ∧ ∀ e, cell_sizes = ArgExpr e ->
              cell_size self (Some "+")
              = Done (ArgExpr (Gem.Indexed e [Gem.MFixed 0]))
              ∧ cell_size self (Some "-")
                = Done (ArgExpr (Gem.Indexed e [Gem.MFixed 1])))).
Proof.
  unfold cell_size. split.
  - by intros ->.
  - intros cell_sizes ->. split; intros ->; [done|].
    split_and!; try done. by intros e ->.
Qed.

(** X24. The orientation and entity number accessors: the cell
    orientation takes the missing restriction for '+', so both read the
    first orientation, and '-' reads the second, which is an IndexError
    when there is only one; any other restriction raises KeyError before
    the orientations are looked at.  With a valid restriction it raises
    AttributeError while the orientations are unset.  The entity number
    raises AttributeError while the numbers are unset and KeyError for a
    restriction that has none. *)
Theorem cell_orientation_restrictions (self : KernelBuilder) :
  cell_orientation self None = cell_orientation self (Some "+")
  ∧ (∀ s, s ≠ "+" -> s ≠ "-" ->
          cell_orientation self (Some s) = Failed (Builtin KeyError))
  ∧ (_cell_orientations self = None ->
     cell_orientation self None = Failed (AttributeError "_cell_orientations")
     ∧ cell_orientation self (Some "-")
       = Failed (AttributeError "_cell_orientations"))
  ∧ (∀ plus rest,
       _cell_orientations self = Some (plus :: rest) ->
       cell_orientation self None = Done (orientation_conditional plus)
       ∧ cell_orientation self (Some "-")
         = match rest with
           | minus :: _ => Done (orientation_conditional minus)
           | [] => Failed (Builtin IndexError)
           end)
  ∧ (_entity_number self = None ->
     ∀ restriction,
       entity_number self restriction = Failed (AttributeError "_entity_number"))
  ∧ (∀ numbers restriction,
       _entity_number self = Some numbers ->
       assoc restriction numbers = None ->
       entity_number self restriction = Failed (Builtin KeyError)).
Proof.
  split; [done|]. split; [|split; [|split; [|split]]].
  - intros s Hplus Hminus. unfold cell_orientation.
    assert (Hr : orientation_component (Some s) = Raise KeyError).
    { unfold orientation_component.
      destruct s as [|a s]; [done|].
      destruct a as [[] [] [] [] [] [] [] []]; try done;
        destruct s; try done; congruence. }
    by rewrite Hr.
  - unfold cell_orientation. by intros ->.
  - unfold cell_orientation. intros plus rest ->. cbn. split; [done|].
    by destruct rest.
  - unfold entity_number. by intros ->.
  - unfold entity_number. intros numbers restriction -> Hnone. cbn.
    by rewrite Hnone.
Qed.

Lemma apply_glue_fold (glue : list (option (list CoffeeNode) * option (list CoffeeNode)))
    (self : KernelBuilder) :
  let self' := fold_left (λ b g, apply_glue b (fst g) (snd g)) glue self in
  base self' = base self
  ∧ _cell_orientations self' = _cell_orientations self
  ∧ _cell_sizes self' = _cell_sizes self
  ∧ _entity_number self' = _entity_number self
  ∧ prepare self' = prepare self ++ concat (map (λ g, default [] (fst g)) glue)
  ∧ finalise self' = finalise self ++ concat (map (λ g, default [] (snd g)) glue).
Proof.
  revert self. induction glue as [|[p f] glue IH]; intros self; cbn.
  - by rewrite !app_nil_r.
  - destruct (IH (apply_glue self p f)) as (H1 & H2 & H3 & H4 & H5 & H6).
    rewrite H1, H2, H3, H4, H5, H6. cbn.
    split_and!; try done.
    + destruct p; cbn; [by rewrite <- app_assoc | done].
    + destruct f; cbn; [by rewrite <- app_assoc | done].
Qed.

(** X25. The kernel that [construct_kernel] declares after any number
    of calls of [apply_glue]: a static inline void function whose body
    holds the snippets to prepend, in the order of the calls, then the
    statements of the given block, then the snippets to append, in the
    order of the calls; a missing list adds nothing.  A body that is not
    a block fails the assertion.  The glue calls change nothing else of
    the builder. *)
Theorem construct_kernel_glue_order
    (glue : list (option (list CoffeeNode) * option (list CoffeeNode)))
    (self : KernelBuilder) (name : string) (args : list CoffeeNode) :
  let self' := fold_left (λ b g, apply_glue b (fst g) (snd g)) glue self in
  (∀ children,
     base_construct_kernel self' name args (Block children)
     = Done (FunDecl "void" name args
               (Block ((prepare self ++ concat (map (λ g, default [] (fst g)) glue))
                       ++ children
                       ++ (finalise self
                           ++ concat (map (λ g, default [] (snd g)) glue))))
               ["static"; "inline"]))
  ∧ (∀ body, (∀ children, body ≠ Block children) ->
       base_construct_kernel self' name args body = Failed (Builtin AssertionError))
  ∧ base self' = base self
  ∧ cell_size self' = cell_size self
  ∧ cell_orientation self' = cell_orientation self
  ∧ entity_number self' = entity_number self.
Proof.
  intros self'.
  destruct (apply_glue_fold glue self) as (H1 & H2 & H3 & H4 & H5 & H6).
  fold self' in H1, H2, H3, H4, H5, H6.
  split_and!.
  - intros children. unfold base_construct_kernel. by rewrite H5, H6.
  - intros body Hbody. destruct body; try done. by destruct (Hbody children).
  - done.
  - unfold cell_size. by rewrite H1, H3.
  - unfold cell_orientation. by rewrite H2.
  - unfold entity_number. by rewrite H4.
Qed.


(** ** Kernel names of distinct subdomains *)

Lemma append_inj_l (a x y : string) : a +:+ x = a +:+ y -> x = y.
Proof.
  induction a as [|c a IH]; [done|]. rewrite !append_String.
  intros [= H]. by apply IH.
Qed.

Lemma replace_underscore_free_inj (s1 s2 : string) :
  all_chars (λ c, negb (Ascii.eqb c "_")) s1 = true ->
  all_chars (λ c, negb (Ascii.eqb c "_")) s2 = true ->
  replace "-" "_" s1 = replace "-" "_" s2 -> s1 = s2.
Proof.
  revert s2. induction s1 as [|c1 s1 IH]; intros [|c2 s2]; cbn; try done.
  intros [H1 Hs1]%andb_prop [H2 Hs2]%andb_prop [= Hc Hs].
  f_equal; [|by apply IH].
  destruct (Ascii.eqb c1 "-") eqn:E1; destruct (Ascii.eqb c2 "-") eqn:E2.
  - apply Ascii.eqb_eq in E1, E2. congruence.
  - subst c2. by rewrite Ascii.eqb_refl in H2.
  - subst c1. by rewrite Ascii.eqb_refl in H1.
  - done.
Qed.

Lemma str_of_Z_underscore_free (z : Z) :
  all_chars (λ c, negb (Ascii.eqb c "_")) (str_of_Z z) = true.
Proof.
  assert (Hd : ∀ c, is_digit c = true -> negb (Ascii.eqb c "_") = true).
  { intros c Hc. destruct (Ascii.eqb c "_") eqn:E; [|done].
    apply Ascii.eqb_eq in E. by subst c. }
  assert (Hu : ∀ d, all_chars (λ c, negb (Ascii.eqb c "_"))
                      (NilZero.string_of_uint d) = true).
  { intros d. apply (all_chars_impl is_digit); [exact Hd|].
    destruct d; try apply (digits_of_uint (_ d)); done. }
  unfold str_of_Z. destruct (Z.to_int z) as [d|d]; cbn; apply Hu.
Qed.

(** X26. For a given prefix and integral type, kernels of distinct
    integer subdomain ids have distinct names: replacing '-' by '_' does
    not merge a negative id with any other. *)
Theorem kernel_name_integer_ids_distinct (prefix integral_type : string) (z z' : Z) :
  kernel_name prefix integral_type (SubInt z)
  = kernel_name prefix integral_type (SubInt z') ->
  z = z'.
Proof.
  unfold kernel_name. cbn [str_of_subdomain_id].
  rewrite !replace_append. intros Heq.
  do 4 apply append_inj_l in Heq.
  apply str_of_Z_inj.
  apply replace_underscore_free_inj; [apply str_of_Z_underscore_free..|done].
Qed.

(** ** The scalar types [compile_integral] needs *)

Section CompileIntegralExtras.
Context `{Collaborators}.
Context {Builder Kernel Representation : Type}.
Variable firedrake_interface_coffee firedrake_interface_loopy
  : @KernelInterface Builder Kernel Representation.

Lemma create_kernel_config_no_scalar_type kernel_name form_data integral_data
    parameters rt :
  parameters !! "scalar_type" = None ->
  create_kernel_config kernel_name form_data integral_data parameters false rt
  = (Raise KeyError,
     advance rt (2 * length (concat (argument_shapes (tfd_arguments form_data))))).
Proof.
  intros Hst. rewrite create_kernel_config_cases. cbv zeta. by rewrite Hst.
Qed.

(** X27. [compile_integral] reads the scalar type for the builder from
    "scalar_type_c" on a COFFEE run and from "scalar_type" otherwise, and
    raises KeyError when that entry is missing, before any builder is
    made and any index is allocated.  The kernel configuration reads
    "scalar_type" in either case: on a COFFEE run with "scalar_type_c"
    but without "scalar_type" the builder is made, the argument indices
    are allocated, and then KeyError is raised. *)
Theorem compile_integral_scalar_types
    (integral_data : TSFCIntegralData) (form_data : TSFCFormData)
    (prefix : string) (parameters : Params)
    (interface : option (@KernelInterface Builder Kernel Representation))
    (coffee diagonal : bool) (rt : Runtime) :
  (parameters !! (if coffee then "scalar_type_c" else "scalar_type") = None ->
   compile_integral firedrake_interface_coffee firedrake_interface_loopy
     integral_data form_data prefix parameters interface coffee diagonal rt
   = (Raise KeyError, rt))
  ∧ (∀ i st builder rt1,
       interface = Some i -> coffee = true -> diagonal = false ->
       parameters !! "scalar_type_c" = Some st ->
       parameters !! "scalar_type" = None ->
       interface_init i None (tid_integral_type integral_data) st false
         integral_data rt = (Ok builder, rt1) ->
       compile_integral firedrake_interface_coffee firedrake_interface_loopy
         integral_data form_data prefix parameters interface coffee diagonal rt
       = (Raise KeyError,
          advance rt1
            (2 * length (concat (argument_shapes (tfd_arguments form_data)))))).
Proof.
  split.
  - intros Hst. unfold compile_integral, mbind, M_bind, lift. by rewrite Hst.
  - intros i st builder rt1 -> -> -> Hc Hst Hinit.
    unfold compile_integral. unfold mbind at 1, M_bind at 1. unfold lift at 1.
    rewrite Hc. cbn [from_option].
    unfold mbind at 1, M_bind at 1. rewrite Hinit.
    unfold mbind at 1, M_bind at 1.
    by rewrite create_kernel_config_no_scalar_type.
Qed.

End CompileIntegralExtras.

(** ** When the dummy indices need no replacement *)

Section ShortcutExtras.
Context `{Collaborators}.

Lemma multiindices_from_no_axes (n m : nat) (shapes : list (list nat)) :
  concat shapes = [] -> multiindices_from n shapes = multiindices_from m shapes.
Proof.
  revert n m. induction shapes as [|es shapes IH]; intros n m; cbn; [done|].
  intros [-> Hrest]%app_eq_nil. cbn. f_equal. by apply IH.
Qed.

Lemma multiindices_from_empty (n : nat) (shapes : list (list nat)) (a : list Gem.Index) :
  concat shapes = [] -> a ∈ multiindices_from n shapes -> a = [].
Proof.
  revert n. induction shapes as [|es shapes IH]; intros n; cbn.
  - by intros _ ?%elem_of_nil.
  - intros [-> Hrest]%app_eq_nil [->|Hin]%elem_of_cons; [done|].
    by eapply IH.
Qed.

(** X28. In a configuration made by [create_kernel_config] the dummy
    multiindices equal the true ones exactly when no argument has an
    axis, as for a functional; only then does
    [replace_argument_multiindices_dummy] return the expressions as they
    are. *)
Theorem dummy_replacement_shortcut kernel_name form_data integral_data
    parameters diagonal rt cfg rt' :
  create_kernel_config kernel_name form_data integral_data parameters diagonal rt
  = (Ok cfg, rt') ->
  (argument_multiindices_dummy (fem_config cfg)
   = argument_multiindices (fem_config cfg)
   <-> concat (argument_shapes (tfd_arguments form_data)) = [])
  ∧ (concat (argument_shapes (tfd_arguments form_data)) = [] ->
     ∀ expressions,
       replace_argument_multiindices_dummy expressions cfg = expressions).
Proof.
  intros Hcfg.
  assert (Hiff : argument_multiindices_dummy (fem_config cfg)
                 = argument_multiindices (fem_config cfg)
                 <-> concat (argument_shapes (tfd_arguments form_data)) = []).
  { revert Hcfg. rewrite create_kernel_config_cases. cbv zeta.
    set (shapes := argument_shapes (tfd_arguments form_data)).
    assert (Hdummy : map Gem.idx_id (concat (allocated_dummy form_data rt))
                     = seq (next_index rt + length (concat shapes))
                           (length (concat shapes))).
    { unfold allocated_dummy. by rewrite ids_of_multiindices_from. }
    assert (Htrue : ∀ i, i ∈ concat (allocated_true form_data rt) ->
              (Gem.idx_id i < next_index rt + length (concat shapes))%nat).
    { intros i Hi. unfold allocated_true in Hi.
      apply multiindices_from_ids in Hi. fold shapes in Hi. lia. }
    assert (Hsame : concat shapes = [] ->
              allocated_dummy form_data rt = allocated_true form_data rt).
    { intros Hnil. unfold allocated_dummy, allocated_true.
      by apply multiindices_from_no_axes. }
    assert (Hdiffer : ∀ true_,
              (∀ i, i ∈ concat true_ -> i ∈ concat (allocated_true form_data rt)) ->
              allocated_dummy form_data rt = true_ -> concat shapes = []).
    { intros true_ Hsub Heq.
      destruct (concat shapes) as [|e es] eqn:Hshapes; [done|]. exfalso.
      cbn in Hdummy.
      destruct (concat (allocated_dummy form_data rt)) as [|d ds] eqn:Hd;
        [done|].
      injection Hdummy as Hid _.
      assert (Hin : d ∈ concat true_).
      { rewrite <- Heq, Hd. apply list_elem_of_here. }
      apply Hsub, Htrue in Hin. cbn in Hin. lia. }
    destruct diagonal.
    - destruct (allocated_true form_data rt) as [|a [|b [|c l]]] eqn:Ha;
        try done.
      destruct (parameters !! "scalar_type") as [st|]; [|done].
      destruct (lower_integral_type _ _) as [[d ids]|]; [|done].
      intros [= <- <-]. cbn. split.
      + apply Hdiffer. intros i Hi. cbn in Hi |- *. rewrite app_nil_r in Hi.
        apply elem_of_app. left. by apply elem_of_app in Hi as [?|?].
      + intros Hnil. rewrite (Hsame Hnil).
        assert (Ha' : a = []).
        { apply (multiindices_from_empty (next_index rt) shapes a Hnil).
          unfold allocated_true in Ha. fold shapes in Ha. rewrite Ha.
          apply list_elem_of_here. }
        assert (Hb' : b = []).
        { apply (multiindices_from_empty (next_index rt) shapes b Hnil).
          unfold allocated_true in Ha. fold shapes in Ha. rewrite Ha.
          apply list_elem_of_further, list_elem_of_here. }
        by rewrite Ha', Hb'.
    - destruct (parameters !! "scalar_type") as [st|]; [|done].
      destruct (lower_integral_type _ _) as [[d ids]|]; [|done].
      intros [= <- <-]. cbn. split; [by apply Hdiffer | exact Hsame]. }
  split; [exact Hiff|].
  intros Hnil expressions. unfold replace_argument_multiindices_dummy.
  apply Hiff in Hnil. by rewrite decide_True.
Qed.

End ShortcutExtras.

(** ** Further examples *)

Lemma reduced_coefficients_by_count_witness :
  ∃ t t',
    TSFCFormData__init__ (H := reference_collaborators)
      [split_dx; split_ds] form_fg false = Ok t
    ∧ TSFCFormData__init__ (H := reference_collaborators)
        [split_ds; split_dx] form_fg false = Ok t'
    ∧ tfd_reduced_coefficients t = [coefficient_f; coefficient_g]
    ∧ tfd_reduced_coefficients t' = tfd_reduced_coefficients t
    ∧ tfd_original_coefficient_positions t'
      = tfd_original_coefficient_positions t
    ∧ tfd_arguments t' = tfd_arguments t
    ∧ map tid_key (tfd_integral_data t')
      ≡ₚ map tid_key (tfd_integral_data t).
Proof.
  destruct (TSFCFormData__init__ (H := reference_collaborators)
              [split_dx; split_ds] form_fg false) as [t|e] eqn:Ht;
    [|vm_compute in Ht; discriminate Ht].
  destruct (TSFCFormData__init__ (H := reference_collaborators)
              [split_ds; split_dx] form_fg false) as [t'|e] eqn:Ht';
    [|vm_compute in Ht'; discriminate Ht'].
  exists t, t'. split; [reflexivity|]. split; [reflexivity|].
  destruct (reduced_coefficients_by_count (H := reference_collaborators)
              [split_dx; split_ds]) as (_ & _ & _ & Hstored & Hperm).
  destruct (Hstored form_fg false t Ht) as (Hred & _).
  destruct (Hperm [split_ds; split_dx] form_fg false t t'
              (Permutation_swap split_dx split_ds []) Ht Ht')
    as (_ & Hargs & Hpos & _ & _ & Hkeys & Hsame).
  split; [rewrite Hred; reflexivity|].
  split; [|done].
  apply Hsame. intros a b Ha Hb.
  change (reduce_coefficients [split_dx; split_ds])
    with [coefficient_f; coefficient_g] in Ha, Hb.
  rewrite !elem_of_cons, elem_of_nil in Ha, Hb.
  destruct Ha as [-> | [-> | []]], Hb as [-> | [-> | []]]; cbn; congruence.
Defined.

Lemma aggregated_form_data_follows_record_order :
  arguments split_dx = arguments split_ds
  ∧ [split_ds; split_dx] ≡ₚ [split_dx; split_ds]
  ∧ (∃ t t',
       TSFCFormData__init__ (H := reference_collaborators)
         [split_dx; split_ds] form_fg false = Ok t
       ∧ TSFCFormData__init__ (H := reference_collaborators)
           [split_ds; split_dx] form_fg false = Ok t'
       ∧ map tid_integral_type (tfd_integral_data t) = ["cell"; "exterior_facet"]
       ∧ map tid_integral_type (tfd_integral_data t') = ["exterior_facet"; "cell"]
       ∧ t' ≠ t)
  ∧ (∃ t t',
       TSFCFormData__init__ (H := reference_collaborators)
         [split_subspace; split_dx] form_fg false = Ok t
       ∧ TSFCFormData__init__ (H := reference_collaborators)
           [split_dx; split_subspace] form_fg false = Ok t'
       ∧ tfd_reduced_subspaces t = [subspace_0; subspace_1]
       ∧ tfd_reduced_subspaces t' = [])
  ∧ (count coefficient_f = count coefficient_f_P2
     ∧ coefficient_f ≠ coefficient_f_P2
     ∧ ∃ t t',
         TSFCFormData__init__ (H := reference_collaborators)
           [split_tie_P1; split_tie_P2] form_fg false = Ok t
         ∧ TSFCFormData__init__ (H := reference_collaborators)
             [split_tie_P2; split_tie_P1] form_fg false = Ok t'
         ∧ tfd_reduced_coefficients t = [coefficient_f; coefficient_f_P2]
         ∧ tfd_reduced_coefficients t' = [coefficient_f_P2; coefficient_f]).
Proof.
  split; [reflexivity|].
  split; [apply Permutation_swap|].
  split.
  { do 2 eexists.
    split; [vm_compute; reflexivity|].
    split; [vm_compute; reflexivity|].
    split; [reflexivity|].
    split; [reflexivity|].
    intros Heq.
    apply (f_equal (λ t, map tid_integral_type (tfd_integral_data t))) in Heq.
    vm_compute in Heq. discriminate Heq. }
  split.
  { do 2 eexists.
    split; [vm_compute; reflexivity|].
    split; [vm_compute; reflexivity|].
    split; reflexivity. }
  split; [reflexivity|]. split; [discriminate|].
  do 2 eexists.
  split; [vm_compute; reflexivity|].
  split; [vm_compute; reflexivity|].
  split; reflexivity.
Qed.


Lemma preprocess_parameters_result_witness :
  preprocess_parameters (H := reference_collaborators) (Some params_user)
  = Ok params_user_resolved
  ∧ params_user_resolved !! "quadrature_degree" = Some (PyInt 4)
  ∧ params_user_resolved !! "quadrature_rule" = None
  ∧ params_user_resolved !! "mode" = Some (PyStr "spectral")
  ∧ params_user_resolved !! "scalar_type" = Some (PyStr "double").
Proof.
  assert (E : preprocess_parameters (H := reference_collaborators) (Some params_user)
              = Ok params_user_resolved) by (vm_compute; reflexivity).
  split; [exact E|].
  destruct (preprocess_parameters_result (H := reference_collaborators)
              (Some params_user) params_user_resolved E)
    as (Hother & (d & Hd & Hdeg) & (r & Hr & Hrule) & _).
  rewrite Hdeg, Hrule, !Hother by done.
  vm_compute in Hd. injection Hd as <-.
  vm_compute in Hr. injection Hr as <-.
  rewrite decide_False, decide_True.
  - vm_compute. repeat split; reflexivity.
  - rewrite !elem_of_cons. tauto.
  - rewrite !not_elem_of_cons. repeat split; try discriminate. apply not_elem_of_nil.
Defined.

Lemma preprocess_parameters_needs_both_keys_witness :
  (∃ p, preprocess_parameters (H := reference_collaborators) None = Ok p).
Proof.
  apply (proj1 (preprocess_parameters_needs_both_keys
                  (H := reference_collaborators) None)).
  split; vm_compute; eauto.
Defined.

Lemma lower_integral_type_wrong_cell_witness :
  lower_integral_type extruded_interval "exterior_facet"
  = Raise (ValueError "exterior_facet integral cannot be used with a TensorProductCell; need to distinguish between vertical and horizontal contributions.")
  ∧ lower_integral_type triangle "exterior_facet_top"
    = Raise (ValueError "exterior_facet_top integral requires a TensorProductCell.").
Proof.
  split.
  - apply (proj1 (lower_integral_type_wrong_cell extruded_interval "exterior_facet"));
      [apply list_elem_of_here | reflexivity].
  - apply (proj2 (lower_integral_type_wrong_cell triangle "exterior_facet_top"));
      [|reflexivity].
    unfold vert_facet_types, horiz_facet_types. cbn.
    rewrite !elem_of_cons. tauto.
Defined.

Lemma lower_integral_type_malformed_product_witness :
  lower_integral_type (TensorProductCell [1; 1; 1] []) "exterior_facet_vert"
  = Raise (ValueError "too many values to unpack (expected 2)")
  ∧ lower_integral_type (TensorProductCell [1; 2] []) "exterior_facet_vert"
    = Raise AssertionError.
Proof.
  destruct (lower_integral_type_malformed_product [1; 1; 1] []
              "exterior_facet_vert" ltac:(apply list_elem_of_here)) as [H3 _].
  destruct (lower_integral_type_malformed_product [1; 2] []
              "exterior_facet_vert" ltac:(apply list_elem_of_here)) as [_ H2].
  split; [exact (H3 ltac:(cbn; lia)) | exact (H2 1 2 eq_refl ltac:(lia))].
Defined.

Lemma lower_integral_type_returns_witness :
  "interior_facet" ∈ documented_integral_types
  ∧ NoDup [0; 1; 2]%nat.
Proof.
  destruct (lower_integral_type_returns triangle "interior_facet" (DimInt 1)
              [0; 1; 2]%nat eq_refl) as (Hdoc & Hnd & _).
  by split.
Defined.


Lemma set_quad_rule_only_sets_the_rule_witness :
  params_override_resolved !! "estimated_polynomial_degree"
  = params_override !! "estimated_polynomial_degree"
  ∧ ∃ rt'',
      set_quad_rule (H := reference_collaborators) params_override_resolved
        triangle_cell "unknown" [FArgument test_function] runtime0
      = (Ok params_override_resolved, rt'').
Proof.
  destruct (set_quad_rule_only_sets_the_rule (H := reference_collaborators)
              params_override params_override_resolved
              triangle_cell "cell" [FArgument test_function] runtime0 runtime0
              ltac:(vm_compute; reflexivity)) as (Hother & _ & Hagain).
  split; [by apply Hother | apply Hagain].
Defined.

Lemma set_quad_rule_failures_witness :
  set_quad_rule (H := reference_collaborators) params_no_degree triangle_cell
    "cell" [FArgument test_function] runtime0 = (Raise KeyError, runtime0)
  ∧ set_quad_rule (H := reference_collaborators) params_override triangle_cell
      "unknown" [FArgument test_function] runtime0
    = (Raise (UnsupportedIntegralTypeError "unknown"), runtime0).
Proof.
  split.
  - apply (set_quad_rule_failures (H := reference_collaborators));
      vm_compute; reflexivity.
  - refine (proj1 (proj2 (set_quad_rule_failures (H := reference_collaborators)
                            params_override triangle_cell "unknown"
                            [FArgument test_function] runtime0))
              (PyInt 3) runtime0 _ _ _ _).
    + vm_compute. reflexivity.
    + left. vm_compute. reflexivity.
    + vm_compute. reflexivity.
Defined.

Lemma default_rule_is_no_rule_witness :
  resolve_quadrature_rule (H := reference_collaborators) params_default_rule
    triangle_cell "cell" (PyInt 3)
  = resolve_quadrature_rule (H := reference_collaborators)
      (delete "quadrature_rule" params_default_rule) triangle_cell "cell" (PyInt 3).
Proof.
  apply (default_rule_is_no_rule (H := reference_collaborators)).
  vm_compute. reflexivity.
Defined.


Lemma create_kernel_config_failures_witness :
  create_kernel_config (H := reference_collaborators) "k" form_data_P1
    cell_integral_P1P2 reference_parameters true runtime0
  = (Raise (ValueError "not enough values to unpack (expected 2, got 1)"),
     {| next_index := 2; warnings := [] |})
  ∧ create_kernel_config (H := reference_collaborators) "k" form_data_P1P2
      cell_integral_P1P2 params_no_scalar_type false runtime0
    = (Raise KeyError, {| next_index := 4; warnings := [] |}).
Proof.
  destruct (create_kernel_config_failures (H := reference_collaborators) "k"
              form_data_P1 cell_integral_P1P2 reference_parameters true runtime0)
    as (H1 & _ & _).
  destruct (create_kernel_config_failures (H := reference_collaborators) "k"
              form_data_P1P2 cell_integral_P1P2 params_no_scalar_type false runtime0)
    as (_ & H2 & _).
  split.
  - exact (H1 eq_refl ltac:(cbn; lia)).
  - exact (H2 (or_introl eq_refl) ltac:(vm_compute; reflexivity)).
Defined.

Lemma create_kernel_config_fresh_witness :
  ∃ cfg,
    create_kernel_config (H := reference_collaborators) "k" form_data_P1P2
      cell_integral_P1P2 reference_parameters false runtime0
    = (Ok cfg, {| next_index := 4; warnings := [] |})
    ∧ map Gem.idx_id (concat (argument_multiindices_dummy (fem_config cfg)))
      = seq 2 2.
Proof.
  destruct (create_kernel_config (H := reference_collaborators) "k" form_data_P1P2
              cell_integral_P1P2 reference_parameters false runtime0)
    as [[cfg|e] rt'] eqn:E; [|vm_compute in E; discriminate E].
  destruct (create_kernel_config_fresh (H := reference_collaborators) _ _ _ _ _ _ _ _ E)
    as (Hrt & _ & _ & Hdummy & _).
  exists cfg. split; [|exact Hdummy].
  rewrite Hrt. reflexivity.
Defined.


Lemma group_integral_data_contents_witness :
  assoc (mesh0, "cell", SubStr "otherwise")
    (fst (group_integral_data [split_dx; split_ds; split_dx_g]))
  = Some (integral_data split_dx ++ integral_data split_dx_g)
  ∧ assoc (mesh0, "cell", SubStr "otherwise")
      (snd (group_integral_data [split_dx; split_ds; split_dx_g]))
    = Some [split_dx; split_dx_g]
  ∧ assoc (mesh0, "vertex", SubStr "otherwise")
      (fst (group_integral_data [split_dx; split_ds; split_dx_g]))
    = None.
Proof.
  destruct (group_integral_data_contents [split_dx; split_ds; split_dx_g]
              (mesh0, "cell", SubStr "otherwise")) as [_ Hsome].
  destruct (group_integral_data_contents [split_dx; split_ds; split_dx_g]
              (mesh0, "vertex", SubStr "otherwise")) as [Hnone _].
  destruct (Hsome ltac:(vm_compute; discriminate)) as [H1 H2].
  destruct (Hnone ltac:(vm_compute; reflexivity)) as [H3 _].
  split; [exact H1|]. split; [exact H2 | exact H3].
Defined.


Lemma TSFCFormData_first_record_witness :
  ∃ t, TSFCFormData__init__ (H := reference_collaborators)
         [split_dx; split_ds] form_fg false = Ok t
       ∧ arguments split_ds = tfd_arguments t.
Proof.
  destruct (TSFCFormData__init__ (H := reference_collaborators)
              [split_dx; split_ds] form_fg false) as [t|e] eqn:E;
    [|vm_compute in E; discriminate E].
  exists t. split; [reflexivity|].
  destruct (TSFCFormData_first_record (H := reference_collaborators)
              [split_dx; split_ds] form_fg false) as [_ Hok].
  destruct (Hok t E) as (Hargs & _).
  apply Hargs. apply list_elem_of_further, list_elem_of_here.
Defined.

Lemma function_replace_map_renumbers_witness :
  ∃ t, TSFCFormData__init__ (H := reference_collaborators)
         [split_f_P1; split_f_P2] form_fg false = Ok t
       ∧ assoc coefficient_f (tfd_function_replace_map t)
         = Some {| count := 0; coefficient_function_space := P 1 |}
       ∧ assoc coefficient_g (tfd_function_replace_map t)
         = Some {| count := 1; coefficient_function_space := P 2 |}.
Proof.
  destruct (TSFCFormData__init__ (H := reference_collaborators)
              [split_f_P1; split_f_P2] form_fg false) as [t|e] eqn:E;
    [|vm_compute in E; discriminate E].
  exists t. split; [reflexivity|].
  destruct (function_replace_map_renumbers (H := reference_collaborators)
              _ _ _ _ E) as [Hmap _].
  assert (Hred : tfd_reduced_coefficients t = [coefficient_f; coefficient_g]).
  { vm_compute in E. injection E as <-. reflexivity. }
  split.
  - destruct (Hmap 0%nat coefficient_f ltac:(by rewrite Hred)) as [Hsome _].
    apply (Hsome 0%nat split_f_P1 _ eq_refl eq_refl). intros j fd' Hj. lia.
  - destruct (Hmap 1%nat coefficient_g ltac:(by rewrite Hred)) as [Hsome _].
    apply (Hsome 1%nat split_f_P2 _ eq_refl eq_refl).
    intros [|j] fd' Hj; [|lia]. by intros [= <-].
Defined.

Lemma original_coefficient_positions_select_witness :
  ∃ t, TSFCFormData__init__ (H := reference_collaborators)
         [split_ds] form_fg false = Ok t
       ∧ StronglySorted lt (tfd_original_coefficient_positions t)
       ∧ (1%nat ∈ tfd_original_coefficient_positions t
          <-> ∃ f, coefficients form_fg !! 1%nat = Some f
                   ∧ f ∈ tfd_reduced_coefficients t).
Proof.
  destruct (TSFCFormData__init__ (H := reference_collaborators)
              [split_ds] form_fg false) as [t|e] eqn:E;
    [|vm_compute in E; discriminate E].
  exists t. split; [reflexivity|].
  destruct (original_coefficient_positions_select (H := reference_collaborators)
              _ _ _ _ E) as [Hsort Hmem].
  split; [exact Hsort | exact (Hmem 1%nat)].
Defined.

Lemma original_coefficient_positions_aligned_witness :
  ∃ t, TSFCFormData__init__ (H := reference_collaborators)
         [split_ds; split_dx] form_fg false = Ok t
       ∧ Forall2 (λ p c, coefficients form_fg !! p = Some c)
           (tfd_original_coefficient_positions t) (tfd_reduced_coefficients t).
Proof.
  destruct (TSFCFormData__init__ (H := reference_collaborators)
              [split_ds; split_dx] form_fg false) as [t|e] eqn:E;
    [|vm_compute in E; discriminate E].
  exists t. split; [reflexivity|].
  apply (original_coefficient_positions_aligned (H := reference_collaborators)
           _ _ _ _ E).
  - repeat constructor; cbn; lia.
  - intros c Hc.
    assert (Hred : tfd_reduced_coefficients t = [coefficient_f; coefficient_g]).
    { vm_compute in E. injection E as <-. reflexivity. }
    rewrite Hred in Hc. exact Hc.
Defined.


Lemma TSFCIntegralData_failures_witness :
  TSFCIntegralData__init__ [intg_data_mesh1] split_dx form_data_fg = Raise KeyError
  ∧ TSFCIntegralData__init__ [intg_data_r] split_dx form_data_fg = Raise KeyError
  ∧ TSFCIntegralData__init__ [intg_data_r] split_dx form_data_fgr
    = Raise (ValueError "x not in list").
Proof.
  destruct (TSFCIntegralData_failures split_dx form_data_fg) as (_ & H1 & H2 & _).
  destruct (TSFCIntegralData_failures split_dx form_data_fgr) as (_ & _ & _ & H3).
  split; [exact (H1 intg_data_mesh1 [] eq_refl)|]. split.
  - apply (H2 intg_data_r [] coefficient_r); [by eexists| |reflexivity].
    apply list_elem_of_here.
  - apply (H3 intg_data_r [] coefficient_r); [by eexists| |reflexivity| |].
    + intros g ->%list_elem_of_singleton. by eexists.
    + apply list_elem_of_here.
    + intros Hin. repeat (apply elem_of_cons in Hin as [Hin|Hin]; [discriminate Hin|]).
      by apply elem_of_nil in Hin.
Defined.

Lemma TSFCIntegralData_coefficient_numbers_witness :
  ∃ d, TSFCIntegralData__init__ (integral_data split_ds) split_ds form_data_fg = Ok d
       ∧ Forall2 (λ f n, coefficients form_fg !! n = Some f)
           (tid_integral_coefficients d) (tid_coefficient_numbers d).
Proof.
  destruct (TSFCIntegralData__init__ (integral_data split_ds) split_ds form_data_fg)
    as [d|e] eqn:E; [|vm_compute in E; discriminate E].
  exists d. split; [reflexivity|].
  destruct (TSFCIntegralData_coefficient_numbers _ _ _ _ E) as (_ & _ & Hnum).
  apply Hnum. repeat constructor.
Defined.

Lemma integral_data_in_first_met_order_witness :
  ∃ t d1 d2,
    TSFCFormData__init__ (H := reference_collaborators)
      [split_dx; split_ds; split_dx_g] form_fg false = Ok t
    ∧ tfd_integral_data t = [d1; d2]
    ∧ ∃ p1 p2,
        index (tid_key d1) (keys_met [split_dx; split_ds; split_dx_g]) = Some p1
        ∧ index (tid_key d2) (keys_met [split_dx; split_ds; split_dx_g]) = Some p2
        ∧ (p1 < p2)%nat.
Proof.
  destruct (TSFCFormData__init__ (H := reference_collaborators)
              [split_dx; split_ds; split_dx_g] form_fg false) as [t|e] eqn:E;
    [|vm_compute in E; discriminate E].
  assert (Hl : ∃ d1 d2, tfd_integral_data t = [d1; d2]).
  { vm_compute in E. injection E as <-. by eexists _, _. }
  destruct Hl as (d1 & d2 & Hl).
  exists t, d1, d2. split; [reflexivity|]. split; [exact Hl|].
  apply (integral_data_in_first_met_order (H := reference_collaborators)
           _ _ _ _ E 0%nat 1%nat); [lia| |]; by rewrite Hl.
Defined.

Lemma integral_data_from_first_of_group_witness :
  ∃ t d1 d2,
    TSFCFormData__init__ (H := reference_collaborators)
      [split_dx; split_ds; split_dx_g] form_fg false = Ok t
    ∧ tfd_integral_data t = [d1; d2]
    ∧ ∃ fd i0 rest,
        with_key (tid_key d1) [split_dx; split_ds; split_dx_g] = (fd, i0) :: rest
        ∧ tid_integral_coefficients d1 = integral_coefficients i0.
Proof.
  destruct (TSFCFormData__init__ (H := reference_collaborators)
              [split_dx; split_ds; split_dx_g] form_fg false) as [t|e] eqn:E;
    [|vm_compute in E; discriminate E].
  assert (Hl : ∃ d1 d2, tfd_integral_data t = [d1; d2]).
  { vm_compute in E. injection E as <-. by eexists _, _. }
  destruct Hl as (d1 & d2 & Hl).
  exists t, d1, d2. split; [reflexivity|]. split; [exact Hl|].
  pose proof (integral_data_from_first_of_group (H := reference_collaborators)
                _ _ _ _ E) as Hall.
  rewrite Hl in Hall. apply Forall_cons in Hall as [(fd & i0 & rest & H1 & H2 & _) _].
  by exists fd, i0, rest.
Defined.

Lemma TSFCIntegralData_subspaces_witness :
  ∃ d, TSFCIntegralData__init__ [intg_data_subspace] split_subspace form_data_fg = Ok d
       ∧ tid_original_subspaces d = [subspace_1]
       ∧ ∃ i0, head [intg_data_subspace] = Some i0
               ∧ Forall2 (λ c n, ∃ i, reduced_subspaces split_subspace !! i = Some c
                                      ∧ original_subspace_positions split_subspace !! i
                                        = Some n
                                      ∧ enabled_subspaces i0 !! i = Some true)
                   (tid_original_subspaces d) (tid_subspace_numbers d).
Proof.
  destruct (TSFCIntegralData__init__ [intg_data_subspace] split_subspace form_data_fg)
    as [d|e] eqn:E; [|vm_compute in E; discriminate E].
  exists d. split; [reflexivity|]. split.
  - vm_compute in E. injection E as <-. reflexivity.
  - destruct (TSFCIntegralData_subspaces _ _ _ _ E) as [_ Hnum].
    exact (Hnum eq_refl).
Defined.

Lemma TSFCIntegralData_returns_witness :
  ∃ d, TSFCIntegralData__init__ (integral_data split_ds ++ integral_data split_dx)
         split_ds form_data_fg = Ok d
       ∧ TSFCIntegralData__init__ (integral_data split_ds) split_ds form_data_fg
         = Ok d.
Proof.
  destruct (TSFCIntegralData_returns
              {| domain := mesh0;
                 integral_type := "exterior_facet";
                 subdomain_id := SubStr "otherwise";
                 integrals :=
                   [{| integrand := UProduct (UCoefficient coefficient_g)
                                             (UArgument test_function);
                       metadata := ∅ |}];
                 integral_coefficients := [coefficient_g];
                 enabled_subspaces := [] |}
              (integral_data split_dx) split_ds form_data_fg)
    as (d & Hd & Hrest).
  - by eexists.
  - intros f ->%list_elem_of_singleton. split; [by eexists|].
    apply list_elem_of_further, list_elem_of_here.
  - reflexivity.
  - intros c Hc. by apply elem_of_nil in Hc.
  - exists d. split; [exact Hd | exact (Hrest [])].
Defined.


Lemma coefficient_edge_cases_witness :
  coefficient interior_facet_builder coefficient_g (Some "+") = Raise KeyError
  ∧ coefficient interior_facet_builder coefficient_f None = Raise KeyError.
Proof.
  destruct (coefficient_edge_cases interior_facet_builder coefficient_g)
    as (Hmissing & _).
  destruct (coefficient_edge_cases interior_facet_builder coefficient_f)
    as (_ & _ & Hrestriction).
  split; [exact (Hmissing eq_refl (Some "+"))|].
  apply (Hrestriction _ None eq_refl eq_refl); done.
Defined.

Lemma cell_size_cases_witness :
  cell_size (KernelBuilderBase__init__ (PyStr "double") true) (Some "+")
  = Failed (RuntimeError "Haven't called set_cell_sizes")
  ∧ cell_size facet_builder (Some "-")
    = Done (ArgExpr (Gem.Indexed (Gem.Variable_ "cell_sizes") [Gem.MFixed 1]))
  ∧ cell_size facet_builder None = Failed (Builtin KeyError).
Proof.
  destruct (cell_size_cases (KernelBuilderBase__init__ (PyStr "double") true))
    as [Hunset _].
  destruct (cell_size_cases facet_builder) as [_ Hset].
  destruct (Hset _ eq_refl) as [_ Hfacet].
  destruct (Hfacet eq_refl) as (_ & _ & Hnone & Hexpr).
  destruct (Hexpr _ eq_refl) as [_ Hminus].
  split; [exact (Hunset eq_refl (Some "+"))|]. split; [exact Hminus | exact Hnone].
Defined.

Lemma cell_orientation_restrictions_witness :
  cell_orientation facet_builder (Some "x") = Failed (Builtin KeyError)
  ∧ cell_orientation (KernelBuilderBase__init__ (PyStr "double") false) None
    = Failed (AttributeError "_cell_orientations")
  ∧ entity_number facet_builder (Some "-") = Failed (Builtin KeyError).
Proof.
  destruct (cell_orientation_restrictions facet_builder)
    as (_ & Hkey & _ & _ & _ & Hnumber).
  destruct (cell_orientation_restrictions
              (KernelBuilderBase__init__ (PyStr "double") false))
    as (_ & _ & Hunset & _).
  split; [apply Hkey; done|].
  split; [exact (proj1 (Hunset eq_refl))|].
  exact (Hnumber _ (Some "-") eq_refl eq_refl).
Defined.

Lemma construct_kernel_glue_order_witness :
  base_construct_kernel
    (apply_glue (apply_glue facet_builder (Some [Statement "a"]) None)
                None (Some [Statement "z"]))
    "kernel" [] (Statement "return;")
  = Failed (Builtin AssertionError).
Proof.
  destruct (construct_kernel_glue_order
              [(Some [Statement "a"], None); (None, Some [Statement "z"])]
              facet_builder "kernel" []) as (_ & Hfail & _).
  apply Hfail. intros children. discriminate.
Defined.


Lemma kernel_name_integer_ids_distinct_witness :
  kernel_name "form" "cell" (SubInt (-1)) ≠ kernel_name "form" "cell" (SubInt 1).
Proof.
  intros Heq.
  pose proof (kernel_name_integer_ids_distinct "form" "cell" (-1) 1 Heq) as H.
  discriminate H.
Defined.

Lemma compile_integral_scalar_types_witness :
  compile_integral (H := reference_collaborators)
    reference_interface reference_interface cell_integral_P1P2 form_data_P1P2
    "form" params_coffee_only None false false runtime0
  = (Raise KeyError, runtime0)
  ∧ compile_integral (H := reference_collaborators)
      reference_interface reference_interface cell_integral_P1P2 form_data_P1P2
      "form" params_coffee_only (Some reference_interface) true false runtime0
    = (Raise KeyError, {| next_index := 4; warnings := [] |}).
Proof.
  destruct (compile_integral_scalar_types (H := reference_collaborators)
              reference_interface reference_interface cell_integral_P1P2
              form_data_P1P2 "form" params_coffee_only None false false runtime0)
    as [Hmissing _].
  destruct (compile_integral_scalar_types (H := reference_collaborators)
              reference_interface reference_interface cell_integral_P1P2
              form_data_P1P2 "form" params_coffee_only (Some reference_interface)
              true false runtime0)
    as [_ Hconfig].
  split; [exact (Hmissing ltac:(vm_compute; reflexivity))|].
  exact (Hconfig reference_interface (PyStr "double") false runtime0
           eq_refl eq_refl eq_refl ltac:(vm_compute; reflexivity)
           ltac:(vm_compute; reflexivity) eq_refl).
Defined.

Lemma dummy_replacement_shortcut_witness :
  ∃ cfg rt',
    create_kernel_config (H := reference_collaborators) "k" form_data_rank0
      cell_integral_P1P2 reference_parameters false runtime0 = (Ok cfg, rt')
    ∧ ∀ expressions,
        replace_argument_multiindices_dummy expressions cfg = expressions.
Proof.
  destruct (create_kernel_config (H := reference_collaborators) "k" form_data_rank0
              cell_integral_P1P2 reference_parameters false runtime0)
    as [[cfg|e] rt'] eqn:E; [|vm_compute in E; discriminate E].
  exists cfg, rt'. split; [reflexivity|].
  destruct (dummy_replacement_shortcut (H := reference_collaborators)
              _ _ _ _ _ _ _ _ E) as [_ Hshortcut].
  exact (Hshortcut eq_refl).
Defined.
